(** * GVINS estimator node: measurement synchronisation and dispatch

    A shallow embedding of [src/estimator/src/estimator_node.cpp]: the sensor
    callbacks, the synchroniser [getMeasurements], the IMU part of the
    dispatcher loop [process], the decoding of a frame into the feature map,
    the mechaniser [predict]/[update] and the restart controller, with the
    properties the specification states about them and further properties of
    the code.

    Modelling conventions.
    - A C++ [double] is a rational number ([Q]) and its arithmetic is exact;
      comparisons are the boolean tests [Qltb] and [Qle_bool].  No value is
      NaN or infinite.  Where a scenario sits on a rounding boundary the
      binary64 outcome is checked as well ([Binary64]).
    - The file-scope globals of the node are the fields of [Node], grouped by
      the component that owns them; field names are those of the source.
    - [std::queue] is a list whose head is the front.  Reading [front()] or
      [back()] of an empty queue, indexing an empty vector and a failed
      [ROS_ASSERT] end the run with [Crash].
    - The [Estimator] class is not part of this file of the source.  The node
      sees it through the calls it makes ([EstCall], kept as a trace) and the
      fields it reads ([EstView]); what the estimator answers after a given
      trace of calls is a parameter ([estimator] in [Env]).
    - Each callback, and each evaluation of the dispatcher's wait predicate
      followed by the processing of the bundle, is one atomic step. *)

From Stdlib Require Import ZArith QArith Qabs Qround List Bool String Lia Lqa
  Sorted Floats.
Import ListNotations.
Open Scope Q_scope.

(** ** Numbers *)

(** [a < b] on doubles. *)
Definition Qltb (a b : Q) : bool := negb (Qle_bool b a).

(** [#define MAX_GNSS_CAMERA_DELAY 0.05] *)
Definition MAX_GNSS_CAMERA_DELAY : Q := 0.05.

(** [uint64_t] arithmetic wraps modulo 2^64. *)
Definition uint64_wrap (z : Z) : Z := (z mod 2 ^ 64)%Z.

(** ** Eigen vectors and quaternions (only the operations [predict] uses) *)

Record Vector3d := mkV { vx : Q; vy : Q; vz : Q }.
Record Quaterniond := mkQuat { qw : Q; qx : Q; qy : Q; qz : Q }.

Definition vzero : Vector3d := mkV 0 0 0.
Definition vadd (a b : Vector3d) := mkV (vx a + vx b) (vy a + vy b) (vz a + vz b).
Definition vsub (a b : Vector3d) := mkV (vx a - vx b) (vy a - vy b) (vz a - vz b).
Definition vscale (k : Q) (a : Vector3d) := mkV (k * vx a) (k * vy a) (k * vz a).
Definition vcross (a b : Vector3d) :=
  mkV (vy a * vz b - vz a * vy b) (vz a * vx b - vx a * vz b) (vx a * vy b - vy a * vx b).

(** Hamilton product, [q1 * q2]. *)
Definition qmul (a b : Quaterniond) : Quaterniond :=
  mkQuat (qw a * qw b - qx a * qx b - qy a * qy b - qz a * qz b)
         (qw a * qx b + qx a * qw b + qy a * qz b - qz a * qy b)
         (qw a * qy b + qy a * qw b + qz a * qx b - qx a * qz b)
         (qw a * qz b + qz a * qw b + qx a * qy b - qy a * qx b).

(** [q * v]: Eigen rotates [v] as [v + w*uv + u x uv] with [uv = 2 (u x v)]. *)
Definition qrot (q : Quaterniond) (v : Vector3d) : Vector3d :=
  let u := mkV (qx q) (qy q) (qz q) in
  let uv := vscale 2 (vcross u v) in
  vadd (vadd v (vscale (qw q) uv)) (vcross u uv).

Definition qidentity : Quaterniond := mkQuat 1 0 0 0.

(** ** Messages *)

(** [sensor_msgs::Imu]: [imu_t] is [header.stamp.toSec()]. *)
Record Imu := mkImu {
  imu_t : Q;
  linear_acceleration : Vector3d;
  angular_velocity : Vector3d
}.

(** [sensor_msgs::PointCloud]: [pc_t] is [header.stamp.toSec()]. *)
Record PointCloud := mkPointCloud {
  pc_t : Q;
  points : list Vector3d;
  channels : list (list Q)
}.

(** [gnss_comm::gtime_t] and [time2sec]. *)
Record gtime_t := mkTime { time : Z; sec : Q }.
Definition time2sec (t : gtime_t) : Q := inject_Z (time t) + sec t.

(** One satellite observation; an epoch is the [std::vector<ObsPtr>] of one
    message. Only the time of an observation is read by the node. *)
Record Obs := mkObs { obs_time : gtime_t; obs_sat : Z }.
Definition Epoch := list Obs.

Inductive Ephem := BroadcastEphem (sat : Z) | GloEphem (sat : Z).

Inductive TimeSys := SYS_NONE | SYS_GPS | SYS_GLO | SYS_GAL | SYS_BDS.

(** [GnssTimePulseInfoMsg] *)
Record TimePulse := mkPulse {
  tp_week : Z;
  tp_tow : Q;
  time_sys : TimeSys;
  utc_based : bool
}.

(** ** The estimator as the node sees it *)

Inductive EstCall :=
| processIMU (dt : Q) (acc gyr : Vector3d)
| processGNSS (gnss_msg : Epoch)
| processImage (img_msg : PointCloud)
| inputEphem (e : Ephem)
| inputIonoParams (ts : Q) (iono_params : list Q)
| inputGNSSTimeDiff (d : Q)
| clearState
| setParameter.

Inductive SolverFlag := INITIAL | NON_LINEAR.

(** The estimator members the node reads; the window members are those at
    index [WINDOW_SIZE]. *)
Record EstView := mkView {
  td : Q;
  g : Vector3d;
  solver_flag : SolverFlag;
  Ps : Vector3d;
  Rs : Quaterniond;
  Vs : Vector3d;
  Bas : Vector3d;
  Bgs : Vector3d;
  est_acc_0 : Vector3d;
  est_gyr_0 : Vector3d
}.

(** What the node does not define itself: the configuration read by
    [readParameters], [Utility::deltaQ], the time conversions of gnss_comm,
    and the estimator's answers as a function of the calls made so far. *)
Record Env := mkEnv {
  GNSS_ENABLE : bool;
  GNSS_LOCAL_ONLINE_SYNC : bool;
  GNSS_LOCAL_TIME_DIFF : Q;
  deltaQ : Vector3d -> Quaterniond;
  gpst2time : Z -> Q -> gtime_t;
  utc2gpst : gtime_t -> gtime_t;
  gst2time : Z -> Q -> gtime_t;
  bdt2time : Z -> Q -> gtime_t;
  estimator : list EstCall -> EstView
}.

(** ** Node state *)

Inductive LogEvent :=
| ROS_WARN (msg : string)
| cerr (msg : string)
| cout_calibrated (d : Q)
| pubLatestOdometry (P : Vector3d) (Q_ : Quaterniond) (V : Vector3d) (stamp : Q).

Record Buffers := mkBuffers {
  imu_buf : list Imu;
  feature_buf : list PointCloud;
  gnss_meas_buf : list Epoch;
  relo_buf : list PointCloud
}.

(** Globals of [predict]/[update]. [init_imu = true] means that no IMU sample
    has been integrated yet. *)
Record Mechanizer := mkMech {
  latest_time : Q;
  tmp_P : Vector3d;
  tmp_Q : Quaterniond;
  tmp_V : Vector3d;
  tmp_Ba : Vector3d;
  tmp_Bg : Vector3d;
  acc_0 : Vector3d;
  gyr_0 : Vector3d;
  init_imu : bool
}.

(** Globals guarded by [m_time]. *)
Record ClockSync := mkClock {
  next_pulse_time : Q;
  next_pulse_time_valid : bool;
  time_diff_gnss_local : Q;
  time_diff_valid : bool
}.

(** Globals of the feature decimation. *)
Record Decimator := mkDeci {
  latest_gnss_time : Q;
  tmp_last_feature_time : Q;
  feature_msg_counter : Z;
  skip_parameter : Z
}.

Record Node := mkNode {
  bufs : Buffers;
  mech : Mechanizer;
  clock : ClockSync;
  deci : Decimator;
  current_time : Q;
  last_imu_t : Q;
  sum_of_wait : Z;
  est_calls : list EstCall;
  log : list LogEvent
}.

Definition set_bufs (b : Buffers) (st : Node) : Node :=
  mkNode b (mech st) (clock st) (deci st) (current_time st) (last_imu_t st)
         (sum_of_wait st) (est_calls st) (log st).
Definition set_mech (m : Mechanizer) (st : Node) : Node :=
  mkNode (bufs st) m (clock st) (deci st) (current_time st) (last_imu_t st)
         (sum_of_wait st) (est_calls st) (log st).
Definition set_clock (c : ClockSync) (st : Node) : Node :=
  mkNode (bufs st) (mech st) c (deci st) (current_time st) (last_imu_t st)
         (sum_of_wait st) (est_calls st) (log st).
Definition set_deci (d : Decimator) (st : Node) : Node :=
  mkNode (bufs st) (mech st) (clock st) d (current_time st) (last_imu_t st)
         (sum_of_wait st) (est_calls st) (log st).
Definition set_current_time (t : Q) (st : Node) : Node :=
  mkNode (bufs st) (mech st) (clock st) (deci st) t (last_imu_t st)
         (sum_of_wait st) (est_calls st) (log st).
Definition set_last_imu_t (t : Q) (st : Node) : Node :=
  mkNode (bufs st) (mech st) (clock st) (deci st) (current_time st) t
         (sum_of_wait st) (est_calls st) (log st).
Definition set_sum_of_wait (n : Z) (st : Node) : Node :=
  mkNode (bufs st) (mech st) (clock st) (deci st) (current_time st) (last_imu_t st)
         n (est_calls st) (log st).
Definition call (c : EstCall) (st : Node) : Node :=
  mkNode (bufs st) (mech st) (clock st) (deci st) (current_time st) (last_imu_t st)
         (sum_of_wait st) (est_calls st ++ [c]) (log st).
Definition emit (l : list LogEvent) (st : Node) : Node :=
  mkNode (bufs st) (mech st) (clock st) (deci st) (current_time st) (last_imu_t st)
         (sum_of_wait st) (est_calls st) (log st ++ l).

(** The estimator's members as they stand after the calls made so far. *)
Definition view (E : Env) (st : Node) : EstView := estimator E (est_calls st).

(** ** Runs that can end in undefined behaviour or a failed assertion *)

Inductive Fault := EmptyQueueAccess | EmptyVectorIndex | AssertionFailed.

Inductive outcome (A : Type) : Type :=
| Ok (a : A)
| Crash (f : Fault).
Arguments Ok {A} a.
Arguments Crash {A} f.

Definition bind {A B : Type} (m : outcome A) (k : A -> outcome B) : outcome B :=
  match m with
  | Ok a => k a
  | Crash f => Crash f
  end.

Notation "x <- m ;; k" := (bind m (fun x => k))
  (at level 61, m at next level, right associativity).
Notation "' p <- m ;; k" := (bind m (fun x => let p := x in k))
  (at level 61, p pattern, m at next level, right associativity).

(** [q.front()] *)
Definition front {A : Type} (q : list A) : outcome A :=
  match q with
  | [] => Crash EmptyQueueAccess
  | a :: _ => Ok a
  end.

(** [q.back()] *)
Definition back {A : Type} (q : list A) : outcome A :=
  match rev q with
  | [] => Crash EmptyQueueAccess
  | a :: _ => Ok a
  end.

(** [q.pop()] *)
Definition pop {A : Type} (q : list A) : outcome (list A) :=
  match q with
  | [] => Crash EmptyQueueAccess
  | _ :: q' => Ok q'
  end.

Definition empty {A : Type} (q : list A) : bool :=
  match q with
  | [] => true
  | _ => false
  end.

(** [time2sec(e[0]->time)] *)
Definition epoch_time (e : Epoch) : outcome Q :=
  match e with
  | [] => Crash EmptyVectorIndex
  | o :: _ => Ok (time2sec (obs_time o))
  end.

(** [ROS_ASSERT(c)] *)
Definition ROS_ASSERT (c : bool) : outcome unit :=
  if c then Ok tt else Crash AssertionFailed.

(** ** IMU mechanisation: [predict] and [update] *)

(** [predict(imu_msg)]; [gv] is [estimator_ptr->g]. *)
Definition predict (E : Env) (gv : Vector3d) (imu_msg : Imu) (m : Mechanizer)
  : Mechanizer :=
  let t := imu_t imu_msg in
  if init_imu m then
    mkMech t (tmp_P m) (tmp_Q m) (tmp_V m) (tmp_Ba m) (tmp_Bg m) (acc_0 m) (gyr_0 m)
           false
  else
    let dt := t - latest_time m in
    let linear_acceleration := linear_acceleration imu_msg in
    let angular_velocity := angular_velocity imu_msg in
    let un_acc_0 := vsub (qrot (tmp_Q m) (vsub (acc_0 m) (tmp_Ba m))) gv in
    let un_gyr := vsub (vscale 0.5 (vadd (gyr_0 m) angular_velocity)) (tmp_Bg m) in
    let tmp_Q' := qmul (tmp_Q m) (deltaQ E (vscale dt un_gyr)) in
    let un_acc_1 := vsub (qrot tmp_Q' (vsub linear_acceleration (tmp_Ba m))) gv in
    let un_acc := vscale 0.5 (vadd un_acc_0 un_acc_1) in
    let tmp_P' :=
      vadd (vadd (tmp_P m) (vscale dt (tmp_V m))) (vscale (0.5 * dt * dt) un_acc) in
    let tmp_V' := vadd (tmp_V m) (vscale dt un_acc) in
    mkMech t tmp_P' tmp_Q' tmp_V' (tmp_Ba m) (tmp_Bg m)
           linear_acceleration angular_velocity false.

(** [update()]: reseed from the estimator and replay the buffered samples. *)
Definition update (E : Env) (st : Node) : Node :=
  let v := view E st in
  let seeded :=
    mkMech (current_time st) (Ps v) (Rs v) (Vs v) (Bas v) (Bgs v)
           (est_acc_0 v) (est_gyr_0 v) (init_imu (mech st)) in
  set_mech (fold_left (fun m tmp_imu_msg => predict E (g v) tmp_imu_msg m)
                      (imu_buf (bufs st)) seeded) st.

(** ** The synchroniser: [getMeasurements] *)

(** The three output parameters of [getMeasurements]; [gnss_msg] is the empty
    vector when no epoch is paired. *)
Record Bundle := mkBundle {
  imu_msg : list Imu;
  img_msg : PointCloud;
  gnss_msg : Epoch
}.

(** The loop at lines 175-180.  It yields the last [front_feature_ts], the
    feature queue and the warnings. *)
Fixpoint throw_img (front_imu_ts front_feature_ts : Q) (fb : list PointCloud)
  : outcome (Q * list PointCloud * list LogEvent) :=
  match fb with
  | [] => Ok (front_feature_ts, [], [])
  | _ :: rest =>
      if Qltb front_feature_ts front_imu_ts then
        f <- front rest ;;
        '(ts, fb', w) <- throw_img front_imu_ts (pc_t f) rest ;;
        Ok (ts, fb', ROS_WARN "throw img, only should happen at the beginning" :: w)
      else Ok (front_feature_ts, fb, [])
  end.

(** The loop at lines 190-196; [None] is its [return false]. *)
Fixpoint throw_gnss (bound front_gnss_ts : Q) (gb : list Epoch)
  : outcome (option (Q * list Epoch) * list LogEvent) :=
  match gb with
  | [] => Ok (Some (front_gnss_ts, []), [])
  | _ :: rest =>
      if Qltb front_gnss_ts bound then
        let w0 := ROS_WARN "throw gnss, only should happen at the beginning" in
        match rest with
        | [] => Ok (None, [w0])
        | e :: _ =>
            ts <- epoch_time e ;;
            '(r, w) <- throw_gnss bound ts rest ;;
            Ok (r, w0 :: w)
        end
      else Ok (Some (front_gnss_ts, gb), [])
  end.

(** The body of [if (GNSS_ENABLE)], lines 186-210; [front_feature_ts] already
    holds the clock offset.  [None] is [return false]; otherwise the paired
    epoch (or the empty vector) and the GNSS queue. *)
Definition align_gnss (front_feature_ts : Q) (gb : list Epoch)
  : outcome (option (Epoch * list Epoch) * list LogEvent) :=
  g0 <- front gb ;;
  front_gnss_ts <- epoch_time g0 ;;
  '(r, w) <- throw_gnss (front_feature_ts - MAX_GNSS_CAMERA_DELAY) front_gnss_ts gb ;;
  match r with
  | None => Ok (None, w)
  | Some (front_gnss_ts, gb) =>
      if empty gb then Ok (None, w ++ [ROS_WARN "wait for gnss..."])
      else if Qltb (Qabs (front_gnss_ts - front_feature_ts)) MAX_GNSS_CAMERA_DELAY then
        gnss_msg <- front gb ;;
        gb <- pop gb ;;
        Ok (Some (gnss_msg, gb), w)
      else Ok (Some ([], gb), w)
  end.

(** The loop at lines 217-221: the samples moved out and the IMU queue. *)
Fixpoint drain_imu (bound : Q) (ib : list Imu) : outcome (list Imu * list Imu) :=
  match ib with
  | [] => Crash EmptyQueueAccess
  | s :: rest =>
      if Qltb (imu_t s) bound then
        '(moved, ib') <- drain_imu bound rest ;;
        Ok (s :: moved, ib')
      else Ok ([], ib)
  end.

(** [getMeasurements]: [None] is [return false]. *)
Definition getMeasurements (E : Env) (st : Node) : outcome (option Bundle * Node) :=
  let b := bufs st in
  if empty (imu_buf b) || empty (feature_buf b)
     || (GNSS_ENABLE E && empty (gnss_meas_buf b))
  then Ok (None, st)
  else
    f0 <- front (feature_buf b) ;;
    let front_feature_ts := pc_t f0 in
    newest <- back (imu_buf b) ;;
    if negb (Qltb front_feature_ts (imu_t newest)) then
      Ok (None, set_sum_of_wait (sum_of_wait st + 1) st)
    else
      oldest <- front (imu_buf b) ;;
      let front_imu_ts := imu_t oldest in
      '(front_feature_ts, fb, w1) <-
         throw_img front_imu_ts front_feature_ts (feature_buf b) ;;
      '(r, w2) <-
         (if GNSS_ENABLE E then
            align_gnss (front_feature_ts + time_diff_gnss_local (clock st))
                       (gnss_meas_buf b)
          else Ok (Some ([], gnss_meas_buf b), [])) ;;
      match r with
      | None =>
          Ok (None,
              emit (w1 ++ w2) (set_bufs (mkBuffers (imu_buf b) fb [] (relo_buf b)) st))
      | Some (gnss_msg, gb) =>
          img_msg <- front fb ;;
          fb <- pop fb ;;
          '(moved, ib) <- drain_imu (pc_t img_msg + td (view E st)) (imu_buf b) ;;
          straddling <- front ib ;;
          let imu_msg := moved ++ [straddling] in
          let w3 := if empty imu_msg then [ROS_WARN "no imu between two image"]
                    else [] in
          Ok (Some (mkBundle imu_msg img_msg gnss_msg),
              emit (w1 ++ w2 ++ w3) (set_bufs (mkBuffers ib fb gb (relo_buf b)) st))
      end.

(** ** Sensor callbacks *)

Definition push_imu (m : Imu) (b : Buffers) : Buffers :=
  mkBuffers (imu_buf b ++ [m]) (feature_buf b) (gnss_meas_buf b) (relo_buf b).
Definition push_feature (f : PointCloud) (b : Buffers) : Buffers :=
  mkBuffers (imu_buf b) (feature_buf b ++ [f]) (gnss_meas_buf b) (relo_buf b).
Definition push_gnss (e : Epoch) (b : Buffers) : Buffers :=
  mkBuffers (imu_buf b) (feature_buf b) (gnss_meas_buf b ++ [e]) (relo_buf b).

(** [imu_callback] *)
Definition imu_callback (E : Env) (imu_msg : Imu) (st : Node) : Node :=
  if Qle_bool (imu_t imu_msg) (last_imu_t st) then
    emit [ROS_WARN "imu message in disorder!"] st
  else
    let st := set_last_imu_t (imu_t imu_msg) st in
    let st := set_bufs (push_imu imu_msg (bufs st)) st in
    let st := set_last_imu_t (imu_t imu_msg) st in
    let st := set_mech (predict E (g (view E st)) imu_msg (mech st)) st in
    match solver_flag (view E st) with
    | NON_LINEAR =>
        emit [pubLatestOdometry (tmp_P (mech st)) (tmp_Q (mech st)) (tmp_V (mech st))
                                (imu_t imu_msg)] st
    | INITIAL => st
    end.

(** [gnss_ephem_callback] and [gnss_glo_ephem_callback] *)
Definition gnss_ephem_callback (ephem : Ephem) (st : Node) : Node :=
  call (inputEphem ephem) st.

(** [gnss_iono_params_callback] *)
Definition gnss_iono_params_callback (ts : Q) (data : list Q) (st : Node)
  : outcome Node :=
  _ <- ROS_ASSERT (Nat.eqb (List.length data) 8) ;;
  Ok (call (inputIonoParams ts data) st).

(** [gnss_meas_callback]; [gnss_meas] is [msg2meas(meas_msg)]. *)
Definition gnss_meas_callback (gnss_meas : Epoch) (st : Node) : outcome Node :=
  ts <- epoch_time gnss_meas ;;
  let d := deci st in
  let st := set_deci (mkDeci ts (tmp_last_feature_time d) (feature_msg_counter d)
                             (skip_parameter d)) st in
  if negb (time_diff_valid (clock st)) then Ok st
  else Ok (set_bufs (push_gnss gnss_meas (bufs st)) st).

(** [feature_callback] *)
Definition feature_callback (feature_msg : PointCloud) (st : Node) : Node :=
  let d := deci st in
  let counter := uint64_wrap (feature_msg_counter d + 1) in
  let d := mkDeci (latest_gnss_time d) (tmp_last_feature_time d) counter
                  (skip_parameter d) in
  let d :=
    if (skip_parameter d <? 0)%Z && time_diff_valid (clock st) then
      let this_feature_ts := pc_t feature_msg + time_diff_gnss_local (clock st) in
      let skip :=
        if Qltb 0 (latest_gnss_time d) && Qltb 0 (tmp_last_feature_time d) then
          if Qltb (Qabs (tmp_last_feature_time d - latest_gnss_time d))
                  (Qabs (this_feature_ts - latest_gnss_time d))
          then (counter mod 2)%Z
          else uint64_wrap (1 - counter mod 2)
        else skip_parameter d in
      mkDeci (latest_gnss_time d) this_feature_ts counter skip
    else d in
  let st := set_deci d st in
  if (0 <=? skip_parameter d)%Z && negb (counter mod 2 =? skip_parameter d)%Z then
    set_bufs (push_feature feature_msg (bufs st)) st
  else st.

(** [local_trigger_info_callback]; [t_local] is the trigger's
    [header.stamp.toSec()]. *)
Definition local_trigger_info_callback (t_local : Q) (st : Node) : Node :=
  let c := clock st in
  if next_pulse_time_valid c then
    let d := next_pulse_time c - t_local in
    let st := call (inputGNSSTimeDiff d) st in
    let st := if negb (time_diff_valid c) then emit [cout_calibrated d] st else st in
    set_clock (mkClock (next_pulse_time c) (next_pulse_time_valid c) d true) st
  else st.

(** [gnss_tp_info_callback] *)
Definition gnss_tp_info_callback (E : Env) (tp_msg : TimePulse) (st : Node) : Node :=
  let tp_time := gpst2time E (tp_week tp_msg) (tp_tow tp_msg) in
  let converted :=
    if utc_based tp_msg
       || match time_sys tp_msg with SYS_GLO => true | _ => false end
    then Some (utc2gpst E tp_time)
    else
      match time_sys tp_msg with
      | SYS_GAL => Some (gst2time E (tp_week tp_msg) (tp_tow tp_msg))
      | SYS_BDS => Some (bdt2time E (tp_week tp_msg) (tp_tow tp_msg))
      | SYS_NONE => None
      | _ => Some tp_time
      end in
  match converted with
  | None => emit [cerr "Unknown time system in GNSSTimePulseInfoMsg."] st
  | Some tp_time =>
      let c := clock st in
      set_clock (mkClock (time2sec tp_time) true (time_diff_gnss_local c)
                         (time_diff_valid c)) st
  end.

(** [restart_callback]; [data] is [restart_msg->data]. *)
Definition restart_callback (data : bool) (st : Node) : Node :=
  if data then
    let st := emit [ROS_WARN "restart the estimator!"] st in
    let b := bufs st in
    let st := set_bufs (mkBuffers [] [] (gnss_meas_buf b) (relo_buf b)) st in
    let st := call clearState st in
    let st := call setParameter st in
    let st := set_current_time (-1) st in
    set_last_imu_t 0 st
  else st.

(** ** The dispatcher: [process] *)

(** The loop over [imu_msg], lines 446-487.  [d] and [r] are the locals
    [(dx, dy, dz)] and [(rx, ry, rz)]. *)
Fixpoint process_imu (E : Env) (img_stamp : Q) (imu_msg : list Imu)
         (d r : Vector3d) (st : Node) : outcome Node :=
  match imu_msg with
  | [] => Ok st
  | imu_data :: rest =>
      let t := imu_t imu_data in
      let img_t := img_stamp + td (view E st) in
      if Qle_bool t img_t then
        let st := if Qltb (current_time st) 0 then set_current_time t st else st in
        let dt := t - current_time st in
        _ <- ROS_ASSERT (Qle_bool 0 dt) ;;
        let st := set_current_time t st in
        let d := linear_acceleration imu_data in
        let r := angular_velocity imu_data in
        process_imu E img_stamp rest d r (call (processIMU dt d r) st)
      else
        let dt_1 := img_t - current_time st in
        let dt_2 := t - img_t in
        let st := set_current_time img_t st in
        _ <- ROS_ASSERT (Qle_bool 0 dt_1) ;;
        _ <- ROS_ASSERT (Qle_bool 0 dt_2) ;;
        _ <- ROS_ASSERT (Qltb 0 (dt_1 + dt_2)) ;;
        let w1 := dt_2 / (dt_1 + dt_2) in
        let w2 := dt_1 / (dt_1 + dt_2) in
        let d := vadd (vscale w1 d) (vscale w2 (linear_acceleration imu_data)) in
        let r := vadd (vscale w1 r) (vscale w2 (angular_velocity imu_data)) in
        process_imu E img_stamp rest d r (call (processIMU dt_1 d r) st)
  end.

(** The body of the loop of [process] for one bundle.  The decoding of the
    feature channels (step 4) and the publishers are not modelled: the frame
    is handed to [processImage] as it is. *)
Definition process_bundle (E : Env) (b : Bundle) (st : Node) : outcome Node :=
  st <- process_imu E (pc_t (img_msg b)) (imu_msg b) vzero vzero st ;;
  let st := if GNSS_ENABLE E && negb (empty (gnss_msg b))
            then call (processGNSS (gnss_msg b)) st else st in
  let st := call (processImage (img_msg b)) st in
  match solver_flag (view E st) with
  | NON_LINEAR => Ok (update E st)
  | INITIAL => Ok st
  end.

(** One evaluation of the wait predicate, and the loop body when it holds. *)
Definition process (E : Env) (st : Node) : outcome Node :=
  '(r, st) <- getMeasurements E st ;;
  match r with
  | None => Ok st
  | Some b => process_bundle E b st
  end.

(** ** Start-up and runs *)

(** The globals as [main] leaves them before the first callback. *)
Definition main (E : Env) : Node :=
  let offline := GNSS_ENABLE E && negb (GNSS_LOCAL_ONLINE_SYNC E) in
  mkNode (mkBuffers [] [] [] [])
         (mkMech 0 vzero (mkQuat 0 0 0 0) vzero vzero vzero vzero vzero true)
         (mkClock 0 false (if offline then GNSS_LOCAL_TIME_DIFF E else 0) offline)
         (mkDeci (-1) (-1) 0 (if GNSS_ENABLE E then (-1)%Z else 0%Z))
         (-1) (-1) 0
         (setParameter ::
          if offline then [inputGNSSTimeDiff (GNSS_LOCAL_TIME_DIFF E)] else [])
         [].

Inductive Event :=
| EvImu (imu_msg : Imu)
| EvFeature (feature_msg : PointCloud)
| EvGnssMeas (gnss_meas : Epoch)
| EvEphem (ephem : Ephem)
| EvIono (ts : Q) (data : list Q)
| EvTrigger (t_local : Q)
| EvTimePulse (tp_msg : TimePulse)
| EvRestart (data : bool)
| EvProcess.

(** Which callbacks are subscribed depends on the configuration ([main],
    lines 566-599); an event without subscriber changes nothing. *)
Definition step (E : Env) (ev : Event) (st : Node) : outcome Node :=
  match ev with
  | EvImu m => Ok (imu_callback E m st)
  | EvFeature f => Ok (feature_callback f st)
  | EvRestart b => Ok (restart_callback b st)
  | EvProcess => process E st
  | EvGnssMeas e => if GNSS_ENABLE E then gnss_meas_callback e st else Ok st
  | EvEphem e => if GNSS_ENABLE E then Ok (gnss_ephem_callback e st) else Ok st
  | EvIono ts data =>
      if GNSS_ENABLE E then gnss_iono_params_callback ts data st else Ok st
  | EvTrigger t =>
      if GNSS_ENABLE E && GNSS_LOCAL_ONLINE_SYNC E
      then Ok (local_trigger_info_callback t st) else Ok st
  | EvTimePulse tp =>
      if GNSS_ENABLE E && GNSS_LOCAL_ONLINE_SYNC E
      then Ok (gnss_tp_info_callback E tp st) else Ok st
  end.

Fixpoint run (E : Env) (evs : list Event) (st : Node) : outcome Node :=
  match evs with
  | [] => Ok st
  | ev :: evs => st' <- step E ev st ;; run E evs st'
  end.

(** ** Specification vocabulary *)

(** The wait predicate of the dispatcher as the specification words it
    (section 4.5): queues non-empty and the newest IMU sample later than the
    oldest feature frame. *)
Definition wakeup_precondition (E : Env) (st : Node) : bool :=
  let b := bufs st in
  negb (empty (imu_buf b)) && negb (empty (feature_buf b))
  && (negb (GNSS_ENABLE E) || negb (empty (gnss_meas_buf b)))
  && match back (imu_buf b), front (feature_buf b) with
     | Ok newest, Ok f0 => Qltb (pc_t f0) (imu_t newest)
     | _, _ => false
     end.

(** An epoch older than [bound]. *)
Definition stale (bound : Q) (e : Epoch) : Prop :=
  exists t, epoch_time e = Ok t /\ t < bound.

(** Timestamps strictly increasing from front to back. *)
Fixpoint increasing (ts : list Q) : Prop :=
  match ts with
  | [] => True
  | t :: rest => Forall (fun u => t < u) rest /\ increasing rest
  end.

(** The invariant of the IMU queue: increasing, and no sample later than
    [last_imu_t]. *)
Definition imu_buf_ok (st : Node) : Prop :=
  increasing (map imu_t (imu_buf (bufs st)))
  /\ Forall (fun s => imu_t s <= last_imu_t st) (imu_buf (bufs st)).

(** The IMU samples pushed on [imu_buf] along a run, oldest first: a callback
    only appends, so they are what a step adds behind the old queue. *)
Fixpoint enqueued (E : Env) (evs : list Event) (st : Node) : list Imu :=
  match evs with
  | [] => []
  | ev :: evs =>
      match step E ev st with
      | Ok st' =>
          match ev with
          | EvImu _ => skipn (List.length (imu_buf (bufs st))) (imu_buf (bufs st'))
          | _ => []
          end ++ enqueued E evs st'
      | Crash _ => []
      end
  end.

Definition is_restart (ev : Event) : bool :=
  match ev with
  | EvRestart true => true
  | _ => false
  end.

(** The [processIMU] calls of a trace, in order. *)
Definition imu_calls (calls : list EstCall) : list EstCall :=
  filter (fun c => match c with processIMU _ _ _ => true | _ => false end) calls.

Definition veq (a b : Vector3d) : Prop := vx a == vx b /\ vy a == vy b /\ vz a == vz b.

(** Two [processIMU] calls with equal arguments (as numbers). *)
Definition same_call (c c' : EstCall) : Prop :=
  match c, c' with
  | processIMU dt a w, processIMU dt' a' w' => dt == dt' /\ veq a a' /\ veq w w'
  | _, _ => c = c'
  end.

(** [feature_callback] over a sequence of frames. *)
Definition feed (fs : list PointCloud) (st : Node) : Node :=
  fold_left (fun s f => feature_callback f s) fs st.

(** Every other element, starting with the first when [keep] holds. *)
Fixpoint every_other {A : Type} (keep : bool) (l : list A) : list A :=
  match l with
  | [] => []
  | a :: l' => if keep then a :: every_other false l' else every_other true l'
  end.

(** ** Fixtures for the scenarios of section 8 *)

(** Modelled from the spec: [Utility::deltaQ] is not in this file of the
    source; section 4.4 accepts the first-order form [1, theta/2]. *)
Definition small_angle (theta : Vector3d) : Quaterniond :=
  mkQuat 1 (vx theta / 2) (vy theta / 2) (vz theta / 2).

(** An estimator that answers the same whatever it was told: [td] as given,
    no gravity, still initialising. *)
Definition idle_view (td0 : Q) : EstView :=
  mkView td0 vzero INITIAL vzero qidentity vzero vzero vzero vzero vzero.

Definition week_seconds (week : Z) (tow : Q) : gtime_t := mkTime (week * 604800) tow.

(** Online clock synchronisation, GNSS on or off, constant [td]. *)
Definition test_env (gnss : bool) (td0 : Q) : Env :=
  mkEnv gnss true 0 small_angle week_seconds (fun t => t) week_seconds week_seconds
        (fun _ => idle_view td0).

Definition imu_at (t az : Q) : Imu := mkImu t (mkV 0 0 az) vzero.
Definition frame_at (t : Q) : PointCloud := mkPointCloud t [] [].
Definition epoch_at (s : Z) (frac : Q) : Epoch := [mkObs (mkTime s frac) 1].

Definition with_queues (ib : list Imu) (fb : list PointCloud) (gb : list Epoch)
           (st : Node) : Node :=
  set_bufs (mkBuffers ib fb gb []) st.

(** The node once the clock offset [d] has been calibrated. *)
Definition calibrated (d : Q) (st : Node) : Node :=
  set_clock (mkClock 0 false d true) st.

(** Scenario 4: offset 0, frame at 10.00, epochs 9.80, 9.95, 10.02. *)
Definition stale_gnss_state : Node :=
  with_queues [imu_at 9.9 0; imu_at 10.1 0] [frame_at 10.00]
              [epoch_at 9 0.80; epoch_at 9 0.95; epoch_at 10 0.02]
              (calibrated 0 (main (test_env true 0))).

(** A stale frame followed by one that carries the stamp of the newest IMU
    sample. *)
Definition late_frame_state : Node :=
  with_queues [imu_at 5 0; imu_at 6 0] [frame_at 1; frame_at 6] []
              (main (test_env false 0)).

(** The estimator reports [td = 0.5]; the frame is at 1.5, the newest IMU
    sample at 2. *)
Definition delayed_frame_state : Node :=
  with_queues [imu_at 1 0; imu_at 2 0] [frame_at 1.5] []
              (main (test_env false 0.5)).

(** Scenario 1: three IMU samples and a frame between the last two. *)
Definition straddle_state : Node :=
  with_queues [imu_at 0.00 10; imu_at 0.01 10; imu_at 0.02 20] [frame_at 0.015] []
              (main (test_env false 0)).

(** Every queued frame is older than the only IMU sample. *)
Definition only_stale_frames_state : Node :=
  with_queues [imu_at 5 0] [frame_at 1] [] (main (test_env false 0)).

(** The frame left after the stale one is newer than every IMU sample. *)
Definition frame_beyond_imu_state : Node :=
  with_queues [imu_at 5 0; imu_at 6 0] [frame_at 1; frame_at 7] []
              (main (test_env false 0)).

(** Every queued epoch is stale for the front frame. *)
Definition all_gnss_stale_state : Node :=
  with_queues [imu_at 9.9 0; imu_at 10.1 0] [frame_at 10.00] [epoch_at 9 0.80]
              (calibrated 0 (main (test_env true 0))).

(** Scenario 2 just before the frame at [t0 + 0.050]: offset 0, one frame
    seen, the last GNSS epoch and the last frame both at [t0], parity
    undecided. *)
Definition parity_state (t0 : Q) : Node :=
  set_deci (mkDeci t0 t0 1 (-1)) (calibrated 0 (main (test_env true 0))).

(** Scenario 2 from the start, each GNSS epoch arriving before the frame of
    the same time. *)
Definition parity_run : list Event :=
  [EvGnssMeas (epoch_at 0 0.000); EvFeature (frame_at 0.000);
   EvFeature (frame_at 0.050);
   EvGnssMeas (epoch_at 0 0.100); EvFeature (frame_at 0.100);
   EvFeature (frame_at 0.150);
   EvGnssMeas (epoch_at 0 0.200); EvFeature (frame_at 0.200);
   EvFeature (frame_at 0.250)].

(** Scenario 6: five IMU samples, two frames and one GNSS epoch queued,
    ephemerides already forwarded, one IMU sample integrated. *)
Definition mid_stream_state : Node :=
  with_queues [imu_at 1 0; imu_at 2 0; imu_at 3 0; imu_at 4 0; imu_at 5 0]
              [frame_at 1.5; frame_at 2.5] [epoch_at 2 0.5]
              (gnss_ephem_callback (BroadcastEphem 7)
                 (imu_callback (test_env true 0) (imu_at 1 0)
                               (calibrated 0 (main (test_env true 0))))).

(** The node after its first IMU sample, at time 1. *)
Definition after_first_imu : Node :=
  imu_callback (test_env false 0) (imu_at 1 0) (main (test_env false 0)).

(** A pulse at GPS second 100 is pending; nothing calibrated yet. *)
Definition pulse_pending_state : Node :=
  gnss_tp_info_callback (test_env true 0) (mkPulse 0 100 SYS_GPS false)
                        (main (test_env true 0)).

(** An epoch arrives before the clock is calibrated; then a pulse at GPS
    second 100 and its trigger at local time 50 calibrate it, and two frames
    arrive. *)
Definition dropped_epoch_run (e : Epoch) : list Event :=
  [EvGnssMeas e; EvTimePulse (mkPulse 0 100 SYS_GPS false); EvTrigger 50;
   EvFeature (frame_at 49.98); EvFeature (frame_at 50.03)].

(** GNSS disabled: a frame at 1 arrives, then the first IMU sample at 5,
    then the dispatcher evaluates its wait predicate. *)
Definition late_imu_run : list Event :=
  [EvFeature (frame_at 1); EvImu (imu_at 5 0); EvProcess].

(** Scenario 5: a sample at 1.00, then one at 0.99. *)
Definition out_of_order_run : list Event :=
  [EvImu (imu_at 1.00 0); EvImu (imu_at 0.99 0)].

(** A restart between a sample at 5 and a sample at 3. *)
Definition replay_run : list Event :=
  [EvImu (imu_at 5 0); EvRestart true; EvImu (imu_at 3 0)].

(** ** Vocabulary for the properties of whole runs *)

(** The estimator calls an event may cause. *)
Definition may_call (ev : Event) (c : EstCall) : Prop :=
  match ev, c with
  | EvProcess, processIMU _ _ _ => True
  | EvProcess, processGNSS _ => True
  | EvProcess, processImage _ => True
  | EvEphem e, inputEphem e' => e' = e
  | EvIono ts data, inputIonoParams ts' data' => ts' = ts /\ data' = data
  | EvTrigger _, inputGNSSTimeDiff _ => True
  | EvRestart true, clearState => True
  | EvRestart true, setParameter => True
  | _, _ => False
  end.

Definition is_trigger (ev : Event) : bool :=
  match ev with
  | EvTrigger _ => true
  | _ => false
  end.

(** A GNSS call: one the node makes only for GNSS data. *)
Definition is_gnss_call (c : EstCall) : bool :=
  match c with
  | processGNSS _ | inputEphem _ | inputIonoParams _ _ | inputGNSSTimeDiff _ => true
  | _ => false
  end.

(** The frames handed to [processImage], in order. *)
Fixpoint image_frames (calls : list EstCall) : list PointCloud :=
  match calls with
  | [] => []
  | processImage f :: calls => f :: image_frames calls
  | _ :: calls => image_frames calls
  end.

(** The frames that arrived, in order. *)
Fixpoint arrived_frames (evs : list Event) : list PointCloud :=
  match evs with
  | [] => []
  | EvFeature f :: evs => f :: arrived_frames evs
  | _ :: evs => arrived_frames evs
  end.

(** [l] is [l'] with some elements left out. *)
Inductive sublist {A : Type} : list A -> list A -> Prop :=
| sublist_nil : sublist [] []
| sublist_skip : forall a l l', sublist l l' -> sublist l (a :: l')
| sublist_keep : forall a l l', sublist l l' -> sublist (a :: l) (a :: l').


(** The newest queued IMU sample is the one the mechaniser integrated last
    and the one [last_imu_t] remembers. *)
Definition newest_integrated (st : Node) : Prop :=
  forall s, back (imu_buf (bufs st)) = Ok s ->
            latest_time (mech st) = imu_t s /\ last_imu_t st = imu_t s.




(** The [inputGNSSTimeDiff] calls of a trace. *)
Definition time_diff_calls (calls : list EstCall) : list EstCall :=
  filter (fun c => match c with inputGNSSTimeDiff _ => true | _ => false end) calls.

(** A call of the dispatcher: [processIMU], [processGNSS] or [processImage]. *)
Definition is_process_call (c : EstCall) : bool :=
  match c with
  | processIMU _ _ _ | processGNSS _ | processImage _ => true
  | _ => false
  end.

(** GNSS enabled with the static offset 18 of the configuration instead of
    the pulse and trigger. *)
Definition offline_env : Env :=
  mkEnv true false 18 small_angle week_seconds (fun t => t) week_seconds week_seconds
        (fun _ => idle_view 0).

(** Sensor traffic of every kind, a restart and two dispatcher rounds. *)
Definition mixed_run : list Event :=
  [EvTimePulse (mkPulse 0 100 SYS_GPS false); EvTrigger 50;
   EvGnssMeas (epoch_at 100 0.02); EvEphem (GloEphem 3);
   EvIono 1 [1; 2; 3; 4; 5; 6; 7; 8];
   EvImu (imu_at 49.9 0); EvFeature (frame_at 49.98); EvFeature (frame_at 50.03);
   EvImu (imu_at 50.1 0); EvProcess; EvRestart true; EvImu (imu_at 50.2 0); EvProcess].

(** The node waits for its first calibration: offset not valid, parity
    undecided, no frame and no epoch queued. *)
Definition uncalibrated (st : Node) : Prop :=
  time_diff_valid (clock st) = false
  /\ skip_parameter (deci st) = (-1)%Z
  /\ feature_buf (bufs st) = []
  /\ gnss_meas_buf (bufs st) = [].

(** An estimator past its initialisation ([NON_LINEAR]) that reports a fixed
    window state: position (1,2,3), velocity (0,0,1), last acceleration
    (0,0,2). *)
Definition running_view (td0 : Q) : EstView :=
  mkView td0 vzero NON_LINEAR (mkV 1 2 3) qidentity (mkV 0 0 1) vzero vzero
         (mkV 0 0 2) vzero.

Definition running_env (gnss : bool) (td0 : Q) : Env :=
  mkEnv gnss true 0 small_angle week_seconds (fun t => t) week_seconds week_seconds
        (fun _ => running_view td0).












(** The ephemeris and ionosphere calls of a trace, and the calls the
    ephemeris and ionosphere messages of a run ask for. *)
Definition is_aux_call (c : EstCall) : bool :=
  match c with
  | inputEphem _ | inputIonoParams _ _ => true
  | _ => false
  end.

Fixpoint aux_messages (evs : list Event) : list EstCall :=
  match evs with
  | [] => []
  | EvEphem e :: evs => inputEphem e :: aux_messages evs
  | EvIono ts data :: evs => inputIonoParams ts data :: aux_messages evs
  | _ :: evs => aux_messages evs
  end.

(** The epochs handed to [processGNSS], and the epochs that arrived. *)
Fixpoint gnss_epochs (calls : list EstCall) : list Epoch :=
  match calls with
  | [] => []
  | processGNSS e :: calls => e :: gnss_epochs calls
  | _ :: calls => gnss_epochs calls
  end.

Fixpoint arrived_epochs (evs : list Event) : list Epoch :=
  match evs with
  | [] => []
  | EvGnssMeas e :: evs => e :: arrived_epochs evs
  | _ :: evs => arrived_epochs evs
  end.

(** The epoch a bundle hands to [processGNSS], if any. *)
Definition paired (E : Env) (r : option Bundle) : list Epoch :=
  match r with
  | Some B => if GNSS_ENABLE E && negb (empty (gnss_msg B)) then [gnss_msg B] else []
  | None => []
  end.


(** ** The feature map of a frame ([process], lines 497-514)

    [process_bundle] hands [processImage] the frame; [decode] is the map the
    source builds from the frame just before that call. *)

(** What ends the decoding of a frame: reading [channels[k].values[i]] past
    the end, a [double] that does not fit [int], an undefined [int]
    division, and the failure of [ROS_ASSERT(z == 1)]. *)
Inductive DecodeFault :=
| ChannelIndexOutOfRange
| IntOutOfRange
| IntDivision
| DepthNotOne.

Definition decoding (A : Type) : Type := (DecodeFault + A)%type.

Definition dbind {A B : Type} (m : decoding A) (k : A -> decoding B) : decoding B :=
  match m with
  | inl e => inl e
  | inr a => k a
  end.

Notation "x <~ m ;; k" := (dbind m (fun x => k))
  (at level 61, m at next level, right associativity).

Definition INT_MIN : Z := (-2147483648)%Z.
Definition INT_MAX : Z := 2147483647%Z.

(** [int v = x]: the fraction is discarded; the conversion is undefined when
    the result does not fit. *)
Definition double_to_int (x : Q) : decoding Z :=
  let v := Z.quot (Qnum x) (Zpos (Qden x)) in
  if ((INT_MIN <=? v) && (v <=? INT_MAX))%Z then inr v else inl IntOutOfRange.

(** [Eigen::Matrix<double, 7, 1>], filled as
    [x, y, z, p_u, p_v, velocity_x, velocity_y]. *)
Record Vector7d := mkV7 {
  ob_x : Q; ob_y : Q; ob_z : Q;
  ob_p_u : Q; ob_p_v : Q;
  ob_velocity_x : Q; ob_velocity_y : Q
}.

(** [img_msg->channels[k].values[i]] *)
Definition channel_value (img_msg : PointCloud) (k i : nat) : decoding Q :=
  match nth_error (channels img_msg) k with
  | Some c =>
      match nth_error c i with
      | Some v => inr v
      | None => inl ChannelIndexOutOfRange
      end
  | None => inl ChannelIndexOutOfRange
  end.

(** The body of the loop for point [i]: the feature id and the pair
    [(camera_id, xyz_uv_velocity)]. *)
Definition decode_point (NUM_OF_CAM : Z) (img_msg : PointCloud) (i : nat)
           (p : Vector3d) : decoding (Z * (Z * Vector7d)) :=
  c0 <~ channel_value img_msg 0 i ;;
  v <~ double_to_int (c0 + 0.5) ;;
  if ((NUM_OF_CAM =? 0) || ((v =? INT_MIN) && (NUM_OF_CAM =? -1)))%Z
  then inl IntDivision
  else
    let feature_id := Z.quot v NUM_OF_CAM in
    let camera_id := Z.rem v NUM_OF_CAM in
    p_u <~ channel_value img_msg 1 i ;;
    p_v <~ channel_value img_msg 2 i ;;
    velocity_x <~ channel_value img_msg 3 i ;;
    velocity_y <~ channel_value img_msg 4 i ;;
    if Qeq_bool (vz p) 1
    then inr (feature_id,
              (camera_id, mkV7 (vx p) (vy p) (vz p) p_u p_v velocity_x velocity_y))
    else inl DepthNotOne.

(** [std::map<int, vector<pair<int, Matrix<double, 7, 1>>>>]: the entries in
    the order of the keys. *)
Definition FeatureMap : Type := list (Z * list (Z * Vector7d)).

(** [image[feature_id].emplace_back(camera_id, xyz_uv_velocity)] *)
Fixpoint emplace (feature_id : Z) (ob : Z * Vector7d) (image : FeatureMap)
  : FeatureMap :=
  match image with
  | [] => [(feature_id, [ob])]
  | (k, obs) :: rest =>
      if (feature_id <? k)%Z then (feature_id, [ob]) :: image
      else if (feature_id =? k)%Z then (k, obs ++ [ob]) :: rest
      else (k, obs) :: emplace feature_id ob rest
  end.

(** [image.find(feature_id)] *)
Fixpoint find_feature (feature_id : Z) (image : FeatureMap)
  : option (list (Z * Vector7d)) :=
  match image with
  | [] => None
  | (k, obs) :: rest =>
      if (feature_id =? k)%Z then Some obs else find_feature feature_id rest
  end.

(** The loop from point [i] on. *)
Fixpoint decode_points (NUM_OF_CAM : Z) (img_msg : PointCloud) (i : nat)
         (pts : list Vector3d) (image : FeatureMap) : decoding FeatureMap :=
  match pts with
  | [] => inr image
  | p :: pts =>
      e <~ decode_point NUM_OF_CAM img_msg i p ;;
      decode_points NUM_OF_CAM img_msg (S i) pts (emplace (fst e) (snd e) image)
  end.

(** Step 4 of [process]: the map handed to [processImage]. *)
Definition decode (NUM_OF_CAM : Z) (img_msg : PointCloud) : decoding FeatureMap :=
  decode_points NUM_OF_CAM img_msg 0 (points img_msg) [].

(** The observations of feature [id] among decoded points, in point order. *)
Definition observations_of (id : Z) (entries : list (Z * (Z * Vector7d)))
  : list (Z * Vector7d) :=
  map snd (filter (fun e => (id =? fst e)%Z) entries).

(** The number of observations held by a map. *)
Definition observation_count (image : FeatureMap) : nat :=
  list_sum (map (fun kv => List.length (snd kv)) image).

(** A frame of two features seen by two cameras, as the front end encodes
    it: channel 0 holds [id * NUM_OF_CAM + camera]. *)
Definition stereo_frame : PointCloud :=
  mkPointCloud 10
    [mkV 0.1 0.2 1; mkV 0.3 0.4 1; mkV 0.15 0.2 1]
    [[14; 6; 15]; [320; 100; 330]; [240; 50; 240]; [1; 0; 1]; [0; 2; 0]].


(** The map holds, for every feature, its observations in point order. *)
Definition holds (image : FeatureMap) (entries : list (Z * (Z * Vector7d))) : Prop :=
  StronglySorted Z.lt (map fst image)
  /\ (forall id, find_feature id image
                 = match observations_of id entries with
                   | [] => None
                   | obs => Some obs
                   end)
  /\ observation_count image = List.length entries.


(** ** The boundary of scenario 4 in binary64

    The two tests [getMeasurements] applies to the front epoch, on IEEE
    doubles: the epoch at 9.95 is not older than 10.00 - 0.05, and it is not
    within 0.05 of 10.00 either.  Exact arithmetic gives the same answers. *)
Module Binary64.
#[local] Set Warnings "-inexact-float".
#[local] Open Scope float_scope.

Definition older (t_gnss t_feat delta : float) : bool :=
  PrimFloat.ltb t_gnss (t_feat + delta - 0.05).
Definition near (t_gnss t_feat delta : float) : bool :=
  PrimFloat.ltb (PrimFloat.abs (t_gnss - (t_feat + delta))) 0.05.

Lemma scenario_4 :
  older (9 + 0.80) 10 0 = true
  /\ older (9 + 0.95) 10 0 = false
  /\ near (9 + 0.95) 10 0 = false
  /\ near (10 + 0.02) 10 0 = true.
Proof. repeat split; vm_compute; reflexivity. Qed.
End Binary64.

(** ** Basic facts *)

Lemma Qltb_lt (a b : Q) : Qltb a b = true <-> a < b.
Proof.
  unfold Qltb. rewrite negb_true_iff.
  split; intro H.
  - apply Qnot_le_lt. intro L. apply Qle_bool_iff in L. congruence.
  - destruct (Qle_bool b a) eqn:L; [|reflexivity].
    apply Qle_bool_iff in L. exfalso. apply (Qlt_not_le _ _ H L).
Qed.

Lemma Qltb_ge (a b : Q) : Qltb a b = false <-> b <= a.
Proof.
  unfold Qltb. rewrite negb_false_iff. apply Qle_bool_iff.
Qed.

Lemma bind_Ok {A B : Type} (m : outcome A) (k : A -> outcome B) (b : B) :
  bind m k = Ok b -> exists a, m = Ok a /\ k a = Ok b.
Proof.
  destruct m as [a|f]; simpl; intro H; [eauto | discriminate].
Qed.

Tactic Notation "bind_inv" hyp(H) "as" simple_intropattern(a) ident(Ha) :=
  apply bind_Ok in H; destruct H as (a & Ha & H).

Lemma front_Ok {A : Type} (q : list A) (a : A) :
  front q = Ok a -> exists q', q = a :: q'.
Proof.
  destruct q; simpl; intro H; [discriminate|]. injection H as ->. eauto.
Qed.

Lemma pop_Ok {A : Type} (q q' : list A) :
  pop q = Ok q' -> exists a, q = a :: q'.
Proof.
  destruct q; simpl; intro H; [discriminate|]. injection H as ->. eauto.
Qed.

(** ** The loops of the synchroniser *)

Lemma throw_img_front (front_imu_ts : Q) :
  forall fb ts0 ts fb' w,
    throw_img front_imu_ts ts0 fb = Ok (ts, fb', w) ->
    (forall f rest, fb = f :: rest -> pc_t f = ts0) ->
    forall f rest, fb' = f :: rest -> pc_t f = ts.
Proof.
  induction fb as [|f0 fb IH]; simpl; intros ts0 ts fb' w H H0 f rest Hfb'.
  - injection H as <- <- <-. discriminate.
  - destruct (Qltb ts0 front_imu_ts).
    + bind_inv H as f1 Hf1. apply front_Ok in Hf1 as [q' ->].
      bind_inv H as [[ts1 fb1] w1] Hrec. injection H as <- <- <-.
      eapply IH; eauto. intros f' rest' E'. injection E' as <- <-. reflexivity.
    + injection H as <- <- <-. eapply H0. eauto.
Qed.

Lemma throw_gnss_spec (bound : Q) :
  forall gb ts0 ts gb' w,
    throw_gnss bound ts0 gb = Ok (Some (ts, gb'), w) ->
    (forall g0 rest, gb = g0 :: rest -> epoch_time g0 = Ok ts0) ->
    exists dropped,
      gb = dropped ++ gb' /\ Forall (stale bound) dropped /\
      (forall g0 rest, gb' = g0 :: rest -> epoch_time g0 = Ok ts /\ ~ ts < bound).
Proof.
  induction gb as [|g0 gb IH]; simpl; intros ts0 ts gb' w H H0.
  - injection H as <- <- <-. exists []. repeat split; auto; discriminate.
  - destruct (Qltb ts0 bound) eqn:Hlt.
    + destruct gb as [|g1 gb]; [discriminate|].
      bind_inv H as ts1 Hts1. bind_inv H as [r w'] Hrec. injection H as -> <-.
      apply IH in Hrec as (dropped & Hd & Hs & Hf).
      * exists (g0 :: dropped). split; [simpl; congruence|]. split; auto.
        constructor; auto. exists ts0. split; [eauto|]. now apply Qltb_lt.
      * intros g' rest' E'. injection E' as <- <-. exact Hts1.
    + injection H as <- <- <-. exists []. split; [reflexivity|]. split; [constructor|].
      intros g' rest' E'. split; [eauto|]. apply Qltb_ge in Hlt. now apply Qle_not_lt.
Qed.

Lemma align_gnss_spec (T : Q) (gb : list Epoch) gm gb' w :
  align_gnss T gb = Ok (Some (gm, gb'), w) ->
  exists dropped g0 rest t,
    gb = dropped ++ g0 :: rest
    /\ Forall (stale (T - MAX_GNSS_CAMERA_DELAY)) dropped
    /\ epoch_time g0 = Ok t
    /\ ~ t < T - MAX_GNSS_CAMERA_DELAY
    /\ ((Qabs (t - T) < MAX_GNSS_CAMERA_DELAY /\ gm = g0 /\ gb' = rest)
        \/ (~ Qabs (t - T) < MAX_GNSS_CAMERA_DELAY /\ gm = [] /\ gb' = g0 :: rest)).
Proof.
  unfold align_gnss. intro H.
  bind_inv H as e0 He0. bind_inv H as t0 Ht0.
  bind_inv H as [[[ts gb1]|] w1] Hloop; [|discriminate].
  apply throw_gnss_spec in Hloop as (dropped & Hgb & Hst & Hfront).
  - destruct gb1 as [|g1 rest]; [discriminate|]. cbn [empty front pop bind] in H.
    destruct (Hfront g1 rest eq_refl) as [Ht Hnot].
    exists dropped, g1, rest, ts. repeat (split; [assumption|]).
    destruct (Qltb (Qabs (ts - T)) MAX_GNSS_CAMERA_DELAY) eqn:Hnear.
    + left. injection H as <- <- <-. split; [now apply Qltb_lt | auto].
    + right. injection H as <- <- <-. split; [|auto].
      apply Qltb_ge in Hnear. now apply Qle_not_lt.
  - intros g' rest' ->. simpl in He0. injection He0 as <-. exact Ht0.
Qed.

Lemma drain_imu_spec (bound : Q) :
  forall ib moved ib',
    drain_imu bound ib = Ok (moved, ib') ->
    ib = moved ++ ib'
    /\ Forall (fun s => imu_t s < bound) moved
    /\ exists s rest, ib' = s :: rest /\ bound <= imu_t s.
Proof.
  induction ib as [|s ib IH]; simpl; intros moved ib' H; [discriminate|].
  destruct (Qltb (imu_t s) bound) eqn:Hlt.
  - bind_inv H as [m1 ib1] Hrec. injection H as <- <-.
    apply IH in Hrec as (-> & Hm & Hs).
    split; [reflexivity|]. split; [|assumption].
    constructor; [now apply Qltb_lt | assumption].
  - injection H as <- <-. split; [reflexivity|]. split; [constructor|].
    exists s, ib. split; [reflexivity|]. now apply Qltb_ge.
Qed.

(** What a call of [getMeasurements] that returns [true] went through. *)
Lemma getMeasurements_Some (E : Env) (st st' : Node) (B : Bundle) :
  getMeasurements E st = Ok (Some B, st') ->
  exists ts fb' w1 gb' w2 moved s ib',
    (forall f rest, img_msg B :: fb' = f :: rest -> pc_t f = ts)
    /\ (if GNSS_ENABLE E
        then align_gnss (ts + time_diff_gnss_local (clock st)) (gnss_meas_buf (bufs st))
        else Ok (Some ([], gnss_meas_buf (bufs st)), []))
       = Ok (Some (gnss_msg B, gb'), w2)
    /\ drain_imu (pc_t (img_msg B) + td (view E st)) (imu_buf (bufs st))
       = Ok (moved, s :: ib')
    /\ imu_msg B = moved ++ [s]
    /\ exists w3, st' = emit (w1 ++ w2 ++ w3)
               (set_bufs (mkBuffers (s :: ib') fb' gb' (relo_buf (bufs st))) st).
Proof.
  unfold getMeasurements. intro H.
  destruct (empty (imu_buf (bufs st)) || empty (feature_buf (bufs st))
            || (GNSS_ENABLE E && empty (gnss_meas_buf (bufs st)))); [discriminate|].
  bind_inv H as f0 Hf0. bind_inv H as newest Hnewest.
  destruct (negb (Qltb (pc_t f0) (imu_t newest))); [discriminate|].
  bind_inv H as oldest Holdest. bind_inv H as [[ts fb] w1] Himg.
  bind_inv H as [[[gm gb]|] w2] Hgnss; [|discriminate].
  bind_inv H as img Hfront. bind_inv H as fb' Hpop.
  bind_inv H as [moved ib] Hdrain. bind_inv H as s Hs.
  injection H as <- <-. simpl.
  apply front_Ok in Hs as [ib' ->].
  apply pop_Ok in Hpop as [img' ->]. simpl in Hfront. injection Hfront as ->.
  apply front_Ok in Hf0 as [fq Hfq].
  exists ts, fb', w1, gb, w2, moved, s, ib'.
  split.
  { eapply throw_img_front; eauto.
    intros f rest Hf. rewrite Hfq in Hf. now injection Hf as <- <-. }
  repeat (split; [assumption || reflexivity|]).
  eexists. reflexivity.
Qed.

(** ** C1: GNSS alignment *)

(** C1, as amended.  For every bundle [getMeasurements] returns with GNSS
    enabled: the GNSS queue was a run of epochs older than
    [t_feat + delta - 0.05], all discarded, followed by a front epoch that is
    not; the bundle carries that epoch, popped from the queue, when
    [|t_gnss - (t_feat + delta)| < 0.05], and otherwise carries no GNSS and
    leaves the epoch in the queue.  In scenario 4 (offset 0, frame at 10.00,
    epochs 9.80, 9.95, 10.02) only 9.80 is discarded: 9.95 is not below
    10.00 - 0.05 and not within 0.05 of 10.00, so the frame is emitted
    without GNSS and 9.95 and 10.02 stay queued. *)
Theorem C1_gnss_alignment :
  (forall E st B st',
      GNSS_ENABLE E = true ->
      getMeasurements E st = Ok (Some B, st') ->
      let T := pc_t (img_msg B) + time_diff_gnss_local (clock st) in
      exists dropped g0 rest t,
        gnss_meas_buf (bufs st) = dropped ++ g0 :: rest
        /\ Forall (stale (T - 0.05)) dropped
        /\ epoch_time g0 = Ok t
        /\ ~ t < T - 0.05
        /\ ((Qabs (t - T) < 0.05
             /\ gnss_msg B = g0 /\ gnss_meas_buf (bufs st') = rest)
            \/ (~ Qabs (t - T) < 0.05
                /\ gnss_msg B = [] /\ gnss_meas_buf (bufs st') = g0 :: rest)))
  /\ (exists st',
         getMeasurements (test_env true 0) stale_gnss_state
         = Ok (Some (mkBundle [imu_at 9.9 0; imu_at 10.1 0] (frame_at 10.00) []), st')
         /\ gnss_meas_buf (bufs st') = [epoch_at 9 0.95; epoch_at 10 0.02]
         /\ feature_buf (bufs st') = []).
Proof.
  split.
  - intros E st B st' HE H T.
    apply getMeasurements_Some in H
      as (ts & fb' & w1 & gb' & w2 & moved & s & ib' & Hts & Hg & _ & _ & w3 & ->).
    rewrite HE in Hg. rewrite <- (Hts _ _ eq_refl) in Hg.
    apply align_gnss_spec in Hg as (dropped & g0 & rest & t & H1 & H2 & H3 & H4 & H5).
    exists dropped, g0, rest, t. simpl.
    repeat (split; [assumption|]). exact H5.
  - eexists. split; [vm_compute; reflexivity|]. split; reflexivity.
Qed.

Lemma C1_gnss_alignment_witness :
  GNSS_ENABLE (test_env true 0) = true
  /\ exists B st',
      getMeasurements (test_env true 0) stale_gnss_state = Ok (Some B, st')
      /\ exists dropped g0 rest t,
          gnss_meas_buf (bufs stale_gnss_state) = dropped ++ g0 :: rest
          /\ Forall (stale (pc_t (img_msg B) + 0 - 0.05)) dropped
          /\ epoch_time g0 = Ok t
          /\ ~ t < pc_t (img_msg B) + 0 - 0.05
          /\ ((Qabs (t - (pc_t (img_msg B) + 0)) < 0.05
               /\ gnss_msg B = g0 /\ gnss_meas_buf (bufs st') = rest)
              \/ (~ Qabs (t - (pc_t (img_msg B) + 0)) < 0.05
                  /\ gnss_msg B = [] /\ gnss_meas_buf (bufs st') = g0 :: rest)).
Proof.
  split; [reflexivity|].
  eexists. eexists. split; [vm_compute; reflexivity|].
  apply (proj1 C1_gnss_alignment (test_env true 0) stale_gnss_state); reflexivity.
Defined.

(** Scenario 4 as the claim words it fails: the bundle carries no GNSS epoch,
    9.95 is still the front of the GNSS queue and 10.02 is still queued. *)
Lemma C1_scenario_counterexample :
  exists B st',
    getMeasurements (test_env true 0) stale_gnss_state = Ok (Some B, st')
    /\ gnss_msg B = []
    /\ hd_error (gnss_meas_buf (bufs st')) = Some (epoch_at 9 0.95)
    /\ In (epoch_at 10 0.02) (gnss_meas_buf (bufs st')).
Proof.
  eexists. eexists. split; [vm_compute; reflexivity|].
  split; [reflexivity|]. split; [reflexivity|]. simpl. auto.
Qed.

(** ** C2: the IMU slice brackets the image *)

(** C2, as amended.  For every bundle [getMeasurements] returns: the last
    sample of the slice has a timestamp at or after [img.t + td], every
    earlier one is strictly before it (so the second-to-last, when there is
    one, is at or before it), the slice is a prefix of the IMU queue, and its
    last sample stays at the front of the queue: a frame is handed downstream
    only when the IMU queue holds a sample with [t_imu >= t_feat + td]. *)
Theorem C2_imu_slice_brackets_image (E : Env) (st st' : Node) (B : Bundle) :
  getMeasurements E st = Ok (Some B, st') ->
  let T := pc_t (img_msg B) + td (view E st) in
  exists moved s rest,
    imu_msg B = moved ++ [s]
    /\ T <= imu_t s
    /\ Forall (fun m => imu_t m < T) moved
    /\ (forall m, nth_error (rev (imu_msg B)) 1 = Some m -> imu_t m <= T)
    /\ imu_buf (bufs st) = moved ++ s :: rest
    /\ imu_buf (bufs st') = s :: rest.
Proof.
  intros H T.
  apply getMeasurements_Some in H
    as (ts & fb' & w1 & gb' & w2 & moved & s & ib' & _ & _ & Hd & Hm & w3 & ->).
  apply drain_imu_spec in Hd as (Hib & Hlt & s' & rest & Hs & Hge).
  injection Hs as <- <-.
  exists moved, s, ib'. repeat (split; [assumption|]).
  split; [|split; [assumption | reflexivity]].
  intros m Hn. rewrite Hm, rev_app_distr in Hn.
  change (nth_error (rev moved) 0 = Some m) in Hn.
  apply nth_error_In, in_rev in Hn. apply Qlt_le_weak.
  rewrite Forall_forall in Hlt. now apply Hlt.
Qed.

Lemma C2_imu_slice_witness :
  exists B st',
    getMeasurements (test_env false 0) straddle_state = Ok (Some B, st')
    /\ exists moved s rest,
        imu_msg B = moved ++ [s]
        /\ pc_t (img_msg B) + 0 <= imu_t s
        /\ Forall (fun m => imu_t m < pc_t (img_msg B) + 0) moved
        /\ (forall m, nth_error (rev (imu_msg B)) 1 = Some m ->
                      imu_t m <= pc_t (img_msg B) + 0)
        /\ imu_buf (bufs straddle_state) = moved ++ s :: rest
        /\ imu_buf (bufs st') = s :: rest.
Proof.
  eexists. eexists. split; [vm_compute; reflexivity|].
  apply (C2_imu_slice_brackets_image (test_env false 0) straddle_state); reflexivity.
Defined.

(** A frame is emitted although no sample of the IMU queue is later than
    [t_feat + td]: in the first state the frame left after the stale one has
    the stamp of the newest sample; in the second [td] is 0.5 and the newest
    sample is at [t_feat + td]. *)
Lemma C2_strictly_later_counterexample :
  (exists B st',
      getMeasurements (test_env false 0) late_frame_state = Ok (Some B, st')
      /\ img_msg B = frame_at 6
      /\ Forall (fun m => imu_t m <= pc_t (img_msg B)
                                     + td (view (test_env false 0) late_frame_state))
                (imu_buf (bufs late_frame_state)))
  /\ (exists B st',
         getMeasurements (test_env false 0.5) delayed_frame_state = Ok (Some B, st')
         /\ img_msg B = frame_at 1.5
         /\ Forall (fun m => imu_t m <= pc_t (img_msg B)
                                        + td (view (test_env false 0.5) delayed_frame_state))
                   (imu_buf (bufs delayed_frame_state))).
Proof.
  split; eexists; eexists; (split; [vm_compute; reflexivity|]);
    (split; [reflexivity|]); repeat constructor; vm_compute; discriminate.
Qed.

(** ** C3: interpolation of the straddling sample *)

(** C3, as amended.  A sample later than [img.t + td] is handed to
    [processIMU] with [dt_1 = img.t + td - current_time] and the
    measurements interpolated with the weights [w1 = dt_2/(dt_1+dt_2)] and
    [w2 = dt_1/(dt_1+dt_2)], [dt_2 = t - (img.t + td)].  On the first bundle
    after start-up, with IMU samples at 0.00, 0.01, 0.02 of accelerations
    (0,0,10), (0,0,10), (0,0,20), no rotation, a frame at 0.015 and [td = 0],
    the dispatcher makes exactly three [processIMU] calls: [dt = 0] for the
    first sample, [dt = 0.01] for the second, and the straddling call with
    [dt = 0.005] and acceleration (0,0,15); the straddling sample stays in
    the queue. *)
Theorem C3_straddle_interpolation :
  (forall E img_stamp imu_data rest d r st,
      let img_t := img_stamp + td (view E st) in
      let dt_1 := img_t - current_time st in
      let dt_2 := imu_t imu_data - img_t in
      let w1 := dt_2 / (dt_1 + dt_2) in
      let w2 := dt_1 / (dt_1 + dt_2) in
      let a' := vadd (vscale w1 d) (vscale w2 (linear_acceleration imu_data)) in
      let w' := vadd (vscale w1 r) (vscale w2 (angular_velocity imu_data)) in
      img_t < imu_t imu_data ->
      0 <= dt_1 ->
      process_imu E img_stamp (imu_data :: rest) d r st
      = process_imu E img_stamp rest a' w'
                    (call (processIMU dt_1 a' w') (set_current_time img_t st)))
  /\ (exists st',
         process (test_env false 0) straddle_state = Ok st'
         /\ Forall2 same_call (imu_calls (est_calls st'))
                    [processIMU 0 (mkV 0 0 10) vzero;
                     processIMU 0.01 (mkV 0 0 10) vzero;
                     processIMU 0.005 (mkV 0 0 15) vzero]
         /\ current_time st' == 0.015
         /\ imu_buf (bufs st') = [imu_at 0.02 20]).
Proof.
  split.
  - intros E img_stamp imu_data rest d r st img_t dt_1 dt_2 w1 w2 a' w' Hlt Hdt1.
    cbn [process_imu].
    fold img_t. 
    assert (Hle : Qle_bool (imu_t imu_data) img_t = false).
    { destruct (Qle_bool (imu_t imu_data) img_t) eqn:Hb; [|reflexivity].
      apply Qle_bool_iff in Hb. exfalso. apply (Qlt_not_le _ _ Hlt Hb). }
    rewrite Hle.
    assert (H1 : Qle_bool 0 dt_1 = true) by now apply Qle_bool_iff.
    assert (H2 : Qle_bool 0 dt_2 = true).
    { apply Qle_bool_iff. unfold dt_2. lra. }
    assert (H3 : Qltb 0 (dt_1 + dt_2) = true).
    { apply Qltb_lt. unfold dt_2 in *. lra. }
    cbn [current_time set_current_time].
    fold dt_1. fold dt_2. rewrite H1, H2, H3. reflexivity.
  - eexists. split; [vm_compute; reflexivity|].
    split; [|split; [vm_compute; reflexivity | reflexivity]].
    repeat constructor; vm_compute; reflexivity.
Qed.

Lemma C3_straddle_witness :
  0.015 + 0 < 0.02
  /\ 0 <= 0.015 + 0 - 0.01
  /\ process_imu (test_env false 0) 0.015 [imu_at 0.02 20] (mkV 0 0 10) vzero
                 (set_current_time 0.01 (main (test_env false 0)))
     = Ok (call (processIMU (0.015 + 0 - 0.01)
                   (vadd (vscale ((0.02 - (0.015 + 0)) / (0.015 + 0 - 0.01 + (0.02 - (0.015 + 0))))
                                 (mkV 0 0 10))
                         (vscale ((0.015 + 0 - 0.01) / (0.015 + 0 - 0.01 + (0.02 - (0.015 + 0))))
                                 (mkV 0 0 20)))
                   (vadd (vscale ((0.02 - (0.015 + 0)) / (0.015 + 0 - 0.01 + (0.02 - (0.015 + 0))))
                                 vzero)
                         (vscale ((0.015 + 0 - 0.01) / (0.015 + 0 - 0.01 + (0.02 - (0.015 + 0))))
                                 vzero)))
                (set_current_time (0.015 + 0)
                   (set_current_time 0.01 (main (test_env false 0))))).
Proof.
  split; [reflexivity|]. split; [discriminate|].
  apply (proj1 C3_straddle_interpolation (test_env false 0) 0.015 (imu_at 0.02 20) []
               (mkV 0 0 10) vzero (set_current_time 0.01 (main (test_env false 0)))).
  - reflexivity.
  - discriminate.
Defined.

(** Scenario 1 makes three [processIMU] calls, not two; the second is the
    one for the sample at 0.01, not the straddling one. *)
Lemma C3_call_count_counterexample :
  exists st',
    process (test_env false 0) straddle_state = Ok st'
    /\ List.length (imu_calls (est_calls st')) = 3%nat
    /\ Forall2 same_call (firstn 2 (imu_calls (est_calls st')))
               [processIMU 0 (mkV 0 0 10) vzero; processIMU 0.01 (mkV 0 0 10) vzero].
Proof.
  eexists. split; [vm_compute; reflexivity|]. split; [reflexivity|].
  repeat constructor; vm_compute; reflexivity.
Qed.

(** ** C4: feature decimation *)

Lemma uint64_wrap_parity (z : Z) : (uint64_wrap z mod 2 = z mod 2)%Z.
Proof.
  unfold uint64_wrap.
  change (2 ^ 64)%Z with (2 * 2 ^ 63)%Z.
  rewrite Z.rem_mul_r by lia.
  rewrite (Z.mul_comm 2), Z.mod_add by lia.
  apply Z.mod_mod. lia.
Qed.

Lemma uint64_wrap_bit (z : Z) : (0 <= z <= 1)%Z -> uint64_wrap z = z.
Proof. intro H. unfold uint64_wrap. apply Z.mod_small. lia. Qed.

(** [parity_state] is what the node reaches once the clock is calibrated,
    an epoch at [t0] has arrived and then a first frame at [t0]. *)
Lemma parity_state_reached :
  (exists st,
      run (test_env true 0) [EvGnssMeas (epoch_at 0 0); EvFeature (frame_at 0)]
          (calibrated 0 (main (test_env true 0))) = Ok st
      /\ deci st = deci (parity_state 0) /\ clock st = clock (parity_state 0)
      /\ feature_buf (bufs st) = [])
  /\ (exists st,
         run (test_env true 0) [EvGnssMeas (epoch_at 1 0); EvFeature (frame_at 1)]
             (calibrated 0 (main (test_env true 0))) = Ok st
         /\ deci st = deci (parity_state 1) /\ clock st = clock (parity_state 1)
         /\ feature_buf (bufs st) = []).
Proof.
  split; eexists; (split; [vm_compute; reflexivity|]); repeat split; reflexivity.
Qed.

(** The decimator state after [feature_callback], whatever happens to the queue. *)
Lemma feature_callback_deci (f : PointCloud) (st : Node) :
  let d := deci st in
  let c := uint64_wrap (feature_msg_counter d + 1) in
  deci (feature_callback f st) =
  if (skip_parameter d <? 0)%Z && time_diff_valid (clock st) then
    mkDeci (latest_gnss_time d) (pc_t f + time_diff_gnss_local (clock st)) c
           (if Qltb 0 (latest_gnss_time d) && Qltb 0 (tmp_last_feature_time d) then
              if Qltb (Qabs (tmp_last_feature_time d - latest_gnss_time d))
                      (Qabs (pc_t f + time_diff_gnss_local (clock st) - latest_gnss_time d))
              then (c mod 2)%Z else uint64_wrap (1 - c mod 2)
            else skip_parameter d)
  else mkDeci (latest_gnss_time d) (tmp_last_feature_time d) c (skip_parameter d).
Proof.
  intros d c. unfold feature_callback. fold d. fold c. cbn zeta.
  cbn [skip_parameter latest_gnss_time tmp_last_feature_time feature_msg_counter].
  match goal with
  | |- context [if ?b then set_bufs _ _ else _] => destruct b
  end; reflexivity.
Qed.

Lemma feature_callback_bufs (f : PointCloud) (st : Node) :
  let st' := feature_callback f st in
  let c := feature_msg_counter (deci st') in
  let skip := skip_parameter (deci st') in
  bufs st' = if (0 <=? skip)%Z && negb (c mod 2 =? skip)%Z
             then push_feature f (bufs st) else bufs st.
Proof.
  intros st' c skip. subst c skip st'.
  rewrite feature_callback_deci.
  unfold feature_callback. cbn zeta.
  cbn [skip_parameter latest_gnss_time tmp_last_feature_time feature_msg_counter].
  destruct ((skip_parameter (deci st) <? 0)%Z && time_diff_valid (clock st));
    cbn [skip_parameter latest_gnss_time tmp_last_feature_time feature_msg_counter];
    match goal with
    | |- context [if ?b then set_bufs _ _ else _] => destruct b
    end; reflexivity.
Qed.

Lemma next_parity (c skip : Z) :
  (0 <= skip <= 1)%Z ->
  negb ((uint64_wrap (uint64_wrap (c + 1) + 1) mod 2 =? skip)%Z)
  = negb (negb ((uint64_wrap (c + 1) mod 2 =? skip)%Z)).
Proof.
  intro H. rewrite !uint64_wrap_parity.
  rewrite Z.add_mod by lia. rewrite uint64_wrap_parity.
  rewrite <- Z.add_mod by lia.
  replace (c + 1 + 1)%Z with (c + 1 * 2)%Z by lia.
  rewrite Z.mod_add by lia.
  assert (Hc := Z.mod_pos_bound c 2 ltac:(lia)).
  assert (Hc1 : ((c + 1) mod 2 = 1 - c mod 2)%Z).
  { rewrite Z.add_mod by lia.
    assert (c mod 2 = 0 \/ c mod 2 = 1)%Z as [-> | ->] by lia; reflexivity. }
  rewrite Hc1.
  destruct (Z.eqb_spec (c mod 2) skip), (Z.eqb_spec (1 - c mod 2) skip);
    simpl; try reflexivity; lia.
Qed.

Lemma feed_decided : forall fs st,
  (0 <= skip_parameter (deci st) <= 1)%Z ->
  skip_parameter (deci (feed fs st)) = skip_parameter (deci st)
  /\ feature_buf (bufs (feed fs st))
     = feature_buf (bufs st)
       ++ every_other
            (negb ((uint64_wrap (feature_msg_counter (deci st) + 1) mod 2
                    =? skip_parameter (deci st))%Z)) fs.
Proof.
  induction fs as [|f fs IH]; intros st Hskip.
  - simpl. now rewrite app_nil_r.
  - change (feed (f :: fs) st) with (feed fs (feature_callback f st)).
    assert (Hd : deci (feature_callback f st)
                 = mkDeci (latest_gnss_time (deci st)) (tmp_last_feature_time (deci st))
                          (uint64_wrap (feature_msg_counter (deci st) + 1))
                          (skip_parameter (deci st))).
    { rewrite feature_callback_deci.
      destruct (Z.ltb_spec (skip_parameter (deci st)) 0); [lia|reflexivity]. }
    assert (Hb := feature_callback_bufs f st). cbv zeta in Hb.
    rewrite Hd in Hb. cbn [feature_msg_counter skip_parameter] in Hb.
    destruct (IH (feature_callback f st)) as [IH1 IH2].
    { rewrite Hd. exact Hskip. }
    rewrite IH1, IH2, Hd, Hb. cbn [feature_msg_counter skip_parameter].
    split; [reflexivity|].
    rewrite next_parity by exact Hskip.
    destruct (Z.leb_spec 0 (skip_parameter (deci st))); [|lia].
    cbn [andb every_other].
    destruct (negb (uint64_wrap (feature_msg_counter (deci st) + 1) mod 2
                    =? skip_parameter (deci st))%Z);
      cbn [negb every_other push_feature feature_buf].
    + now rewrite <- app_assoc.
    + reflexivity.
Qed.

(** C4, as amended.  Every arriving frame increments the counter (modulo
    2^64).  While the parity is undecided, the offset is valid and the last
    GNSS time and the previous aligned frame time are known, that is
    strictly positive, the callback sets [skip_parameter] to [counter mod 2]
    when [|t - t_gnss_last| > |t_prev - t_gnss_last|] and to
    [1 - counter mod 2] otherwise; when one of them is not known it stays
    undecided.  Once [skip_parameter >= 0] it no longer changes, and a frame
    is enqueued iff [skip_parameter >= 0] and [counter mod 2] differs from
    it, so that every other frame is kept from then on.  In scenario 2 as
    given (offset 0, previous frame and last GNSS epoch at 0.000) the times
    do not count as known: at the frame at 0.050 the parity stays undecided
    and the frame is dropped; when the epoch at 0.100 arrives before the
    frame at 0.100 the parity becomes 0 at that frame, which is kept, 0.150
    is dropped, 0.200 kept.  With the same scenario at positive times
    (previous frame and last epoch at 1.000, incoming frame at 1.050)
    [skip_parameter] becomes 0 at once, 1.050 is dropped, 1.100 kept, 1.150
    dropped. *)
Theorem C4_feature_decimation :
  (forall f st,
      feature_msg_counter (deci (feature_callback f st))
      = uint64_wrap (feature_msg_counter (deci st) + 1))
  /\ (forall f st,
         let c := uint64_wrap (feature_msg_counter (deci st) + 1) in
         let t := pc_t f + time_diff_gnss_local (clock st) in
         let t_gnss_last := latest_gnss_time (deci st) in
         let t_prev := tmp_last_feature_time (deci st) in
         let skip' := skip_parameter (deci (feature_callback f st)) in
         (skip_parameter (deci st) < 0)%Z ->
         time_diff_valid (clock st) = true ->
         0 < t_gnss_last -> 0 < t_prev ->
         (Qabs (t - t_gnss_last) > Qabs (t_prev - t_gnss_last) -> skip' = (c mod 2)%Z)
         /\ (~ Qabs (t - t_gnss_last) > Qabs (t_prev - t_gnss_last)
             -> skip' = (1 - c mod 2)%Z))
  /\ (forall f st,
         (skip_parameter (deci st) < 0)%Z ->
         time_diff_valid (clock st) = false
         \/ latest_gnss_time (deci st) <= 0 \/ tmp_last_feature_time (deci st) <= 0 ->
         skip_parameter (deci (feature_callback f st)) = skip_parameter (deci st))
  /\ (forall f st,
         (0 <= skip_parameter (deci st))%Z ->
         skip_parameter (deci (feature_callback f st)) = skip_parameter (deci st))
  /\ (forall f st,
         let st' := feature_callback f st in
         let c := feature_msg_counter (deci st') in
         let skip' := skip_parameter (deci st') in
         ((0 <= skip')%Z /\ (c mod 2)%Z <> skip'
          -> feature_buf (bufs st') = feature_buf (bufs st) ++ [f])
         /\ (~ ((0 <= skip')%Z /\ (c mod 2)%Z <> skip')
             -> feature_buf (bufs st') = feature_buf (bufs st)))
  /\ (forall fs st,
         (0 <= skip_parameter (deci st) <= 1)%Z ->
         feature_buf (bufs (feed fs st))
         = feature_buf (bufs st)
           ++ every_other
                (negb ((uint64_wrap (feature_msg_counter (deci st) + 1) mod 2
                        =? skip_parameter (deci st))%Z)) fs)
  /\ (let st' := feature_callback (frame_at 0.050) (parity_state 0) in
      skip_parameter (deci st') = (-1)%Z /\ feature_buf (bufs st') = [])
  /\ (exists st',
         run (test_env true 0) parity_run (calibrated 0 (main (test_env true 0))) = Ok st'
         /\ skip_parameter (deci st') = 0%Z
         /\ feature_buf (bufs st') = [frame_at 0.100; frame_at 0.200])
  /\ (let st' := feature_callback (frame_at 1.050) (parity_state 1) in
      skip_parameter (deci st') = 0%Z
      /\ feature_buf (bufs st') = []
      /\ feature_buf (bufs (feed [frame_at 1.100; frame_at 1.150; frame_at 1.200] st'))
         = [frame_at 1.100; frame_at 1.200]).
Proof.
  split; [|split; [|split; [|split; [|split; [|split; [|split; [|split]]]]]]].
  - intros f st. rewrite feature_callback_deci.
    destruct (_ && _); reflexivity.
  - intros f st c t t_gnss_last t_prev skip' Hneg Hvalid Hg Hp.
    subst skip'. rewrite feature_callback_deci.
    destruct (Z.ltb_spec (skip_parameter (deci st)) 0); [|lia].
    rewrite Hvalid. cbn [andb skip_parameter].
    fold t_gnss_last t_prev t c.
    apply Qltb_lt in Hg, Hp. rewrite Hg, Hp. cbn [andb].
    destruct (Qltb (Qabs (t_prev - t_gnss_last)) (Qabs (t - t_gnss_last))) eqn:Hcmp.
    + split; [reflexivity|]. intro Hn. exfalso. apply Hn. now apply Qltb_lt.
    + split.
      * intro Hgt. apply Qltb_lt in Hgt. congruence.
      * intros _. apply uint64_wrap_bit.
        assert (Hc := Z.mod_pos_bound c 2 ltac:(lia)). lia.
  - intros f st Hneg Hunknown. rewrite feature_callback_deci.
    destruct (_ && _) eqn:Hcond; [|reflexivity].
    apply andb_true_iff in Hcond as [_ Hvalid]. cbn [skip_parameter].
    destruct (Qltb 0 (latest_gnss_time (deci st))
              && Qltb 0 (tmp_last_feature_time (deci st))) eqn:Hknown; [|reflexivity].
    apply andb_true_iff in Hknown as [Hg Hp]. apply Qltb_lt in Hg, Hp.
    destruct Hunknown as [Hv | [Hle | Hle]]; [congruence | |]; exfalso.
    + apply (Qlt_not_le _ _ Hg Hle).
    + apply (Qlt_not_le _ _ Hp Hle).
  - intros f st Hpos. rewrite feature_callback_deci.
    destruct (Z.ltb_spec (skip_parameter (deci st)) 0); [lia|reflexivity].
  - intros f st st' c skip'. subst st' c skip'.
    rewrite (feature_callback_bufs f st).
    split.
    + intros [Hpos Hne].
      destruct (Z.leb_spec 0 (skip_parameter (deci (feature_callback f st)))); [|lia].
      destruct (Z.eqb_spec
                  (feature_msg_counter (deci (feature_callback f st)) mod 2)
                  (skip_parameter (deci (feature_callback f st)))); [contradiction|].
      reflexivity.
    + intro Hn.
      destruct (Z.leb_spec 0 (skip_parameter (deci (feature_callback f st))));
        [|reflexivity].
      destruct (Z.eqb_spec
                  (feature_msg_counter (deci (feature_callback f st)) mod 2)
                  (skip_parameter (deci (feature_callback f st)))); [reflexivity|].
      exfalso. apply Hn. split; assumption.
  - intros fs st H. now apply feed_decided.
  - split; reflexivity.
  - eexists. split; [vm_compute; reflexivity|]. split; reflexivity.
  - repeat split; reflexivity.
Qed.

Lemma C4_feature_decimation_witness :
  (skip_parameter (deci (parity_state 1)) < 0)%Z
  /\ time_diff_valid (clock (parity_state 1)) = true
  /\ 0 < latest_gnss_time (deci (parity_state 1))
  /\ 0 < tmp_last_feature_time (deci (parity_state 1))
  /\ (Qabs (pc_t (frame_at 1.050) + time_diff_gnss_local (clock (parity_state 1))
            - latest_gnss_time (deci (parity_state 1)))
      > Qabs (tmp_last_feature_time (deci (parity_state 1))
              - latest_gnss_time (deci (parity_state 1))) ->
      skip_parameter (deci (feature_callback (frame_at 1.050) (parity_state 1)))
      = (uint64_wrap (feature_msg_counter (deci (parity_state 1)) + 1) mod 2)%Z).
Proof.
  split; [reflexivity|]. split; [reflexivity|].
  split; [reflexivity|]. split; [reflexivity|].
  apply (proj1 (proj2 C4_feature_decimation) (frame_at 1.050) (parity_state 1));
    reflexivity.
Defined.

(** Scenario 2 as the claim words it: the counter is 1, the offset is valid
    and 0, the previous frame and the last GNSS epoch are at 0.000; after
    the frame at 0.050 the parity is still undecided. *)
Lemma C4_scenario_counterexample :
  feature_msg_counter (deci (parity_state 0)) = 1%Z
  /\ time_diff_valid (clock (parity_state 0)) = true
  /\ time_diff_gnss_local (clock (parity_state 0)) = 0
  /\ tmp_last_feature_time (deci (parity_state 0)) = 0
  /\ latest_gnss_time (deci (parity_state 0)) = 0
  /\ feature_msg_counter (deci (feature_callback (frame_at 0.050) (parity_state 0)))
     = 2%Z
  /\ skip_parameter (deci (feature_callback (frame_at 0.050) (parity_state 0)))
     = (-1)%Z.
Proof. repeat split; reflexivity. Qed.

(** ** C5: restart *)

(** C5, as amended.  On a restart message with [data = true]: the IMU and
    feature queues are emptied and the GNSS queue is left as it is; the node
    holds no ephemeris of its own, and the only calls it makes to the
    estimator are [clearState] then [setParameter], after whatever was
    forwarded before; [current_time] becomes -1 and [last_imu_t] becomes 0;
    the clock calibration and the decimator are unchanged; the mechaniser is
    unchanged too, its flag [init_imu] included, so when a sample had been
    integrated before the restart the next IMU sample is integrated by
    [predict] from the state before the restart instead of initialising it
    again.  A message with [data = false] changes nothing.  After a restart
    [getMeasurements] returns false until new messages arrive. *)
Theorem C5_restart :
  (forall st,
      let st' := restart_callback true st in
      imu_buf (bufs st') = []
      /\ feature_buf (bufs st') = []
      /\ gnss_meas_buf (bufs st') = gnss_meas_buf (bufs st)
      /\ relo_buf (bufs st') = relo_buf (bufs st)
      /\ est_calls st' = est_calls st ++ [clearState; setParameter]
      /\ current_time st' = -1
      /\ last_imu_t st' = 0
      /\ mech st' = mech st
      /\ clock st' = clock st
      /\ deci st' = deci st)
  /\ (forall st, restart_callback false st = st)
  /\ (forall E st,
         getMeasurements E (restart_callback true st)
         = Ok (None, restart_callback true st))
  /\ (forall E m st,
         init_imu (mech st) = false ->
         0 < imu_t m ->
         mech (imu_callback E m (restart_callback true st))
         = predict E (g (estimator E (est_calls st ++ [clearState; setParameter])))
                   m (mech st)
         /\ latest_time (mech (imu_callback E m (restart_callback true st))) = imu_t m)
  /\ (let st' := restart_callback true mid_stream_state in
      List.length (imu_buf (bufs mid_stream_state)) = 5%nat
      /\ List.length (feature_buf (bufs mid_stream_state)) = 2%nat
      /\ imu_buf (bufs st') = []
      /\ feature_buf (bufs st') = []
      /\ gnss_meas_buf (bufs st') = [epoch_at 2 0.5]
      /\ est_calls st'
         = [setParameter; inputEphem (BroadcastEphem 7); clearState; setParameter]).
Proof.
  split; [|split; [|split; [|split]]].
  - intro st. cbv zeta. unfold restart_callback. simpl.
    rewrite <- app_assoc. repeat split; reflexivity.
  - reflexivity.
  - intros E st. reflexivity.
  - intros E m st Hinit Hpos.
    assert (Hle : Qle_bool (imu_t m) (last_imu_t (restart_callback true st)) = false).
    { destruct (Qle_bool (imu_t m) (last_imu_t (restart_callback true st))) eqn:Hb;
        [|reflexivity].
      apply Qle_bool_iff in Hb. exfalso. apply (Qlt_not_le _ _ Hpos Hb). }
    unfold imu_callback. rewrite Hle. cbv zeta.
    assert (Hm : forall s, mech (match solver_flag (view E s) with
                                 | NON_LINEAR => emit [pubLatestOdometry (tmp_P (mech s)) (tmp_Q (mech s)) (tmp_V (mech s)) (imu_t m)] s
                                 | INITIAL => s end) = mech s).
    { intro s. destruct (solver_flag (view E s)); reflexivity. }
    rewrite Hm. unfold restart_callback, view. simpl. rewrite <- app_assoc. simpl.
    split; [reflexivity|].
    unfold predict. rewrite Hinit. reflexivity.
  - cbv zeta. repeat split; reflexivity.
Qed.

Lemma C5_restart_witness :
  init_imu (mech after_first_imu) = false
  /\ 0 < imu_t (imu_at 2 1)
  /\ (mech (imu_callback (test_env false 0) (imu_at 2 1)
                         (restart_callback true after_first_imu))
      = predict (test_env false 0)
                (g (estimator (test_env false 0)
                              (est_calls after_first_imu ++ [clearState; setParameter])))
                (imu_at 2 1) (mech after_first_imu)
      /\ latest_time (mech (imu_callback (test_env false 0) (imu_at 2 1)
                                         (restart_callback true after_first_imu)))
         = imu_t (imu_at 2 1)).
Proof.
  split; [reflexivity|]. split; [reflexivity|].
  apply (proj1 (proj2 (proj2 (proj2 C5_restart))) (test_env false 0) (imu_at 2 1)
               after_first_imu); reflexivity.
Defined.

(** After a restart [init_imu] is still [false] (the mechaniser still counts
    as initialised), and the next sample is integrated over the second since
    the sample before the restart: the velocity changes from 0 to 0.5. *)
Lemma C5_initialized_flag_counterexample :
  init_imu (mech after_first_imu) = false
  /\ init_imu (mech (restart_callback true after_first_imu)) = false
  /\ vz (tmp_V (mech (restart_callback true after_first_imu))) == 0
  /\ vz (tmp_V (mech (imu_callback (test_env false 0) (imu_at 2 1)
                                   (restart_callback true after_first_imu)))) == 0.5.
Proof. repeat split; vm_compute; reflexivity. Qed.


(** ** C6: clock calibration *)

(** C6, as amended.  For every trigger with local time [t_local]: when a
    pulse time is recorded ([next_pulse_time_valid]), the offset becomes
    [next_pulse_time - t_local], [time_diff_valid] becomes true and the
    offset is passed to the estimator ([inputGNSSTimeDiff]).  The pulse is
    not consumed: [next_pulse_time_valid] stays true, so a second trigger
    before the next pulse computes the offset again from the same pulse time
    and its own local time, and publishes it again.  A trigger while no pulse
    has been recorded changes nothing.  A pulse of a known time system
    records its time and leaves the offset and its validity as they are. *)
Theorem C6_trigger :
  (forall t_local st,
      next_pulse_time_valid (clock st) = true ->
      let st' := local_trigger_info_callback t_local st in
      let d := next_pulse_time (clock st) - t_local in
      time_diff_gnss_local (clock st') = d
      /\ time_diff_valid (clock st') = true
      /\ est_calls st' = est_calls st ++ [inputGNSSTimeDiff d]
      /\ next_pulse_time_valid (clock st') = true
      /\ next_pulse_time (clock st') = next_pulse_time (clock st))
  /\ (forall t1 t2 st,
         next_pulse_time_valid (clock st) = true ->
         let st'' := local_trigger_info_callback t2 (local_trigger_info_callback t1 st) in
         time_diff_gnss_local (clock st'') = next_pulse_time (clock st) - t2
         /\ est_calls st''
            = est_calls st ++ [inputGNSSTimeDiff (next_pulse_time (clock st) - t1);
                               inputGNSSTimeDiff (next_pulse_time (clock st) - t2)])
  /\ (forall t_local st,
         next_pulse_time_valid (clock st) = false ->
         local_trigger_info_callback t_local st = st)
  /\ (forall E tp st,
         time_sys tp <> SYS_NONE \/ utc_based tp = true ->
         let st' := gnss_tp_info_callback E tp st in
         next_pulse_time_valid (clock st') = true
         /\ time_diff_gnss_local (clock st') = time_diff_gnss_local (clock st)
         /\ time_diff_valid (clock st') = time_diff_valid (clock st)
         /\ (time_sys tp = SYS_GPS -> utc_based tp = false ->
             next_pulse_time (clock st')
             = time2sec (gpst2time E (tp_week tp) (tp_tow tp)))).
Proof.
  split; [|split; [|split]].
  - intros t_local st Hv st' d. subst st' d.
    unfold local_trigger_info_callback. rewrite Hv.
    destruct (time_diff_valid (clock st)); simpl; repeat split; reflexivity.
  - intros t1 t2 st Hv st''. subst st''.
    unfold local_trigger_info_callback at 2. rewrite Hv.
    unfold local_trigger_info_callback.
    destruct (time_diff_valid (clock st)); simpl; rewrite Hv; simpl;
      rewrite <- app_assoc; split; reflexivity.
  - intros t_local st Hv. unfold local_trigger_info_callback. now rewrite Hv.
  - intros E tp st Hsys st'. subst st'. unfold gnss_tp_info_callback.
    destruct (utc_based tp) eqn:Hutc, (time_sys tp) eqn:Hs; simpl;
      repeat split; try reflexivity; try discriminate;
        destruct Hsys; congruence.
Qed.

Lemma C6_trigger_witness :
  next_pulse_time_valid (clock pulse_pending_state) = true
  /\ time_diff_gnss_local (clock (local_trigger_info_callback 40 pulse_pending_state))
     = next_pulse_time (clock pulse_pending_state) - 40
  /\ time_diff_valid (clock (local_trigger_info_callback 40 pulse_pending_state)) = true
  /\ est_calls (local_trigger_info_callback 40 pulse_pending_state)
     = est_calls pulse_pending_state
       ++ [inputGNSSTimeDiff (next_pulse_time (clock pulse_pending_state) - 40)]
  /\ next_pulse_time_valid (clock (local_trigger_info_callback 40 pulse_pending_state))
     = true
  /\ next_pulse_time (clock (local_trigger_info_callback 40 pulse_pending_state))
     = next_pulse_time (clock pulse_pending_state).
Proof.
  split; [reflexivity|].
  apply (proj1 C6_trigger 40 pulse_pending_state). reflexivity.
Defined.

(** With a pulse at 100 pending, a trigger at 40 sets the offset to 60 and
    leaves the pulse pending; a second trigger at 41 sets it to 59. *)
Lemma C6_second_trigger_counterexample :
  next_pulse_time (clock pulse_pending_state) == 100
  /\ time_diff_gnss_local (clock (local_trigger_info_callback 40 pulse_pending_state))
     == 60
  /\ next_pulse_time_valid (clock (local_trigger_info_callback 40 pulse_pending_state))
     = true
  /\ time_diff_gnss_local
       (clock (local_trigger_info_callback 41
                 (local_trigger_info_callback 40 pulse_pending_state)))
     == 59.
Proof. repeat split; vm_compute; reflexivity. Qed.

(** ** C7: order of the IMU samples *)

(** *** What each step does to the IMU queue and to [last_imu_t] *)

Lemma imu_callback_drop (E : Env) (m : Imu) (st : Node) :
  imu_t m <= last_imu_t st ->
  imu_callback E m st = emit [ROS_WARN "imu message in disorder!"] st.
Proof.
  intro H. unfold imu_callback. apply Qle_bool_iff in H. now rewrite H.
Qed.

Lemma imu_callback_accept (E : Env) (m : Imu) (st : Node) :
  last_imu_t st < imu_t m ->
  imu_buf (bufs (imu_callback E m st)) = imu_buf (bufs st) ++ [m]
  /\ last_imu_t (imu_callback E m st) = imu_t m.
Proof.
  intro H. unfold imu_callback.
  destruct (Qle_bool (imu_t m) (last_imu_t st)) eqn:Hb.
  - apply Qle_bool_iff in Hb. exfalso. apply (Qlt_not_le _ _ H Hb).
  - cbv zeta. destruct (solver_flag _); split; reflexivity.
Qed.

Lemma getMeasurements_None (E : Env) (st st' : Node) :
  getMeasurements E st = Ok (None, st') ->
  last_imu_t st' = last_imu_t st /\ imu_buf (bufs st') = imu_buf (bufs st).
Proof.
  unfold getMeasurements. intro H.
  destruct (empty (imu_buf (bufs st)) || empty (feature_buf (bufs st))
            || (GNSS_ENABLE E && empty (gnss_meas_buf (bufs st)))).
  { injection H as <-. split; reflexivity. }
  bind_inv H as f0 Hf0. bind_inv H as newest Hnewest.
  destruct (negb (Qltb (pc_t f0) (imu_t newest))).
  { injection H as <-. split; reflexivity. }
  bind_inv H as oldest Holdest. bind_inv H as [[ts fb] w1] Himg.
  bind_inv H as [[[gm gb]|] w2] Hgnss.
  - bind_inv H as img Hfront. bind_inv H as fb' Hpop.
    bind_inv H as [moved ib] Hdrain. bind_inv H as s Hs. discriminate.
  - injection H as <-. split; reflexivity.
Qed.

Lemma process_imu_frame (E : Env) (img_stamp : Q) :
  forall samples d r st st',
    process_imu E img_stamp samples d r st = Ok st' ->
    bufs st' = bufs st /\ last_imu_t st' = last_imu_t st /\ mech st' = mech st
    /\ clock st' = clock st /\ deci st' = deci st.
Proof.
  induction samples as [|m rest IH]; intros d r st st' H.
  - injection H as <-. repeat split; reflexivity.
  - cbn [process_imu] in H.
    destruct (Qle_bool (imu_t m) (img_stamp + td (view E st))).
    + bind_inv H as u Hu. apply IH in H.
      destruct (Qltb (current_time st) 0); exact H.
    + bind_inv H as u1 Hu1. bind_inv H as u2 Hu2. bind_inv H as u3 Hu3.
      apply IH in H. exact H.
Qed.

Lemma process_frame (E : Env) (st st' : Node) :
  process E st = Ok st' ->
  last_imu_t st' = last_imu_t st
  /\ exists gone, imu_buf (bufs st) = gone ++ imu_buf (bufs st').
Proof.
  unfold process. intro H. bind_inv H as [[B|] st1] Hget.
  - apply getMeasurements_Some in Hget
      as (ts & fb' & w1 & gb' & w2 & moved & s & ib' & _ & _ & Hd & _ & w3 & ->).
    apply drain_imu_spec in Hd as (Hib & _).
    unfold process_bundle in H. bind_inv H as st2 Himu.
    apply process_imu_frame in Himu as (Hb & Hl & _).
    assert (Hfin : bufs st' = bufs st2 /\ last_imu_t st' = last_imu_t st2).
    { destruct (GNSS_ENABLE E && negb (empty (gnss_msg B)));
        destruct (solver_flag _); injection H as <-; split; reflexivity. }
    destruct Hfin as [Hb' Hl']. rewrite Hl', Hl, Hb', Hb. simpl.
    split; [reflexivity|]. exists moved. exact Hib.
  - injection H as <-. apply getMeasurements_None in Hget as [Hl Hb].
    split; [assumption|]. exists []. now rewrite Hb.
Qed.

Lemma step_frame (E : Env) (ev : Event) (st st' : Node) :
  step E ev st = Ok st' ->
  match ev with
  | EvImu m =>
      (imu_t m <= last_imu_t st
       /\ imu_buf (bufs st') = imu_buf (bufs st) /\ last_imu_t st' = last_imu_t st)
      \/ (last_imu_t st < imu_t m
          /\ imu_buf (bufs st') = imu_buf (bufs st) ++ [m] /\ last_imu_t st' = imu_t m)
  | EvRestart true => imu_buf (bufs st') = [] /\ last_imu_t st' = 0
  | _ =>
      last_imu_t st' = last_imu_t st
      /\ exists gone, imu_buf (bufs st) = gone ++ imu_buf (bufs st')
  end.
Proof.
  assert (Hsame : forall s, last_imu_t s = last_imu_t st ->
                            imu_buf (bufs s) = imu_buf (bufs st) ->
                            last_imu_t s = last_imu_t st
                            /\ exists gone, imu_buf (bufs st) = gone ++ imu_buf (bufs s)).
  { intros s Hl Hb. split; [assumption|]. exists []. now rewrite Hb. }
  destruct ev as [m|f|e|e|ts data|t|tp|[|]|]; cbn [step]; intro H.
  - injection H as <-.
    destruct (Qlt_le_dec (last_imu_t st) (imu_t m)) as [Hlt|Hle].
    + right. split; [assumption|]. now apply imu_callback_accept.
    + left. split; [assumption|]. rewrite imu_callback_drop by assumption.
      split; reflexivity.
  - injection H as <-. split.
    + unfold feature_callback. cbv zeta. destruct (_ && _); reflexivity.
    + assert (Hb := feature_callback_bufs f st). cbv zeta in Hb.
      exists []. rewrite Hb. destruct (_ && _); reflexivity.
  - destruct (GNSS_ENABLE E); [|injection H as <-; now apply Hsame].
    unfold gnss_meas_callback in H. bind_inv H as ts Hts.
    cbv zeta in H. destruct (negb _); injection H as <-; now apply Hsame.
  - destruct (GNSS_ENABLE E); injection H as <-; now apply Hsame.
  - destruct (GNSS_ENABLE E); [|injection H as <-; now apply Hsame].
    unfold gnss_iono_params_callback in H. bind_inv H as u Hu.
    injection H as <-. now apply Hsame.
  - destruct (GNSS_ENABLE E && GNSS_LOCAL_ONLINE_SYNC E);
      [|injection H as <-; now apply Hsame].
    injection H as <-. unfold local_trigger_info_callback.
    destruct (next_pulse_time_valid (clock st)); [|now apply Hsame].
    destruct (negb (time_diff_valid (clock st))); now apply Hsame.
  - destruct (GNSS_ENABLE E && GNSS_LOCAL_ONLINE_SYNC E);
      [|injection H as <-; now apply Hsame].
    injection H as <-. unfold gnss_tp_info_callback. cbv zeta.
    match goal with |- context [match ?c with Some _ => _ | None => _ end] =>
      destruct c end; now apply Hsame.
  - injection H as <-. split; reflexivity.
  - injection H as <-. now apply Hsame.
  - now apply (process_frame E).
Qed.

Lemma increasing_suffix (l1 l2 : list Q) :
  increasing (l1 ++ l2) -> increasing l2.
Proof.
  induction l1 as [|t l1 IH]; simpl; [trivial|]. intros [_ H]. auto.
Qed.

Lemma increasing_snoc (l : list Q) (t : Q) :
  increasing l -> Forall (fun u => u < t) l -> increasing (l ++ [t]).
Proof.
  induction l as [|u l IH]; simpl; intros Hl Hf.
  - split; [constructor | exact I].
  - destruct Hl as [Hu Hl]. inversion Hf as [|? ? Hut Hf']; subst.
    split; [|auto]. apply Forall_app. split; [assumption|]. now constructor.
Qed.

Lemma skipn_length_app {A : Type} (l r : list A) :
  skipn (List.length l) (l ++ r) = r.
Proof. induction l; simpl; auto. Qed.

Lemma step_imu_buf_ok (E : Env) (ev : Event) (st st' : Node) :
  imu_buf_ok st -> step E ev st = Ok st' -> imu_buf_ok st'.
Proof.
  intros [Hinc Hle] H. apply step_frame in H. unfold imu_buf_ok.
  assert (Hsuffix : last_imu_t st' = last_imu_t st
                    /\ (exists gone, imu_buf (bufs st) = gone ++ imu_buf (bufs st'))
                    -> increasing (map imu_t (imu_buf (bufs st')))
                       /\ Forall (fun s => imu_t s <= last_imu_t st')
                                 (imu_buf (bufs st'))).
  { intros [Hl [gone Hg]]. rewrite Hg in Hinc, Hle. rewrite Hl. split.
    - rewrite map_app in Hinc. now apply increasing_suffix in Hinc.
    - now apply Forall_app in Hle. }
  destruct ev as [m|f|e|e|ts data|t|tp|[|]|]; try (now apply Hsuffix).
  - destruct H as [(_ & Hb & Hl) | (Hlt & Hb & Hl)].
    + rewrite Hb, Hl. now split.
    + rewrite Hb, Hl. split.
      * rewrite map_app. apply increasing_snoc; [assumption|].
        apply Forall_forall. intros u Hu. apply in_map_iff in Hu as (s & <- & Hs).
        rewrite Forall_forall in Hle. apply Qle_lt_trans with (last_imu_t st); auto.
      * apply Forall_app. split.
        -- eapply Forall_impl; [|exact Hle]. intros s Hs. simpl in Hs.
           apply Qle_trans with (last_imu_t st); [assumption|]. now apply Qlt_le_weak.
        -- constructor; [apply Qle_refl | constructor].
  - destruct H as [Hb Hl]. rewrite Hb. split; [exact I | constructor].
Qed.

Lemma run_imu_buf_ok (E : Env) :
  forall evs st st', imu_buf_ok st -> run E evs st = Ok st' -> imu_buf_ok st'.
Proof.
  induction evs as [|ev evs IH]; simpl; intros st st' Hok H.
  - now injection H as <-.
  - bind_inv H as st1 Hstep. eapply IH; [|exact H].
    eapply step_imu_buf_ok; eauto.
Qed.

(** Without restart [last_imu_t] never decreases, and what a step pushes is
    later than the old [last_imu_t] and not later than the new one. *)
Lemma step_pushes (E : Env) (ev : Event) (st st' : Node) :
  is_restart ev = false ->
  step E ev st = Ok st' ->
  last_imu_t st <= last_imu_t st'
  /\ forall m, ev = EvImu m ->
       skipn (List.length (imu_buf (bufs st))) (imu_buf (bufs st')) = []
       \/ (skipn (List.length (imu_buf (bufs st))) (imu_buf (bufs st')) = [m]
           /\ last_imu_t st < imu_t m /\ imu_t m <= last_imu_t st').
Proof.
  intros Hr H. apply step_frame in H.
  destruct ev as [m|f|e|e|ts data|t|tp|[|]|]; try discriminate Hr;
    try (destruct H as [-> _]; split; [apply Qle_refl | discriminate]).
  destruct H as [(_ & Hb & Hl) | (Hlt & Hb & Hl)]; rewrite Hb, Hl.
  - split; [apply Qle_refl|]. intros m' _. left. apply skipn_all.
  - split; [now apply Qlt_le_weak|]. intros m' Hm. injection Hm as <-.
    right. split; [apply skipn_length_app|]. split; [assumption | apply Qle_refl].
Qed.

Lemma enqueued_increasing (E : Env) :
  forall evs st,
    existsb is_restart evs = false ->
    Forall (fun s => last_imu_t st < imu_t s) (enqueued E evs st)
    /\ increasing (map imu_t (enqueued E evs st)).
Proof.
  induction evs as [|ev evs IH]; intros st Hr.
  - simpl. split; [constructor | exact I].
  - simpl in Hr. apply orb_false_iff in Hr as [Hev Hevs].
    cbn [enqueued]. destruct (step E ev st) as [st1|] eqn:Hstep;
      [|split; [constructor | exact I]].
    destruct (step_pushes E ev st st1 Hev Hstep) as [Hmono Hpush].
    destruct (IH st1 Hevs) as [IH1 IH2].
    assert (Hlater : Forall (fun s => last_imu_t st < imu_t s) (enqueued E evs st1)).
    { eapply Forall_impl; [|exact IH1]. intros s Hs. simpl in Hs.
      apply Qle_lt_trans with (last_imu_t st1); assumption. }
    destruct ev as [m|f|e|e|ts data|t|tp|b|]; try (split; assumption).
    destruct (Hpush m eq_refl) as [-> | (-> & Hlt & Hle)]; [split; assumption|].
    split.
    + constructor; assumption.
    + simpl. split; [|assumption].
      apply Forall_forall. intros u Hu. apply in_map_iff in Hu as (s & <- & Hs).
      rewrite Forall_forall in IH1. apply Qle_lt_trans with (last_imu_t st1); auto.
Qed.

(** C7, as amended.  For every call of [imu_callback]: a sample whose
    timestamp is at or before [last_imu_t] (the timestamp of the last
    accepted sample, until a restart sets it to 0) is dropped with a warning
    and leaves [last_imu_t], the queues and the mechaniser as they are; a
    later sample is pushed and becomes [last_imu_t].  Hence, whatever the
    events, the timestamps held in the IMU queue are strictly increasing and
    none is later than [last_imu_t]; and as long as no restart happens the
    timestamps of all samples ever pushed are strictly increasing.  After
    samples at 1.00 and 0.99 the second is dropped and [last_imu_t] is
    1.00. *)
Theorem C7_imu_order :
  (forall E m st,
      imu_t m <= last_imu_t st ->
      imu_callback E m st = emit [ROS_WARN "imu message in disorder!"] st
      /\ last_imu_t (imu_callback E m st) = last_imu_t st
      /\ bufs (imu_callback E m st) = bufs st
      /\ mech (imu_callback E m st) = mech st)
  /\ (forall E m st,
         last_imu_t st < imu_t m ->
         imu_buf (bufs (imu_callback E m st)) = imu_buf (bufs st) ++ [m]
         /\ last_imu_t (imu_callback E m st) = imu_t m)
  /\ (forall E, imu_buf_ok (main E))
  /\ (forall E evs st st',
         imu_buf_ok st -> run E evs st = Ok st' -> imu_buf_ok st')
  /\ (forall E evs st,
         existsb is_restart evs = false ->
         Forall (fun s => last_imu_t st < imu_t s) (enqueued E evs st)
         /\ increasing (map imu_t (enqueued E evs st)))
  /\ (exists st',
         run (test_env false 0) out_of_order_run (main (test_env false 0)) = Ok st'
         /\ last_imu_t st' = 1.00
         /\ imu_buf (bufs st') = [imu_at 1.00 0]
         /\ log st' = [ROS_WARN "imu message in disorder!"]).
Proof.
  split; [|split; [|split; [|split; [|split]]]].
  - intros E m st H. rewrite imu_callback_drop by assumption.
    repeat split; reflexivity.
  - intros E m st H. now apply imu_callback_accept.
  - intro E. split; [exact I | constructor].
  - intros E evs st st'. apply run_imu_buf_ok.
  - intros E evs st. apply enqueued_increasing.
  - eexists. split; [vm_compute; reflexivity|]. repeat split; reflexivity.
Qed.

Lemma C7_imu_order_witness :
  imu_t (imu_at 0.99 0) <= last_imu_t (imu_callback (test_env false 0) (imu_at 1.00 0)
                                                  (main (test_env false 0)))
  /\ last_imu_t (imu_callback (test_env false 0) (imu_at 0.99 0)
                   (imu_callback (test_env false 0) (imu_at 1.00 0)
                                 (main (test_env false 0))))
     = 1.00.
Proof.
  split; [discriminate|].
  refine (eq_trans
            (proj1 (proj2 (proj1 C7_imu_order (test_env false 0) (imu_at 0.99 0)
                                 (imu_callback (test_env false 0) (imu_at 1.00 0)
                                               (main (test_env false 0)))
                                 _)))
            eq_refl).
  discriminate.
Defined.

(** A sample at 5, a restart, a sample at 3: the sample at 3 is at or before
    the last accepted one and is pushed all the same, so the samples ever
    pushed are 5 then 3. *)
Lemma C7_restart_counterexample :
  exists st',
    run (test_env false 0) replay_run (main (test_env false 0)) = Ok st'
    /\ enqueued (test_env false 0) replay_run (main (test_env false 0))
       = [imu_at 5 0; imu_at 3 0]
    /\ imu_buf (bufs st') = [imu_at 3 0]
    /\ last_imu_t st' = 3.
Proof.
  eexists. split; [vm_compute; reflexivity|]. repeat split; reflexivity.
Qed.

(** ** C8: reads of the front of an empty queue *)

(** [wakeup_precondition] is the guard of [getMeasurements]: when it fails
    the call returns false at one of its first two tests, with the queues
    untouched. *)
Lemma wakeup_precondition_guard (E : Env) (st : Node) :
  wakeup_precondition E st = false ->
  exists st', getMeasurements E st = Ok (None, st') /\ bufs st' = bufs st.
Proof.
  unfold wakeup_precondition, getMeasurements. intro H.
  destruct (empty (imu_buf (bufs st))) eqn:Hi; [eexists; split; reflexivity|].
  destruct (empty (feature_buf (bufs st))) eqn:Hf; [eexists; split; reflexivity|].
  destruct (GNSS_ENABLE E && empty (gnss_meas_buf (bufs st))) eqn:Hg;
    [eexists; split; reflexivity|].
  cbn [negb andb orb] in *.
  assert (Hg' : negb (GNSS_ENABLE E) || negb (empty (gnss_meas_buf (bufs st))) = true).
  { destruct (GNSS_ENABLE E), (empty (gnss_meas_buf (bufs st))); auto. }
  rewrite Hg' in H. cbn [andb] in H.
  destruct (feature_buf (bufs st)) as [|f0 fb]; [discriminate|].
  cbn [front bind] in *.
  destruct (back (imu_buf (bufs st))) as [newest|] eqn:Hb.
  - cbn [bind]. rewrite H. cbn [negb]. eexists; split; reflexivity.
  - unfold back in Hb. destruct (imu_buf (bufs st)) as [|i ib]; [discriminate|].
    destruct (rev (i :: ib)) eqn:Hr; [|discriminate].
    apply (f_equal (@List.length _)) in Hr. rewrite length_rev in Hr. discriminate.
Qed.

(** C8: the claim fails on the code.  Two states satisfy the wait predicate
    (queues non-empty, newest IMU sample later than the oldest frame, GNSS
    disabled).  In the first the only frame is older than the oldest IMU
    sample: the loop that drops stale frames pops it and reads the front of
    the empty feature queue; the node reaches that state from start-up when
    a frame at 1 is followed by the first IMU sample at 5.  In the second the
    frame left after the stale one is later than every IMU sample: the loop
    that drains the IMU queue empties it and reads its front. *)
Theorem C8_front_of_empty_queue :
  run (test_env false 0) late_imu_run (main (test_env false 0))
  = Crash EmptyQueueAccess
  /\ wakeup_precondition (test_env false 0) only_stale_frames_state = true
  /\ throw_img 5 1 (feature_buf (bufs only_stale_frames_state))
     = Crash EmptyQueueAccess
  /\ getMeasurements (test_env false 0) only_stale_frames_state
     = Crash EmptyQueueAccess
  /\ wakeup_precondition (test_env false 0) frame_beyond_imu_state = true
  /\ throw_img 5 1 (feature_buf (bufs frame_beyond_imu_state))
     = Ok (7, [frame_at 7],
           [ROS_WARN "throw img, only should happen at the beginning"])
  /\ drain_imu (7 + 0) (imu_buf (bufs frame_beyond_imu_state))
     = Crash EmptyQueueAccess
  /\ getMeasurements (test_env false 0) frame_beyond_imu_state
     = Crash EmptyQueueAccess.
Proof. repeat split; vm_compute; reflexivity. Qed.

(** ** C9: a call that returns false, repeated *)

(** C9.  When [getMeasurements] returns false, calling it again at once
    returns false as well and leaves the four queues as the first call left
    them. *)
Theorem C9_false_is_idempotent (E : Env) (st st' : Node) :
  getMeasurements E st = Ok (None, st') ->
  exists st'', getMeasurements E st' = Ok (None, st'') /\ bufs st'' = bufs st'.
Proof.
  intro H. pose proof H as H0. unfold getMeasurements in H.
  destruct (empty (imu_buf (bufs st)) || empty (feature_buf (bufs st))
            || (GNSS_ENABLE E && empty (gnss_meas_buf (bufs st)))) eqn:Hempty.
  { injection H as <-. exists st. split; [exact H0 | reflexivity]. }
  bind_inv H as f0 Hf0. bind_inv H as newest Hnewest.
  destruct (negb (Qltb (pc_t f0) (imu_t newest))) eqn:Hwait.
  { injection H as <-.
    exists (set_sum_of_wait (sum_of_wait st + 1 + 1) st).
    split; [|reflexivity].
    unfold getMeasurements. cbn [bufs set_sum_of_wait sum_of_wait].
    rewrite Hempty, Hf0. cbn [bind]. rewrite Hnewest. cbn [bind].
    rewrite Hwait. reflexivity. }
  bind_inv H as oldest Holdest. bind_inv H as [[ts fb] w1] Himg.
  bind_inv H as [[[gm gb]|] w2] Hgnss.
  - bind_inv H as img Hfront. bind_inv H as fb' Hpop.
    bind_inv H as [moved ib] Hdrain. bind_inv H as s Hs. discriminate.
  - injection H as <-.
    destruct (GNSS_ENABLE E) eqn:HE; [|discriminate].
    eexists. split; [|reflexivity].
    unfold getMeasurements. cbn [bufs set_bufs emit gnss_meas_buf empty].
    rewrite HE. cbn [andb]. rewrite orb_true_r. reflexivity.
Qed.

Lemma C9_false_is_idempotent_witness :
  exists st',
    getMeasurements (test_env true 0) all_gnss_stale_state = Ok (None, st')
    /\ gnss_meas_buf (bufs st') = []
    /\ exists st'',
        getMeasurements (test_env true 0) st' = Ok (None, st'')
        /\ bufs st'' = bufs st'.
Proof.
  eexists. split; [vm_compute; reflexivity|]. split; [reflexivity|].
  apply (C9_false_is_idempotent (test_env true 0) all_gnss_stale_state).
  vm_compute. reflexivity.
Defined.

(** ** C10: the decimator sees epochs that were never queued *)

(** C10.  Every GNSS epoch that arrives sets [latest_gnss_time] to the time
    of its first observation, before the validity of the clock offset is
    tested: when the offset is not valid the epoch is not queued and nothing
    is passed to the estimator, when it is valid the epoch is queued.  And
    the parity decision can rest on such an epoch: in a run where the only
    epoch arrives before calibration, the GNSS queue is empty after every
    step and no epoch reaches the estimator, yet the decision taken at the
    second frame depends on the time of that epoch (parity 1 and frame kept
    for an epoch at 100.02, parity 0 and frame dropped for one at 99.99). *)
Theorem C10_parity_from_dropped_epoch :
  (forall o os st,
      exists st',
        gnss_meas_callback (o :: os) st = Ok st'
        /\ latest_gnss_time (deci st') = time2sec (obs_time o)
        /\ (time_diff_valid (clock st) = false ->
            bufs st' = bufs st /\ est_calls st' = est_calls st)
        /\ (time_diff_valid (clock st) = true ->
            gnss_meas_buf (bufs st') = gnss_meas_buf (bufs st) ++ [o :: os]))
  /\ (forall e n,
         e = epoch_at 100 0.02 \/ e = epoch_at 99 0.99 ->
         exists st',
           run (test_env true 0) (firstn n (dropped_epoch_run e)) (main (test_env true 0))
           = Ok st'
           /\ gnss_meas_buf (bufs st') = []
           /\ imu_calls (est_calls st') = []
           /\ Forall (fun c => match c with processGNSS _ => False | _ => True end)
                     (est_calls st'))
  /\ (exists st1 st2,
         run (test_env true 0) (dropped_epoch_run (epoch_at 100 0.02))
             (main (test_env true 0)) = Ok st1
         /\ run (test_env true 0) (dropped_epoch_run (epoch_at 99 0.99))
                (main (test_env true 0)) = Ok st2
         /\ skip_parameter (deci st1) = 1%Z
         /\ feature_buf (bufs st1) = [frame_at 50.03]
         /\ skip_parameter (deci st2) = 0%Z
         /\ feature_buf (bufs st2) = []).
Proof.
  split; [|split].
  - intros o os st. unfold gnss_meas_callback. cbn [epoch_time bind]. cbv zeta.
    cbn [clock set_deci].
    destruct (time_diff_valid (clock st)); cbn [negb]; eexists;
      (split; [reflexivity|]); (split; [reflexivity|]);
      split; intro H; try discriminate H; try reflexivity.
    split; reflexivity.
  - intros e n [-> | ->];
      do 6 (try destruct n as [|n]);
      (eexists; split; [vm_compute; reflexivity|];
       split; [reflexivity|]; split; [reflexivity|]; repeat constructor).
  - eexists. eexists. split; [vm_compute; reflexivity|].
    split; [vm_compute; reflexivity|]. repeat split; reflexivity.
Qed.

Lemma C10_parity_from_dropped_epoch_witness :
  time_diff_valid (clock (main (test_env true 0))) = false
  /\ exists st',
      gnss_meas_callback (epoch_at 100 0.02) (main (test_env true 0)) = Ok st'
      /\ latest_gnss_time (deci st') = time2sec (mkTime 100 0.02)
      /\ (time_diff_valid (clock (main (test_env true 0))) = false ->
          bufs st' = bufs (main (test_env true 0))
          /\ est_calls st' = est_calls (main (test_env true 0)))
      /\ (time_diff_valid (clock (main (test_env true 0))) = true ->
          gnss_meas_buf (bufs st')
          = gnss_meas_buf (bufs (main (test_env true 0))) ++ [epoch_at 100 0.02]).
Proof.
  split; [reflexivity|].
  exact (proj1 C10_parity_from_dropped_epoch (mkObs (mkTime 100 0.02) 1) []
               (main (test_env true 0))).
Defined.

(** ** Further properties: the synchroniser *)

Lemma throw_img_spec (front_imu_ts : Q) :
  forall fb ts0 ts fb' w,
    throw_img front_imu_ts ts0 fb = Ok (ts, fb', w) ->
    (forall f rest, fb = f :: rest -> pc_t f = ts0) ->
    exists dropped,
      fb = dropped ++ fb'
      /\ Forall (fun f => pc_t f < front_imu_ts) dropped
      /\ (forall f rest, fb' = f :: rest -> front_imu_ts <= pc_t f)
      /\ List.length w = List.length dropped.
Proof.
  induction fb as [|f0 fb IH]; simpl; intros ts0 ts fb' w H H0.
  - injection H as <- <- <-. exists []. repeat split; auto; discriminate.
  - destruct (Qltb ts0 front_imu_ts) eqn:Hlt.
    + bind_inv H as f1 Hf1. apply front_Ok in Hf1 as [q' ->].
      bind_inv H as [[ts1 fb1] w1] Hrec. injection H as <- <- <-.
      apply IH in Hrec as (dropped & Hd & Hs & Hf & Hw).
      * exists (f0 :: dropped). split; [simpl; congruence|]. split.
        -- constructor; auto. rewrite (H0 _ _ eq_refl). now apply Qltb_lt.
        -- split; [assumption | simpl; congruence].
      * intros f' rest' E'. injection E' as <- <-. reflexivity.
    + injection H as <- <- <-. exists []. split; [reflexivity|].
      split; [constructor|]. split; [|reflexivity].
      intros f' rest' E'. injection E' as <- <-.
      rewrite (H0 _ _ eq_refl). now apply Qltb_ge.
Qed.

Lemma throw_img_complete (front_imu_ts : Q) :
  forall dropped f rest ts0,
    Forall (fun x => pc_t x < front_imu_ts) dropped ->
    front_imu_ts <= pc_t f ->
    (forall x l, dropped ++ f :: rest = x :: l -> pc_t x = ts0) ->
    exists w, throw_img front_imu_ts ts0 (dropped ++ f :: rest) = Ok (pc_t f, f :: rest, w).
Proof.
  induction dropped as [|d dropped IH]; intros f rest ts0 Hd Hf H0.
  - simpl. rewrite <- (H0 _ _ eq_refl).
    apply Qltb_ge in Hf. rewrite Hf. eexists. reflexivity.
  - inversion Hd as [|? ? Hlt Hd']; subst.
    cbn [app throw_img]. rewrite <- (H0 _ _ eq_refl).
    apply Qltb_lt in Hlt. rewrite Hlt.
    destruct (IH f rest (pc_t (hd f (dropped ++ f :: rest))) Hd' Hf) as [w Hw].
    { intros x l Hx. rewrite Hx. reflexivity. }
    destruct (dropped ++ f :: rest) as [|x l] eqn:Hx.
    { destruct dropped; discriminate. }
    cbn [front bind hd] in *. rewrite Hw. cbn [bind]. eexists. reflexivity.
Qed.

Lemma drain_imu_complete (bound : Q) :
  forall ib,
    Exists (fun s => bound <= imu_t s) ib ->
    exists moved s rest, drain_imu bound ib = Ok (moved, s :: rest).
Proof.
  induction ib as [|s ib IH]; intro H; [inversion H|].
  simpl. destruct (Qltb (imu_t s) bound) eqn:Hlt.
  - inversion H as [? ? Hs | ? ? Hex]; subst.
    + apply Qltb_lt in Hlt. exfalso. apply (Qlt_not_le _ _ Hlt Hs).
    + destruct (IH Hex) as (moved & s' & rest & ->). cbn [bind]. eauto.
  - eauto.
Qed.

(** What a call of [getMeasurements] that returns [true] did to the feature
    queue. *)
Lemma getMeasurements_Some_frames (E : Env) (st st' : Node) (B : Bundle) :
  getMeasurements E st = Ok (Some B, st') ->
  exists oldest dropped rest,
    front (imu_buf (bufs st)) = Ok oldest
    /\ feature_buf (bufs st) = dropped ++ img_msg B :: rest
    /\ Forall (fun f => pc_t f < imu_t oldest) dropped
    /\ imu_t oldest <= pc_t (img_msg B)
    /\ feature_buf (bufs st') = rest.
Proof.
  unfold getMeasurements. intro H.
  destruct (empty (imu_buf (bufs st)) || empty (feature_buf (bufs st))
            || (GNSS_ENABLE E && empty (gnss_meas_buf (bufs st)))); [discriminate|].
  bind_inv H as f0 Hf0. bind_inv H as newest Hnewest.
  destruct (negb (Qltb (pc_t f0) (imu_t newest))); [discriminate|].
  bind_inv H as oldest Holdest. bind_inv H as [[ts fb] w1] Himg.
  bind_inv H as [[[gm gb]|] w2] Hgnss; [|discriminate].
  bind_inv H as img Hfront. bind_inv H as fb' Hpop.
  bind_inv H as [moved ib] Hdrain. bind_inv H as s Hs.
  injection H as <- <-. cbn [img_msg bufs emit set_bufs feature_buf].
  apply pop_Ok in Hpop as [img' ->]. simpl in Hfront. injection Hfront as ->.
  apply front_Ok in Hf0 as [fq Hfq].
  apply throw_img_spec in Himg as (dropped & Hd & Hstale & Hge & _).
  - exists oldest, dropped, fb'. repeat (split; [eauto|]). reflexivity.
  - intros f rest Hf. rewrite Hfq in Hf. now injection Hf as <- <-.
Qed.

(** X1. When [getMeasurements] returns a bundle, the frames it removed from
    the feature queue ahead of the bundle's frame are all older than the
    oldest IMU sample, the bundle's frame is not, and the frames behind it
    stay queued in their order. *)
Theorem X1_stale_frames_dropped (E : Env) (st st' : Node) (B : Bundle) :
  getMeasurements E st = Ok (Some B, st') ->
  exists oldest dropped rest,
    front (imu_buf (bufs st)) = Ok oldest
    /\ feature_buf (bufs st) = dropped ++ img_msg B :: rest
    /\ Forall (fun f => pc_t f < imu_t oldest) dropped
    /\ imu_t oldest <= pc_t (img_msg B)
    /\ feature_buf (bufs st') = rest.
Proof. apply getMeasurements_Some_frames. Qed.

Lemma X1_stale_frames_dropped_witness :
  exists B st',
    getMeasurements (test_env false 0) late_frame_state = Ok (Some B, st')
    /\ exists oldest dropped rest,
        front (imu_buf (bufs late_frame_state)) = Ok oldest
        /\ feature_buf (bufs late_frame_state) = dropped ++ img_msg B :: rest
        /\ Forall (fun f => pc_t f < imu_t oldest) dropped
        /\ imu_t oldest <= pc_t (img_msg B)
        /\ feature_buf (bufs st') = rest.
Proof.
  eexists. eexists. split; [vm_compute; reflexivity|].
  apply (X1_stale_frames_dropped (test_env false 0) late_frame_state). reflexivity.
Defined.

(** X2. With GNSS disabled [getMeasurements] returns a bundle whenever the
    wait predicate holds, [f] is the oldest frame that is not older than the
    oldest IMU sample, and some queued IMU sample is not earlier than the
    corrected time of [f]: the bundle's frame is [f], it carries no GNSS
    epoch, and the GNSS queue is left as it was. *)
Theorem X2_bundle_when_spanned (E : Env) (st : Node)
        (oldest : Imu) (ib : list Imu)
        (dropped : list PointCloud) (f : PointCloud) (rest : list PointCloud) :
  GNSS_ENABLE E = false ->
  wakeup_precondition E st = true ->
  imu_buf (bufs st) = oldest :: ib ->
  feature_buf (bufs st) = dropped ++ f :: rest ->
  Forall (fun x => pc_t x < imu_t oldest) dropped ->
  imu_t oldest <= pc_t f ->
  Exists (fun s => pc_t f + td (view E st) <= imu_t s) (imu_buf (bufs st)) ->
  exists B st',
    getMeasurements E st = Ok (Some B, st')
    /\ img_msg B = f
    /\ gnss_msg B = []
    /\ feature_buf (bufs st') = rest
    /\ gnss_meas_buf (bufs st') = gnss_meas_buf (bufs st).
Proof.
  intros HE Hpre Hib Hfb Hstale Hf Hex.
  unfold wakeup_precondition in Hpre. unfold getMeasurements.
  rewrite HE in *. cbn [negb andb orb] in *.
  rewrite Hib, Hfb in *. cbn [empty negb andb orb] in *.
  assert (Hne : empty (dropped ++ f :: rest) = false) by (destruct dropped; reflexivity).
  rewrite Hne in *. cbn [negb andb orb] in *.
  destruct (back (oldest :: ib)) as [newest|] eqn:Hback; [|discriminate].
  destruct (front (dropped ++ f :: rest)) as [f0|] eqn:Hfront; [|discriminate].
  cbn [bind front]. rewrite Hpre. cbn [negb].
  destruct (throw_img_complete (imu_t oldest) dropped f rest (pc_t f0) Hstale Hf)
    as [w Hw].
  { intros x l Hx. rewrite Hx in Hfront. now injection Hfront as ->. }
  rewrite Hw. cbn [bind front pop].
  destruct (drain_imu_complete _ _ Hex) as (moved & s & rest' & ->).
  cbn [bind front]. eexists. eexists. split; [reflexivity|].
  repeat split; reflexivity.
Qed.

Lemma X2_bundle_when_spanned_witness :
  GNSS_ENABLE (test_env false 0) = false
  /\ wakeup_precondition (test_env false 0) late_frame_state = true
  /\ exists B st',
      getMeasurements (test_env false 0) late_frame_state = Ok (Some B, st')
      /\ img_msg B = frame_at 6
      /\ gnss_msg B = []
      /\ feature_buf (bufs st') = []
      /\ gnss_meas_buf (bufs st') = gnss_meas_buf (bufs late_frame_state).
Proof.
  split; [reflexivity|]. split; [reflexivity|].
  apply (X2_bundle_when_spanned (test_env false 0) late_frame_state
           (imu_at 5 0) [imu_at 6 0] [frame_at 1] (frame_at 6) []).
  - reflexivity.
  - reflexivity.
  - reflexivity.
  - reflexivity.
  - constructor; [reflexivity | constructor].
  - discriminate.
  - apply Exists_cons_tl. apply Exists_cons_hd. discriminate.
Defined.

(** ** Further properties: what a step leaves alone *)

Lemma getMeasurements_rest (E : Env) (st st' : Node) (r : option Bundle) :
  getMeasurements E st = Ok (r, st') ->
  mech st' = mech st /\ clock st' = clock st /\ deci st' = deci st
  /\ current_time st' = current_time st /\ last_imu_t st' = last_imu_t st
  /\ est_calls st' = est_calls st
  /\ relo_buf (bufs st') = relo_buf (bufs st).
Proof.
  unfold getMeasurements. intro H.
  destruct (empty (imu_buf (bufs st)) || empty (feature_buf (bufs st))
            || (GNSS_ENABLE E && empty (gnss_meas_buf (bufs st)))).
  { injection H as <- <-. repeat split; reflexivity. }
  bind_inv H as f0 Hf0. bind_inv H as newest Hnewest.
  destruct (negb (Qltb (pc_t f0) (imu_t newest))).
  { injection H as <- <-. repeat split; reflexivity. }
  bind_inv H as oldest Holdest. bind_inv H as [[ts fb] w1] Himg.
  bind_inv H as [[[gm gb]|] w2] Hgnss.
  - bind_inv H as img Hfront. bind_inv H as fb' Hpop.
    bind_inv H as [moved ib] Hdrain. bind_inv H as s Hs.
    injection H as <- <-. repeat split; reflexivity.
  - injection H as <- <-. repeat split; reflexivity.
Qed.

Lemma process_imu_calls (E : Env) (img_stamp : Q) :
  forall samples d r st st',
    process_imu E img_stamp samples d r st = Ok st' ->
    exists new,
      est_calls st' = est_calls st ++ new
      /\ Forall (fun c => match c with processIMU _ _ _ => True | _ => False end) new
      /\ image_frames new = []
      /\ List.length new = List.length samples.
Proof.
  induction samples as [|m rest IH]; intros d r st st' H.
  - injection H as <-. exists []. rewrite app_nil_r. repeat split; constructor.
  - cbn [process_imu] in H.
    destruct (Qle_bool (imu_t m) (img_stamp + td (view E st))).
    + destruct (Qltb (current_time st) 0);
        bind_inv H as u Hu; apply IH in H as (new & Hn & Hf & Hi & Hl);
        (eexists (_ :: new); split;
         [rewrite Hn; cbn [est_calls call set_current_time];
          rewrite <- app_assoc; reflexivity
         |split; [constructor; [exact I | assumption]|];
          split; [exact Hi | simpl; congruence]]).
    + bind_inv H as u1 Hu1. bind_inv H as u2 Hu2. bind_inv H as u3 Hu3.
      apply IH in H as (new & Hn & Hf & Hi & Hl).
      eexists (_ :: new). split.
      * rewrite Hn. cbn [est_calls call set_current_time].
        rewrite <- app_assoc. reflexivity.
      * split; [constructor; [exact I | assumption]|].
        split; [exact Hi | simpl; congruence].
Qed.

(** [update] touches the mechaniser only. *)
Lemma process_bundle_rest (E : Env) (B : Bundle) (st st' : Node) :
  process_bundle E B st = Ok st' ->
  bufs st' = bufs st /\ clock st' = clock st /\ deci st' = deci st
  /\ last_imu_t st' = last_imu_t st
  /\ exists new,
      est_calls st' = est_calls st ++ new
      /\ Forall (may_call EvProcess) new
      /\ image_frames new = [img_msg B]
      /\ (GNSS_ENABLE E = false -> Forall (fun c => is_gnss_call c = false) new).
Proof.
  unfold process_bundle. intro H. bind_inv H as st1 Himu.
  pose proof (process_imu_frame _ _ _ _ _ _ _ Himu) as (Hb & Hl & Hm & Hc & Hd).
  apply process_imu_calls in Himu as (new & Hn & Hf0 & Hi & _).
  assert (Hnog : Forall (fun c => is_gnss_call c = false) new).
  { eapply Forall_impl; [|exact Hf0]. intros [] Hc'; try reflexivity; contradiction. }
  assert (Hf : Forall (may_call EvProcess) new).
  { eapply Forall_impl; [|exact Hf0]. intros [] Hc'; try exact I; contradiction. }
  set (st2 := if GNSS_ENABLE E && negb (empty (gnss_msg B))
              then call (processGNSS (gnss_msg B)) st1 else st1) in *.
  assert (H2 : bufs st2 = bufs st1 /\ clock st2 = clock st1 /\ deci st2 = deci st1
               /\ last_imu_t st2 = last_imu_t st1
               /\ exists g, est_calls st2 = est_calls st1 ++ g
                            /\ Forall (may_call EvProcess) g /\ image_frames g = []
                            /\ (GNSS_ENABLE E = false -> g = [])).
  { subst st2. destruct (GNSS_ENABLE E && negb (empty (gnss_msg B))) eqn:Hg.
    - repeat (split; [reflexivity|]). eexists [_]. split; [reflexivity|].
      split; [repeat constructor|]. split; [reflexivity|].
      intro HE. rewrite HE in Hg. discriminate.
    - repeat (split; [reflexivity|]). exists []. rewrite app_nil_r.
      repeat split; constructor. }
  destruct H2 as (Hb2 & Hc2 & Hd2 & Hl2 & g & Hg & Hgf & Hgi & Hge).
  assert (Hfin : bufs st' = bufs st2 /\ clock st' = clock st2 /\ deci st' = deci st2
                 /\ last_imu_t st' = last_imu_t st2
                 /\ est_calls st' = est_calls st2 ++ [processImage (img_msg B)]).
  { destruct (solver_flag _); injection H as <-; repeat split; reflexivity. }
  destruct Hfin as (Hb3 & Hc3 & Hd3 & Hl3 & Hcalls).
  rewrite Hb3, Hb2, Hb, Hc3, Hc2, Hc, Hd3, Hd2, Hd, Hl3, Hl2, Hl.
  repeat (split; [reflexivity|]).
  exists (new ++ g ++ [processImage (img_msg B)]).
  rewrite Hcalls, Hg, Hn, <- !app_assoc. split; [reflexivity|].
  split.
  { apply Forall_app. split; [assumption|]. apply Forall_app. split; [assumption|].
    repeat constructor. }
  split.
  { clear - Hi Hgi. induction new as [|c new IH]; simpl in *.
    - induction g as [|c g IHg]; simpl in *; [reflexivity|].
      destruct c; try discriminate; auto.
    - destruct c; try discriminate; auto. }
  intro HE. apply Forall_app. split; [assumption|]. rewrite (Hge HE). repeat constructor.
Qed.

Lemma process_rest (E : Env) (st st' : Node) :
  process E st = Ok st' ->
  clock st' = clock st /\ deci st' = deci st /\ last_imu_t st' = last_imu_t st
  /\ relo_buf (bufs st') = relo_buf (bufs st)
  /\ exists new,
      est_calls st' = est_calls st ++ new
      /\ Forall (may_call EvProcess) new
      /\ (GNSS_ENABLE E = false -> Forall (fun c => is_gnss_call c = false) new).
Proof.
  unfold process. intro H. bind_inv H as [[B|] st1] Hget.
  - apply getMeasurements_rest in Hget as (_ & Hc & Hd & _ & Hl & He & Hr).
    apply process_bundle_rest in H as (Hb & Hc' & Hd' & Hl' & new & Hn & Hf & _ & Hg).
    rewrite Hb, Hc', Hd', Hl', Hc, Hd, Hl, Hr. repeat (split; [reflexivity|]).
    exists new. rewrite Hn, He. auto.
  - injection H as <-.
    apply getMeasurements_rest in Hget as (_ & Hc & Hd & _ & Hl & He & Hr).
    repeat (split; [assumption|]). exists []. rewrite app_nil_r.
    repeat split; auto.
Qed.

(** Every estimator call made during a step is one its event may cause. *)
Lemma step_calls (E : Env) (ev : Event) (st st' : Node) :
  step E ev st = Ok st' ->
  exists new, est_calls st' = est_calls st ++ new /\ Forall (may_call ev) new.
Proof.
  assert (Hnone : forall s, est_calls s = est_calls st ->
                            exists new, est_calls s = est_calls st ++ new
                                        /\ Forall (may_call ev) new).
  { intros s Hs. exists []. rewrite app_nil_r. split; [assumption | constructor]. }
  destruct ev as [m|f|e|e|ts data|t|tp|[|]|]; cbn [step]; intro H.
  - injection H as <-. apply Hnone. unfold imu_callback.
    destruct (Qle_bool _ _); [reflexivity|]. cbv zeta.
    destruct (solver_flag _); reflexivity.
  - injection H as <-. apply Hnone. unfold feature_callback. cbv zeta.
    destruct (_ && _); reflexivity.
  - destruct (GNSS_ENABLE E); [|injection H as <-; now apply Hnone].
    unfold gnss_meas_callback in H. bind_inv H as ts Hts. cbv zeta in H.
    destruct (negb _); injection H as <-; now apply Hnone.
  - destruct (GNSS_ENABLE E); injection H as <-; [|now apply Hnone].
    exists [inputEphem e]. split; [reflexivity|]. repeat constructor.
  - destruct (GNSS_ENABLE E); [|injection H as <-; now apply Hnone].
    unfold gnss_iono_params_callback in H. bind_inv H as u Hu. injection H as <-.
    exists [inputIonoParams ts data]. split; [reflexivity|]. repeat constructor.
  - destruct (GNSS_ENABLE E && GNSS_LOCAL_ONLINE_SYNC E);
      injection H as <-; [|now apply Hnone].
    unfold local_trigger_info_callback.
    destruct (next_pulse_time_valid (clock st)); [|now apply Hnone].
    exists [inputGNSSTimeDiff (next_pulse_time (clock st) - t)].
    split; [|repeat constructor].
    destruct (negb (time_diff_valid (clock st))); reflexivity.
  - destruct (GNSS_ENABLE E && GNSS_LOCAL_ONLINE_SYNC E);
      injection H as <-; [|now apply Hnone].
    unfold gnss_tp_info_callback. cbv zeta.
    match goal with |- context [match ?c with Some _ => _ | None => _ end] =>
      destruct c end; now apply Hnone.
  - injection H as <-. exists [clearState; setParameter].
    split; [|repeat constructor].
    unfold restart_callback. cbn. now rewrite <- app_assoc.
  - injection H as <-. now apply Hnone.
  - apply process_rest in H as (_ & _ & _ & _ & new & Hn & Hf & _). eauto.
Qed.

(** Only a trigger changes the offset or its validity, and only a trigger or
    a pulse changes the clock state at all. *)
Lemma step_clock (E : Env) (ev : Event) (st st' : Node) :
  step E ev st = Ok st' ->
  match ev with
  | EvTrigger t =>
      clock st' = clock st
      \/ (GNSS_ENABLE E = true /\ GNSS_LOCAL_ONLINE_SYNC E = true
          /\ next_pulse_time_valid (clock st) = true
          /\ clock st' = mkClock (next_pulse_time (clock st)) true
                                 (next_pulse_time (clock st) - t) true)
  | EvTimePulse _ =>
      time_diff_gnss_local (clock st') = time_diff_gnss_local (clock st)
      /\ time_diff_valid (clock st') = time_diff_valid (clock st)
      /\ (GNSS_ENABLE E && GNSS_LOCAL_ONLINE_SYNC E = false -> clock st' = clock st)
  | _ => clock st' = clock st
  end.
Proof.
  destruct ev as [m|f|e|e|ts data|t|tp|[|]|]; cbn [step]; intro H.
  - injection H as <-. unfold imu_callback.
    destruct (Qle_bool _ _); [reflexivity|]. cbv zeta.
    destruct (solver_flag _); reflexivity.
  - injection H as <-. unfold feature_callback. cbv zeta.
    destruct (_ && _); reflexivity.
  - destruct (GNSS_ENABLE E); [|now injection H as <-].
    unfold gnss_meas_callback in H. bind_inv H as ts Hts. cbv zeta in H.
    destruct (negb _); now injection H as <-.
  - destruct (GNSS_ENABLE E); now injection H as <-.
  - destruct (GNSS_ENABLE E); [|now injection H as <-].
    unfold gnss_iono_params_callback in H. bind_inv H as u Hu. now injection H as <-.
  - destruct (GNSS_ENABLE E) eqn:HE, (GNSS_LOCAL_ONLINE_SYNC E) eqn:HS;
      cbn [andb] in H; injection H as <-; try (now left).
    unfold local_trigger_info_callback.
    destruct (next_pulse_time_valid (clock st)) eqn:Hv; [|now left].
    right. repeat (split; [reflexivity|]).
    destruct (negb (time_diff_valid (clock st))); reflexivity.
  - destruct (GNSS_ENABLE E && GNSS_LOCAL_ONLINE_SYNC E);
      injection H as <-; [|repeat split; reflexivity].
    unfold gnss_tp_info_callback. cbv zeta.
    match goal with |- context [match ?c with Some _ => _ | None => _ end] =>
      destruct c end; repeat split; try reflexivity; discriminate.
  - now injection H as <-.
  - now injection H as <-.
  - now apply process_rest in H as (Hc & _).
Qed.

(** ** Further properties: who calls the estimator, and when *)

Lemma run_calls (E : Env) :
  forall evs st st',
    run E evs st = Ok st' ->
    exists new,
      est_calls st' = est_calls st ++ new
      /\ Forall (fun c => Exists (fun ev => may_call ev c) evs) new.
Proof.
  induction evs as [|ev evs IH]; simpl; intros st st' H.
  - injection H as <-. exists []. rewrite app_nil_r. split; [reflexivity | constructor].
  - bind_inv H as st1 Hstep.
    apply step_calls in Hstep as (new1 & Hn1 & Hf1).
    apply IH in H as (new2 & Hn2 & Hf2).
    exists (new1 ++ new2). rewrite Hn2, Hn1, <- app_assoc. split; [reflexivity|].
    apply Forall_app. split.
    + eapply Forall_impl; [|exact Hf1]. intros c Hc. now apply Exists_cons_hd.
    + eapply Forall_impl; [|exact Hf2]. intros c Hc. now apply Exists_cons_tl.
Qed.

(** X3. Along a run the trace of estimator calls only grows, and every call
    added has its cause among the events of the run: [processIMU],
    [processGNSS] and [processImage] a round of the dispatcher, [inputEphem]
    and [inputIonoParams] the message they forward (with its content),
    [inputGNSSTimeDiff] a trigger, [clearState] and [setParameter] a restart
    request that is true. *)
Theorem X3_calls_have_a_cause (E : Env) (evs : list Event) (st st' : Node) :
  run E evs st = Ok st' ->
  exists new,
    est_calls st' = est_calls st ++ new
    /\ Forall (fun c => Exists (fun ev => may_call ev c) evs) new.
Proof. apply run_calls. Qed.

Lemma X3_calls_have_a_cause_witness :
  exists st',
    run (test_env true 0) mixed_run (main (test_env true 0)) = Ok st'
    /\ exists new,
        est_calls st' = est_calls (main (test_env true 0)) ++ new
        /\ Forall (fun c => Exists (fun ev => may_call ev c) mixed_run) new.
Proof.
  eexists. split; [vm_compute; reflexivity|].
  apply (X3_calls_have_a_cause (test_env true 0) mixed_run (main (test_env true 0))).
  vm_compute. reflexivity.
Defined.

(** ** Further properties: the clock offset *)

(** X4. A valid clock offset stays valid along any run, a restart included;
    and a run without trigger events changes neither the offset nor its
    validity. *)
Theorem X4_offset_changes_only_on_trigger (E : Env) :
  forall evs st st',
    run E evs st = Ok st' ->
    (time_diff_valid (clock st) = true -> time_diff_valid (clock st') = true)
    /\ (existsb is_trigger evs = false ->
        time_diff_gnss_local (clock st') = time_diff_gnss_local (clock st)
        /\ time_diff_valid (clock st') = time_diff_valid (clock st)).
Proof.
  induction evs as [|ev evs IH]; simpl; intros st st' H.
  - injection H as <-. auto.
  - bind_inv H as st1 Hstep. apply IH in H as [IH1 IH2].
    apply step_clock in Hstep. split.
    + intro Hv. apply IH1.
      destruct ev; try (rewrite Hstep; exact Hv).
      * destruct Hstep as [-> | (_ & _ & _ & ->)]; [exact Hv | reflexivity].
      * destruct Hstep as (_ & -> & _). exact Hv.
    + intro Hnt. apply orb_false_iff in Hnt as [Hev Hevs].
      destruct (IH2 Hevs) as [-> ->].
      destruct ev; try discriminate Hev; try (rewrite Hstep; split; reflexivity).
      destruct Hstep as (-> & -> & _). split; reflexivity.
Qed.

Lemma X4_offset_changes_only_on_trigger_witness :
  exists st',
    run (test_env true 0) (tl (tl mixed_run))
        (calibrated 50 (main (test_env true 0))) = Ok st'
    /\ (time_diff_valid (clock (calibrated 50 (main (test_env true 0)))) = true ->
        time_diff_valid (clock st') = true)
    /\ (existsb is_trigger (tl (tl mixed_run)) = false ->
        time_diff_gnss_local (clock st') = 50
        /\ time_diff_valid (clock st') = true).
Proof.
  eexists. split; [vm_compute; reflexivity|].
  apply (X4_offset_changes_only_on_trigger (test_env true 0) (tl (tl mixed_run))
           (calibrated 50 (main (test_env true 0)))).
  vm_compute. reflexivity.
Defined.

Lemma step_offline (E : Env) (ev : Event) (st st' : Node) :
  GNSS_LOCAL_ONLINE_SYNC E = false ->
  step E ev st = Ok st' ->
  clock st' = clock st /\ time_diff_calls (est_calls st') = time_diff_calls (est_calls st).
Proof.
  intros HS H. split.
  - apply step_clock in H. destruct ev; try exact H.
    + destruct H as [H | (_ & HS' & _)]; [exact H | congruence].
    + destruct H as (_ & _ & H). apply H. rewrite HS. apply andb_false_r.
  - destruct (is_trigger ev) eqn:Ht.
    { destruct ev; try discriminate Ht. cbn [step] in H.
      rewrite HS, andb_false_r in H. now injection H as <-. }
    apply step_calls in H as (new & -> & Hf).
    unfold time_diff_calls. rewrite filter_app.
    assert (Hnil : filter (fun c => match c with inputGNSSTimeDiff _ => true | _ => false end)
                          new = []).
    { clear - Hf Ht. induction Hf as [|c l Hc _ IH]; [reflexivity|].
      simpl. destruct c; try assumption.
      destruct ev as [m|f|e|e|ts data|t|tp|[|]|]; simpl in Hc; try contradiction.
      discriminate Ht. }
    rewrite Hnil. apply app_nil_r.
Qed.

(** X5. With GNSS enabled and online synchronisation disabled, after any
    run from start-up the clock offset is the configured
    [GNSS_LOCAL_TIME_DIFF], it is valid, and the estimator has been told the
    offset exactly once, with that value. *)
Theorem X5_offline_offset_is_static (E : Env) (evs : list Event) (st' : Node) :
  GNSS_ENABLE E = true ->
  GNSS_LOCAL_ONLINE_SYNC E = false ->
  run E evs (main E) = Ok st' ->
  time_diff_gnss_local (clock st') = GNSS_LOCAL_TIME_DIFF E
  /\ time_diff_valid (clock st') = true
  /\ time_diff_calls (est_calls st') = [inputGNSSTimeDiff (GNSS_LOCAL_TIME_DIFF E)].
Proof.
  intros HE HS H.
  assert (Hgen : forall evs st st', run E evs st = Ok st' ->
                   clock st' = clock st
                   /\ time_diff_calls (est_calls st') = time_diff_calls (est_calls st)).
  { clear - HS. induction evs as [|ev evs IH]; simpl; intros st st' H.
    - injection H as <-. auto.
    - bind_inv H as st1 Hstep. apply IH in H as [-> ->].
      now apply step_offline in Hstep. }
  apply Hgen in H as [-> ->]. unfold main. rewrite HE, HS. repeat split; reflexivity.
Qed.

Lemma X5_offline_offset_is_static_witness :
  GNSS_ENABLE offline_env = true
  /\ GNSS_LOCAL_ONLINE_SYNC offline_env = false
  /\ exists st',
      run offline_env mixed_run (main offline_env) = Ok st'
      /\ time_diff_gnss_local (clock st') = 18
      /\ time_diff_valid (clock st') = true
      /\ time_diff_calls (est_calls st') = [inputGNSSTimeDiff 18].
Proof.
  split; [reflexivity|]. split; [reflexivity|].
  eexists. split; [vm_compute; reflexivity|].
  apply (X5_offline_offset_is_static offline_env mixed_run); [reflexivity..|].
  vm_compute. reflexivity.
Defined.

(** ** Further properties: GNSS disabled, and GNSS not yet calibrated *)

Lemma getMeasurements_gnss_off (E : Env) (st st' : Node) (r : option Bundle) :
  GNSS_ENABLE E = false ->
  getMeasurements E st = Ok (r, st') ->
  gnss_meas_buf (bufs st') = gnss_meas_buf (bufs st)
  /\ forall B, r = Some B -> gnss_msg B = [].
Proof.
  intro HE. unfold getMeasurements. rewrite HE. intro H.
  destruct (empty (imu_buf (bufs st)) || empty (feature_buf (bufs st))
            || (false && empty (gnss_meas_buf (bufs st)))).
  { injection H as <- <-. split; [reflexivity | discriminate]. }
  bind_inv H as f0 Hf0. bind_inv H as newest Hnewest.
  destruct (negb (Qltb (pc_t f0) (imu_t newest))).
  { injection H as <- <-. split; [reflexivity | discriminate]. }
  bind_inv H as oldest Holdest. bind_inv H as [[ts fb] w1] Himg.
  cbn [bind] in H.
  bind_inv H as img Hfront. bind_inv H as fb' Hpop.
  bind_inv H as [moved ib] Hdrain. bind_inv H as s Hs.
  injection H as <- <-. split; [reflexivity|]. intros B HB. now injection HB as <-.
Qed.

Lemma imu_callback_rest (E : Env) (m : Imu) (st : Node) :
  feature_buf (bufs (imu_callback E m st)) = feature_buf (bufs st)
  /\ gnss_meas_buf (bufs (imu_callback E m st)) = gnss_meas_buf (bufs st)
  /\ relo_buf (bufs (imu_callback E m st)) = relo_buf (bufs st)
  /\ deci (imu_callback E m st) = deci st
  /\ current_time (imu_callback E m st) = current_time st.
Proof.
  unfold imu_callback. destruct (Qle_bool _ _); [repeat split; reflexivity|].
  cbv zeta. destruct (solver_flag _); repeat split; reflexivity.
Qed.

Lemma feature_callback_rest (f : PointCloud) (st : Node) :
  imu_buf (bufs (feature_callback f st)) = imu_buf (bufs st)
  /\ gnss_meas_buf (bufs (feature_callback f st)) = gnss_meas_buf (bufs st)
  /\ relo_buf (bufs (feature_callback f st)) = relo_buf (bufs st)
  /\ mech (feature_callback f st) = mech st
  /\ current_time (feature_callback f st) = current_time st.
Proof.
  unfold feature_callback. cbv zeta. destruct (_ && _); repeat split; reflexivity.
Qed.

Lemma step_gnss_off (E : Env) (ev : Event) (st st' : Node) :
  GNSS_ENABLE E = false ->
  step E ev st = Ok st' ->
  gnss_meas_buf (bufs st') = gnss_meas_buf (bufs st)
  /\ clock st' = clock st
  /\ (Forall (fun c => is_gnss_call c = false) (est_calls st) ->
      Forall (fun c => is_gnss_call c = false) (est_calls st'))
  /\ (skip_parameter (deci st) = 0%Z -> skip_parameter (deci st') = 0%Z).
Proof.
  intros HE H.
  destruct ev as [m|f|e|e|ts data|t|tp|[|]|]; cbn [step] in H; rewrite ?HE in H;
    cbn [andb] in H; try (injection H as <-; repeat split; auto; fail).
  - injection H as <-. destruct (imu_callback_rest E m st) as (_ & Hg & _ & Hd & _).
    rewrite Hg, Hd. split; [reflexivity|]. split; [|split; [|auto]].
    + unfold imu_callback. destruct (Qle_bool _ _); [reflexivity|]. cbv zeta.
      destruct (solver_flag _); reflexivity.
    + unfold imu_callback. destruct (Qle_bool _ _); [auto|]. cbv zeta.
      destruct (solver_flag _); auto.
  - injection H as <-. destruct (feature_callback_rest f st) as (_ & Hg & _).
    rewrite Hg. split; [reflexivity|]. split; [|split].
    + unfold feature_callback. cbv zeta. destruct (_ && _); reflexivity.
    + unfold feature_callback. cbv zeta. destruct (_ && _); auto.
    + intro Hs. rewrite feature_callback_deci, Hs. reflexivity.
  - injection H as <-. repeat split; auto.
    intro Hf. unfold restart_callback. cbn. rewrite <- app_assoc.
    apply Forall_app. split; [assumption | repeat constructor].
  - pose proof (process_rest _ _ _ H) as (Hc & Hd & _ & _ & new & Hn & _ & Hg).
    split.
    + unfold process in H. bind_inv H as [[B|] st1] Hget.
      * apply getMeasurements_gnss_off in Hget as [Hgb _]; [|assumption].
        apply process_bundle_rest in H as (Hb & _). now rewrite Hb.
      * injection H as <-. now apply getMeasurements_gnss_off in Hget as [Hgb _].
    + split; [assumption|]. split.
      * intro Hf. rewrite Hn. apply Forall_app. split; auto.
      * now rewrite Hd.
Qed.

(** X6. With GNSS disabled, after any run from start-up (GNSS messages,
    pulses and triggers included) the GNSS queue is empty, the clock state is
    the initial one, no GNSS call has been made to the estimator, and
    [skip_parameter] is still 0. *)
Theorem X6_gnss_disabled_is_inert (E : Env) (evs : list Event) (st' : Node) :
  GNSS_ENABLE E = false ->
  run E evs (main E) = Ok st' ->
  gnss_meas_buf (bufs st') = []
  /\ clock st' = mkClock 0 false 0 false
  /\ Forall (fun c => is_gnss_call c = false) (est_calls st')
  /\ skip_parameter (deci st') = 0%Z.
Proof.
  intros HE H.
  assert (Hgen : forall evs st st', run E evs st = Ok st' ->
            gnss_meas_buf (bufs st') = gnss_meas_buf (bufs st)
            /\ clock st' = clock st
            /\ (Forall (fun c => is_gnss_call c = false) (est_calls st) ->
                Forall (fun c => is_gnss_call c = false) (est_calls st'))
            /\ (skip_parameter (deci st) = 0%Z -> skip_parameter (deci st') = 0%Z)).
  { clear - HE. induction evs as [|ev evs IH]; simpl; intros st st' H.
    - injection H as <-. auto.
    - bind_inv H as st1 Hstep. apply IH in H as (-> & -> & H3 & H4).
      apply step_gnss_off in Hstep as (-> & -> & H3' & H4'); [|assumption].
      repeat split; auto. }
  apply Hgen in H as (-> & -> & H3 & H4). unfold main in *. rewrite HE in *.
  cbn in *. split; [reflexivity|]. split; [reflexivity|]. split; [|auto].
  apply H3. repeat constructor.
Qed.

Lemma X6_gnss_disabled_is_inert_witness :
  GNSS_ENABLE (test_env false 0) = false
  /\ exists st',
      run (test_env false 0) mixed_run (main (test_env false 0)) = Ok st'
      /\ gnss_meas_buf (bufs st') = []
      /\ clock st' = mkClock 0 false 0 false
      /\ Forall (fun c => is_gnss_call c = false) (est_calls st')
      /\ skip_parameter (deci st') = 0%Z.
Proof.
  split; [reflexivity|].
  eexists. split; [vm_compute; reflexivity|].
  apply (X6_gnss_disabled_is_inert (test_env false 0) mixed_run); [reflexivity|].
  vm_compute. reflexivity.
Defined.

Lemma step_uncalibrated (E : Env) (ev : Event) (st st' : Node) :
  is_trigger ev = false ->
  uncalibrated st ->
  step E ev st = Ok st' ->
  uncalibrated st'
  /\ filter is_process_call (est_calls st') = filter is_process_call (est_calls st).
Proof.
  intros Ht (Hv & Hs & Hf & Hg) H. unfold uncalibrated.
  destruct ev as [m|f|e|e|ts data|t|tp|[|]|]; try discriminate Ht; cbn [step] in H.
  - injection H as <-. destruct (imu_callback_rest E m st) as (Hf' & Hg' & _ & Hd & _).
    rewrite Hf', Hg', Hd.
    assert (Hc : clock (imu_callback E m st) = clock st
                 /\ est_calls (imu_callback E m st) = est_calls st).
    { unfold imu_callback. destruct (Qle_bool _ _); [split; reflexivity|]. cbv zeta.
      destruct (solver_flag _); split; reflexivity. }
    destruct Hc as [-> ->]. repeat split; cbn; rewrite ?filter_app; cbn; rewrite ?app_nil_r; auto.
  - injection H as <-.
    assert (Hd : deci (feature_callback f st)
                 = mkDeci (latest_gnss_time (deci st)) (tmp_last_feature_time (deci st))
                          (uint64_wrap (feature_msg_counter (deci st) + 1)) (-1)).
    { rewrite feature_callback_deci, Hv, Hs, andb_false_r. reflexivity. }
    assert (Hb := feature_callback_bufs f st). cbv zeta in Hb.
    rewrite Hd in Hb. cbn [skip_parameter Z.leb andb] in Hb.
    change (0 <=? -1)%Z with false in Hb. cbn [andb] in Hb.
    rewrite Hb, Hd.
    assert (Hc : clock (feature_callback f st) = clock st
                 /\ est_calls (feature_callback f st) = est_calls st).
    { unfold feature_callback. cbv zeta. destruct (_ && _); split; reflexivity. }
    destruct Hc as [-> ->]. repeat split; cbn; rewrite ?filter_app; cbn; rewrite ?app_nil_r; auto.
  - destruct (GNSS_ENABLE E); [|injection H as <-; repeat split; cbn; rewrite ?filter_app; cbn; rewrite ?app_nil_r; auto].
    unfold gnss_meas_callback in H. bind_inv H as ts Hts. cbv zeta in H.
    cbn [clock set_deci] in H. rewrite Hv in H. cbn [negb] in H.
    injection H as <-. repeat split; cbn; rewrite ?filter_app; cbn; rewrite ?app_nil_r; auto.
  - destruct (GNSS_ENABLE E); injection H as <-; repeat split; cbn; rewrite ?filter_app; cbn; rewrite ?app_nil_r; auto.
  - destruct (GNSS_ENABLE E); [|injection H as <-; repeat split; cbn; rewrite ?filter_app; cbn; rewrite ?app_nil_r; auto].
    unfold gnss_iono_params_callback in H. bind_inv H as u Hu. injection H as <-. repeat split; cbn; rewrite ?filter_app; cbn; rewrite ?app_nil_r; auto.
  - destruct (GNSS_ENABLE E && GNSS_LOCAL_ONLINE_SYNC E); injection H as <-; [|repeat split; cbn; rewrite ?filter_app; cbn; rewrite ?app_nil_r; auto].
    unfold gnss_tp_info_callback. cbv zeta.
    match goal with |- context [match ?c with Some _ => _ | None => _ end] =>
      destruct c end; repeat split; cbn; rewrite ?filter_app; cbn; rewrite ?app_nil_r; auto.
  - injection H as <-. repeat split; cbn; rewrite ?filter_app; cbn; rewrite ?app_nil_r; auto.
  - injection H as <-. repeat split; cbn; rewrite ?filter_app; cbn; rewrite ?app_nil_r; auto.
  - unfold process, getMeasurements in H. rewrite Hf in H.
    cbn [empty] in H. rewrite orb_true_r in H. cbn [orb bind] in H.
    injection H as <-. repeat split; cbn; rewrite ?filter_app; cbn; rewrite ?app_nil_r; auto.
Qed.

(** X7. With GNSS and online synchronisation enabled, as long as no trigger
    has arrived the node stays uncalibrated: the offset is not valid,
    [skip_parameter] is -1, no frame and no epoch is queued, and the
    dispatcher has made no [processIMU], [processGNSS] or [processImage]
    call. *)
Theorem X7_no_dispatch_before_calibration (E : Env) (evs : list Event) (st' : Node) :
  GNSS_ENABLE E = true ->
  GNSS_LOCAL_ONLINE_SYNC E = true ->
  existsb is_trigger evs = false ->
  run E evs (main E) = Ok st' ->
  uncalibrated st' /\ filter is_process_call (est_calls st') = [].
Proof.
  intros HE HS Ht H.
  assert (Hgen : forall evs st st',
            existsb is_trigger evs = false -> uncalibrated st ->
            run E evs st = Ok st' ->
            uncalibrated st'
            /\ filter is_process_call (est_calls st')
               = filter is_process_call (est_calls st)).
  { clear. induction evs as [|ev evs IH]; simpl; intros st st' Ht Hu H.
    - injection H as <-. auto.
    - apply orb_false_iff in Ht as [Hev Hevs]. bind_inv H as st1 Hstep.
      destruct (step_uncalibrated E ev st st1 Hev Hu Hstep) as [Hu1 Hc1].
      destruct (IH st1 st' Hevs Hu1 H) as [Hu' Hc']. split; [assumption | congruence]. }
  apply (Hgen evs (main E) st' Ht) in H.
  - destruct H as [Hu ->]. split; [assumption|].
    unfold main. rewrite HE, HS. reflexivity.
  - unfold uncalibrated, main. rewrite HE, HS. repeat split; reflexivity.
Qed.

Lemma X7_no_dispatch_before_calibration_witness :
  GNSS_ENABLE (test_env true 0) = true
  /\ GNSS_LOCAL_ONLINE_SYNC (test_env true 0) = true
  /\ existsb is_trigger (EvTimePulse (mkPulse 0 100 SYS_GPS false) :: tl (tl mixed_run))
     = false
  /\ exists st',
      run (test_env true 0)
          (EvTimePulse (mkPulse 0 100 SYS_GPS false) :: tl (tl mixed_run))
          (main (test_env true 0)) = Ok st'
      /\ uncalibrated st' /\ filter is_process_call (est_calls st') = [].
Proof.
  split; [reflexivity|]. split; [reflexivity|]. split; [reflexivity|].
  eexists. split; [vm_compute; reflexivity|].
  apply (X7_no_dispatch_before_calibration (test_env true 0)
           (EvTimePulse (mkPulse 0 100 SYS_GPS false) :: tl (tl mixed_run)));
    [reflexivity..|].
  vm_compute. reflexivity.
Defined.

(** X8. With GNSS disabled the feature queue receives the first, third,
    fifth, ... frame that arrives after start-up: [skip_parameter] is 0 and
    the counter starts at 0. *)
Theorem X8_gnss_disabled_keeps_odd_frames (E : Env) (fs : list PointCloud) :
  GNSS_ENABLE E = false ->
  feature_buf (bufs (feed fs (main E))) = every_other true fs
  /\ feature_msg_counter (deci (main E)) = 0%Z.
Proof.
  intro HE.
  destruct (feed_decided fs (main E)) as [_ H].
  { unfold main. rewrite HE. cbn. lia. }
  rewrite H. unfold main. rewrite HE. split; reflexivity.
Qed.

Lemma X8_gnss_disabled_keeps_odd_frames_witness :
  GNSS_ENABLE (test_env false 0) = false
  /\ feature_buf (bufs (feed [frame_at 1; frame_at 2; frame_at 3; frame_at 4]
                             (main (test_env false 0))))
     = [frame_at 1; frame_at 3].
Proof.
  split; [reflexivity|].
  exact (proj1 (X8_gnss_disabled_keeps_odd_frames (test_env false 0)
                  [frame_at 1; frame_at 2; frame_at 3; frame_at 4] eq_refl)).
Defined.

(** ** Further properties: the mechaniser *)

Lemma predict_marks (E : Env) (gv : Vector3d) (m : Imu) (mch : Mechanizer) :
  init_imu (predict E gv m mch) = false
  /\ latest_time (predict E gv m mch) = imu_t m.
Proof. unfold predict. destruct (init_imu mch); split; reflexivity. Qed.

Lemma replay_init (E : Env) (gv : Vector3d) :
  forall samples mch,
    init_imu mch = false ->
    init_imu (fold_left (fun m s => predict E gv s m) samples mch) = false.
Proof.
  induction samples as [|s samples IH]; simpl; intros mch H; [assumption|].
  apply IH. apply predict_marks.
Qed.

Lemma back_snoc {A : Type} (l : list A) (a : A) :
  back l = Ok a -> exists l', l = l' ++ [a].
Proof.
  unfold back. destruct (rev l) as [|b r] eqn:Hr; [discriminate|].
  intro H. injection H as ->. exists (rev r).
  rewrite <- (rev_involutive l), Hr. reflexivity.
Qed.

Lemma back_app {A : Type} (l : list A) (a : A) : back (l ++ [a]) = Ok a.
Proof. unfold back. now rewrite rev_app_distr. Qed.

Lemma back_suffix {A : Type} (gone l : list A) (a : A) :
  back l = Ok a -> back (gone ++ l) = Ok a.
Proof.
  intro H. apply back_snoc in H as [l' ->]. rewrite app_assoc. apply back_app.
Qed.

Lemma replay_latest (E : Env) (gv : Vector3d) (samples : list Imu) (s : Imu)
      (mch : Mechanizer) :
  back samples = Ok s ->
  latest_time (fold_left (fun m x => predict E gv x m) samples mch) = imu_t s.
Proof.
  intro H. apply back_snoc in H as [l' ->].
  rewrite fold_left_app. simpl. apply predict_marks.
Qed.

(** What [process] does to the mechaniser: nothing, or [update] on a state
    with the same mechaniser and the final queues. *)
Lemma process_mech (E : Env) (st st' : Node) :
  process E st = Ok st' ->
  mech st' = mech st
  \/ exists st2, mech st2 = mech st /\ bufs st2 = bufs st' /\ st' = update E st2.
Proof.
  unfold process. intro H. bind_inv H as [[B|] st1] Hget.
  - apply getMeasurements_rest in Hget as (Hm & _).
    unfold process_bundle in H. bind_inv H as st2 Himu.
    apply process_imu_frame in Himu as (Hb & _ & Hm2 & _).
    set (st3 := call (processImage (img_msg B))
                     (if GNSS_ENABLE E && negb (empty (gnss_msg B))
                      then call (processGNSS (gnss_msg B)) st2 else st2)) in *.
    assert (H3 : mech st3 = mech st /\ bufs st3 = bufs st2).
    { subst st3. destruct (GNSS_ENABLE E && negb (empty (gnss_msg B)));
        split; cbn; congruence. }
    destruct H3 as [Hm3 Hb3].
    destruct (solver_flag (view E st3)); injection H as <-.
    + left. assumption.
    + right. exists st3. split; [assumption|]. split; reflexivity.
  - injection H as <-. left. now apply getMeasurements_rest in Hget as (Hm & _).
Qed.

Lemma step_init (E : Env) (ev : Event) (st st' : Node) :
  init_imu (mech st) = false -> step E ev st = Ok st' -> init_imu (mech st') = false.
Proof.
  intros Hi H.
  destruct ev as [m|f|e|e|ts data|t|tp|[|]|]; cbn [step] in H.
  - injection H as <-. unfold imu_callback. destruct (Qle_bool _ _); [assumption|].
    cbv zeta. destruct (solver_flag _); cbn [mech emit set_mech]; apply predict_marks.
  - injection H as <-. now rewrite (proj1 (proj2 (proj2 (proj2 (feature_callback_rest f st))))).
  - destruct (GNSS_ENABLE E); [|now injection H as <-].
    unfold gnss_meas_callback in H. bind_inv H as ts Hts. cbv zeta in H.
    destruct (negb _); now injection H as <-.
  - destruct (GNSS_ENABLE E); now injection H as <-.
  - destruct (GNSS_ENABLE E); [|now injection H as <-].
    unfold gnss_iono_params_callback in H. bind_inv H as u Hu. now injection H as <-.
  - destruct (GNSS_ENABLE E && GNSS_LOCAL_ONLINE_SYNC E); injection H as <-; [|assumption].
    unfold local_trigger_info_callback.
    destruct (next_pulse_time_valid (clock st)); [|assumption].
    destruct (negb (time_diff_valid (clock st))); assumption.
  - destruct (GNSS_ENABLE E && GNSS_LOCAL_ONLINE_SYNC E); injection H as <-; [|assumption].
    unfold gnss_tp_info_callback. cbv zeta.
    match goal with |- context [match ?c with Some _ => _ | None => _ end] =>
      destruct c end; assumption.
  - now injection H as <-.
  - now injection H as <-.
  - apply process_mech in H as [-> | (st2 & Hm & _ & ->)]; [assumption|].
    unfold update. cbn [mech set_mech]. apply replay_init. cbn. congruence.
Qed.

(** X9. Once the mechaniser has seen a sample, [init_imu] stays false along
    any run: neither a restart nor [update] sets it again. *)
Theorem X9_initialised_for_good (E : Env) :
  forall evs st st',
    init_imu (mech st) = false ->
    run E evs st = Ok st' ->
    init_imu (mech st') = false.
Proof.
  induction evs as [|ev evs IH]; simpl; intros st st' Hi H.
  - now injection H as <-.
  - bind_inv H as st1 Hstep. eapply IH; [|exact H]. eapply step_init; eauto.
Qed.

Lemma X9_initialised_for_good_witness :
  init_imu (mech after_first_imu) = false
  /\ exists st',
      run (test_env false 0) mixed_run after_first_imu = Ok st'
      /\ init_imu (mech st') = false.
Proof.
  split; [reflexivity|].
  eexists. split; [vm_compute; reflexivity|].
  apply (X9_initialised_for_good (test_env false 0) mixed_run after_first_imu);
    [reflexivity|].
  vm_compute. reflexivity.
Defined.

Lemma step_newest (E : Env) (ev : Event) (st st' : Node) :
  newest_integrated st -> step E ev st = Ok st' -> newest_integrated st'.
Proof.
  intros Hn H. unfold newest_integrated in *.
  assert (Hsame : forall s', mech s' = mech st -> last_imu_t s' = last_imu_t st ->
                             imu_buf (bufs s') = imu_buf (bufs st) ->
                             forall s, back (imu_buf (bufs s')) = Ok s ->
                                       latest_time (mech s') = imu_t s
                                       /\ last_imu_t s' = imu_t s).
  { intros s' -> -> ->. exact Hn. }
  destruct ev as [m|f|e|e|ts data|t|tp|[|]|]; cbn [step] in H.
  - injection H as <-.
    destruct (Qlt_le_dec (last_imu_t st) (imu_t m)) as [Hlt|Hle].
    + destruct (imu_callback_accept E m st Hlt) as [Hb Hl].
      intros s Hs. rewrite Hb, back_app in Hs. injection Hs as <-.
      split; [|assumption].
      unfold imu_callback. apply Qlt_not_le in Hlt.
      destruct (Qle_bool (imu_t m) (last_imu_t st)) eqn:Hq;
        [apply Qle_bool_iff in Hq; contradiction|].
      cbv zeta. destruct (solver_flag _); cbn [mech emit set_mech]; apply predict_marks.
    + rewrite imu_callback_drop by assumption. now apply Hsame.
  - injection H as <-.
    destruct (feature_callback_rest f st) as (Hb & _ & _ & Hm & _).
    apply Hsame; auto.
    unfold feature_callback. cbv zeta. destruct (_ && _); reflexivity.
  - destruct (GNSS_ENABLE E); [|injection H as <-; exact Hn].
    unfold gnss_meas_callback in H. bind_inv H as ts Hts. cbv zeta in H.
    destruct (negb _); injection H as <-; now apply Hsame.
  - destruct (GNSS_ENABLE E); injection H as <-; now apply Hsame.
  - destruct (GNSS_ENABLE E); [|injection H as <-; exact Hn].
    unfold gnss_iono_params_callback in H. bind_inv H as u Hu.
    injection H as <-. now apply Hsame.
  - destruct (GNSS_ENABLE E && GNSS_LOCAL_ONLINE_SYNC E); injection H as <-; [|exact Hn].
    unfold local_trigger_info_callback.
    destruct (next_pulse_time_valid (clock st)); [|exact Hn].
    destruct (negb (time_diff_valid (clock st))); now apply Hsame.
  - destruct (GNSS_ENABLE E && GNSS_LOCAL_ONLINE_SYNC E); injection H as <-; [|exact Hn].
    unfold gnss_tp_info_callback. cbv zeta.
    match goal with |- context [match ?c with Some _ => _ | None => _ end] =>
      destruct c end; now apply Hsame.
  - injection H as <-. intros s Hs. discriminate Hs.
  - injection H as <-. exact Hn.
  - pose proof (process_frame _ _ _ H) as (Hl & gone & Hg).
    intros s Hs. rewrite Hl.
    destruct (Hn s) as [Hlat Hlast].
    { rewrite Hg. now apply back_suffix. }
    split; [|assumption].
    apply process_mech in H as [-> | (st2 & Hm & Hb & ->)]; [assumption|].
    unfold update. cbn [mech set_mech]. apply replay_latest.
    cbn [bufs update set_mech] in Hs. exact Hs.
Qed.

(** X10. Along any run, whenever the IMU queue is not empty the
    mechaniser's [latest_time] and [last_imu_t] are the timestamp of the
    newest queued sample; [update] re-integrates the queue up to that very
    sample. *)
Theorem X10_newest_sample_integrated (E : Env) :
  forall evs st st',
    newest_integrated st ->
    run E evs st = Ok st' ->
    newest_integrated st'.
Proof.
  induction evs as [|ev evs IH]; simpl; intros st st' Hn H.
  - now injection H as <-.
  - bind_inv H as st1 Hstep. eapply IH; [|exact H]. eapply step_newest; eauto.
Qed.

Lemma X10_newest_sample_integrated_witness :
  newest_integrated (main (running_env true 0))
  /\ exists st',
      run (running_env true 0) mixed_run (main (running_env true 0)) = Ok st'
      /\ imu_buf (bufs st') = [imu_at 50.2 0]
      /\ newest_integrated st'.
Proof.
  assert (H0 : newest_integrated (main (running_env true 0))).
  { intros s Hs. discriminate Hs. }
  split; [exact H0|].
  eexists. split; [vm_compute; reflexivity|]. split; [reflexivity|].
  apply (X10_newest_sample_integrated (running_env true 0) mixed_run
           (main (running_env true 0)) _ H0).
  vm_compute. reflexivity.
Defined.

(** X11. For an initialised mechaniser and a sample in order, re-seeding
    with [update] before the sample arrives or after it gives the same
    mechaniser and the same queues. *)
Theorem X11_reseed_commutes_with_imu (E : Env) (m : Imu) (st : Node) :
  init_imu (mech st) = false ->
  last_imu_t st < imu_t m ->
  mech (update E (imu_callback E m st)) = mech (imu_callback E m (update E st))
  /\ bufs (update E (imu_callback E m st)) = bufs (imu_callback E m (update E st)).
Proof.
  intros Hi Hlt.
  assert (Hq : Qle_bool (imu_t m) (last_imu_t st) = false).
  { destruct (Qle_bool (imu_t m) (last_imu_t st)) eqn:Hq; [|reflexivity].
    apply Qle_bool_iff in Hq. exfalso. apply (Qlt_not_le _ _ Hlt Hq). }
  assert (Hcb : forall s, last_imu_t s = last_imu_t st ->
                  mech (imu_callback E m s) = predict E (g (view E s)) m (mech s)
                  /\ bufs (imu_callback E m s) = push_imu m (bufs s)
                  /\ est_calls (imu_callback E m s) = est_calls s
                  /\ current_time (imu_callback E m s) = current_time s).
  { intros s Hs. unfold imu_callback. rewrite Hs, Hq. cbv zeta.
    destruct (solver_flag _); repeat split; reflexivity. }
  destruct (Hcb st eq_refl) as (Hm1 & Hb1 & Hc1 & Ht1).
  destruct (Hcb (update E st) eq_refl) as (Hm2 & Hb2 & _).
  split.
  - rewrite Hm2. unfold update. cbn [mech set_mech]. unfold view.
    cbn [est_calls set_mech bufs current_time].
    rewrite Hb1, Hc1, Ht1, Hm1. cbn [imu_buf push_imu].
    rewrite fold_left_app. cbn [fold_left].
    rewrite (proj1 (predict_marks _ _ _ _)), Hi. reflexivity.
  - rewrite Hb2. cbn [bufs update set_mech]. exact Hb1.
Qed.

Lemma X11_reseed_commutes_with_imu_witness :
  init_imu (mech after_first_imu) = false
  /\ last_imu_t after_first_imu < imu_t (imu_at 2 1)
  /\ mech (update (running_env false 0)
                  (imu_callback (running_env false 0) (imu_at 2 1) after_first_imu))
     = mech (imu_callback (running_env false 0) (imu_at 2 1)
                          (update (running_env false 0) after_first_imu)).
Proof.
  split; [reflexivity|]. split; [reflexivity|].
  apply (X11_reseed_commutes_with_imu (running_env false 0) (imu_at 2 1) after_first_imu);
    reflexivity.
Defined.






(** ** Further properties: the dispatcher's loop over a slice *)









(** *** No assertion fails along a run *)


















(** ** Further properties: the order of the frames *)

Lemma sublist_refl {A : Type} (l : list A) : sublist l l.
Proof. induction l; [apply sublist_nil | apply sublist_keep; assumption]. Qed.

Lemma sublist_trans {A : Type} (l1 l2 l3 : list A) :
  sublist l1 l2 -> sublist l2 l3 -> sublist l1 l3.
Proof.
  intros H12 H23. revert l1 H12.
  induction H23 as [|a l2 l3 H IH|a l2 l3 H IH]; intros l1 H12.
  - assumption.
  - apply sublist_skip. auto.
  - inversion H12; subst; [apply sublist_skip | apply sublist_keep]; auto.
Qed.

Lemma sublist_app {A : Type} (l1 l1' l2 l2' : list A) :
  sublist l1 l1' -> sublist l2 l2' -> sublist (l1 ++ l2) (l1' ++ l2').
Proof.
  intros H1 H2. induction H1; cbn;
    [assumption | apply sublist_skip; assumption | apply sublist_keep; assumption].
Qed.

Lemma sublist_drop {A : Type} (l1 l2 : list A) : sublist l2 (l1 ++ l2).
Proof. induction l1; cbn; [apply sublist_refl | apply sublist_skip; assumption]. Qed.

Lemma sublist_nil_l {A : Type} (l : list A) : sublist [] l.
Proof. induction l; [apply sublist_nil | apply sublist_skip; assumption]. Qed.

Lemma image_frames_app (a b : list EstCall) :
  image_frames (a ++ b) = image_frames a ++ image_frames b.
Proof.
  induction a as [|c a IH]; cbn; [reflexivity|].
  destruct c; cbn; rewrite ?IH; reflexivity.
Qed.

Lemma image_frames_none (ev : Event) (new : list EstCall) :
  ev <> EvProcess -> Forall (may_call ev) new -> image_frames new = [].
Proof.
  intros Hev H. induction H as [|c l Hc _ IH]; [reflexivity|].
  destruct c; cbn; try assumption.
  destruct ev as [m|f|e|e|ts data|t|tp|[|]|]; cbn in Hc; contradiction.
Qed.

(** [getMeasurements] only removes frames from the front of the feature
    queue, whatever it returns. *)
Lemma getMeasurements_frames (E : Env) (st st' : Node) (r : option Bundle) :
  getMeasurements E st = Ok (r, st') ->
  exists dropped,
    feature_buf (bufs st)
    = dropped ++ match r with
                 | Some B => img_msg B :: feature_buf (bufs st')
                 | None => feature_buf (bufs st')
                 end.
Proof.
  intro H. destruct r as [B|].
  - apply getMeasurements_Some_frames in H as (_ & dropped & rest & _ & Hf & _ & _ & Hr).
    exists dropped. now rewrite Hr.
  - unfold getMeasurements in H.
    destruct (empty (imu_buf (bufs st)) || empty (feature_buf (bufs st))
              || (GNSS_ENABLE E && empty (gnss_meas_buf (bufs st)))).
    { injection H as <-. now exists []. }
    bind_inv H as f0 Hf0. bind_inv H as newest Hnewest.
    destruct (negb (Qltb (pc_t f0) (imu_t newest))).
    { injection H as <-. now exists []. }
    bind_inv H as oldest Holdest. bind_inv H as [[ts fb] w1] Himg.
    bind_inv H as [[[gm gb]|] w2] Hgnss.
    + bind_inv H as img Hfront. bind_inv H as fb' Hpop.
      bind_inv H as [moved ib] Hdrain. bind_inv H as s Hs. discriminate.
    + injection H as <-. cbn [bufs emit set_bufs feature_buf].
      apply front_Ok in Hf0 as [fq Hfq].
      apply throw_img_spec in Himg as (dropped & Hd & _).
      * exists dropped. exact Hd.
      * intros f rest Hf. rewrite Hfq in Hf. now injection Hf as <- <-.
Qed.

Lemma step_frames (E : Env) (ev : Event) (st st' : Node) (pre : list PointCloud) :
  sublist (image_frames (est_calls st) ++ feature_buf (bufs st)) pre ->
  step E ev st = Ok st' ->
  sublist (image_frames (est_calls st') ++ feature_buf (bufs st'))
          (pre ++ arrived_frames [ev]).
Proof.
  intros Hsub H.
  assert (Hsame : forall s, image_frames (est_calls s) = image_frames (est_calls st) ->
                            feature_buf (bufs s) = feature_buf (bufs st) ->
                            sublist (image_frames (est_calls s) ++ feature_buf (bufs s))
                                    (pre ++ [])).
  { intros s -> ->. now rewrite app_nil_r. }
  destruct ev as [m|f|e|e|ts data|t|tp|[|]|]; cbn [arrived_frames]; cbn [step] in H.
  - injection H as <-. apply Hsame.
    + unfold imu_callback. destruct (Qle_bool _ _); [reflexivity|]. cbv zeta.
      destruct (solver_flag _); reflexivity.
    + apply imu_callback_rest.
  - injection H as <-.
    assert (Hc : est_calls (feature_callback f st) = est_calls st).
    { unfold feature_callback. cbv zeta. destruct (_ && _); reflexivity. }
    assert (Hb := feature_callback_bufs f st). cbv zeta in Hb.
    rewrite Hc, Hb. destruct (_ && _); cbn [feature_buf push_feature].
    + rewrite app_assoc. apply sublist_app; [assumption | apply sublist_refl].
    + rewrite <- (app_nil_r (_ ++ feature_buf (bufs st))).
      apply sublist_app; [assumption | repeat constructor].
  - destruct (GNSS_ENABLE E); [|injection H as <-; now apply Hsame].
    unfold gnss_meas_callback in H. bind_inv H as ts Hts. cbv zeta in H.
    destruct (negb _); injection H as <-; now apply Hsame.
  - destruct (GNSS_ENABLE E); injection H as <-; [|now apply Hsame].
    apply Hsame; [|reflexivity]. cbn. rewrite image_frames_app. cbn. apply app_nil_r.
  - destruct (GNSS_ENABLE E); [|injection H as <-; now apply Hsame].
    unfold gnss_iono_params_callback in H. bind_inv H as u Hu. injection H as <-.
    apply Hsame; [|reflexivity]. cbn. rewrite image_frames_app. cbn. apply app_nil_r.
  - pose proof (step_calls E (EvTrigger t) st st' H) as (new & Hn & Hf).
    apply (image_frames_none (EvTrigger t)) in Hf; [|discriminate].
    cbn [step] in H.
    destruct (GNSS_ENABLE E && GNSS_LOCAL_ONLINE_SYNC E); injection H as <-;
      [|now apply Hsame].
    apply Hsame; [rewrite Hn, image_frames_app, Hf; apply app_nil_r|].
    unfold local_trigger_info_callback.
    destruct (next_pulse_time_valid (clock st)); [|reflexivity].
    destruct (negb (time_diff_valid (clock st))); reflexivity.
  - destruct (GNSS_ENABLE E && GNSS_LOCAL_ONLINE_SYNC E); injection H as <-;
      [|now apply Hsame].
    unfold gnss_tp_info_callback. cbv zeta.
    match goal with |- context [match ?c with Some _ => _ | None => _ end] =>
      destruct c end; now apply Hsame.
  - injection H as <-. rewrite app_nil_r.
    unfold restart_callback. cbn. rewrite !image_frames_app. cbn.
    rewrite !app_nil_r.
    eapply sublist_trans; [|exact Hsub].
    rewrite <- (app_nil_r (image_frames (est_calls st))) at 1.
    apply sublist_app; [apply sublist_refl | apply sublist_nil_l].
  - injection H as <-. now apply Hsame.
  - rewrite app_nil_r. eapply sublist_trans; [|exact Hsub].
    unfold process in H. bind_inv H as [[B|] st1] Hget.
    + pose proof (getMeasurements_frames _ _ _ _ Hget) as [dropped Hd].
      pose proof (getMeasurements_rest _ _ _ _ Hget) as (_ & _ & _ & _ & _ & Hc & _).
      apply process_bundle_rest in H as (Hb & _ & _ & _ & new & Hn & _ & Hi & _).
      rewrite Hn, Hc, image_frames_app, Hi, Hb, Hd, <- app_assoc.
      apply sublist_app; [apply sublist_refl|]. apply sublist_drop.
    + injection H as <-.
      pose proof (getMeasurements_frames _ _ _ _ Hget) as [dropped Hd].
      pose proof (getMeasurements_rest _ _ _ _ Hget) as (_ & _ & _ & _ & _ & Hc & _).
      rewrite Hc, Hd. apply sublist_app; [apply sublist_refl | apply sublist_drop].
Qed.

Lemma arrived_frames_app (a b : list Event) :
  arrived_frames (a ++ b) = arrived_frames a ++ arrived_frames b.
Proof.
  induction a as [|ev a IH]; cbn; [reflexivity|].
  destruct ev; cbn; rewrite ?IH; reflexivity.
Qed.

Lemma run_frames (E : Env) :
  forall evs st st' pre,
    sublist (image_frames (est_calls st) ++ feature_buf (bufs st)) pre ->
    run E evs st = Ok st' ->
    sublist (image_frames (est_calls st') ++ feature_buf (bufs st'))
            (pre ++ arrived_frames evs).
Proof.
  induction evs as [|ev evs IH]; cbn [run]; intros st st' pre Hsub H.
  - injection H as <-. cbn. now rewrite app_nil_r.
  - bind_inv H as st1 Hstep.
    change (ev :: evs) with ([ev] ++ evs).
    rewrite arrived_frames_app, app_assoc.
    eapply IH; [|exact H]. eapply step_frames; eauto.
Qed.

(** X15. The frames handed to [processImage], followed by the frames still
    queued, are frames that arrived, in the order of arrival: no frame is
    processed twice and none overtakes another. *)
Theorem X15_frames_in_arrival_order (E : Env) (evs : list Event) (st' : Node) :
  run E evs (main E) = Ok st' ->
  sublist (image_frames (est_calls st') ++ feature_buf (bufs st')) (arrived_frames evs).
Proof.
  intro H. apply (run_frames E evs (main E) st' []) in H; [exact H|].
  unfold main. cbn. destruct (GNSS_ENABLE E && negb (GNSS_LOCAL_ONLINE_SYNC E));
    constructor.
Qed.

Lemma X15_frames_in_arrival_order_witness :
  exists st',
    run (test_env true 0) mixed_run (main (test_env true 0)) = Ok st'
    /\ image_frames (est_calls st') = [frame_at 50.03]
    /\ arrived_frames mixed_run = [frame_at 49.98; frame_at 50.03]
    /\ sublist (image_frames (est_calls st') ++ feature_buf (bufs st'))
               (arrived_frames mixed_run).
Proof.
  eexists. split; [vm_compute; reflexivity|].
  split; [reflexivity|]. split; [reflexivity|].
  apply (X15_frames_in_arrival_order (test_env true 0) mixed_run).
  vm_compute. reflexivity.
Defined.

(** ** Further properties: ephemerides and ionosphere parameters *)

Lemma aux_of_others (ev : Event) (new : list EstCall) :
  aux_messages [ev] = [] -> Forall (may_call ev) new -> filter is_aux_call new = [].
Proof.
  intros Hev H. induction H as [|c l Hc _ IH]; [reflexivity|].
  cbn [filter]. rewrite IH.
  destruct ev as [m|f|e|e|ts data|t|tp|[|]|]; cbn in Hev; try discriminate;
    destruct c; cbn in Hc; try contradiction; try discriminate; reflexivity.
Qed.

Lemma step_aux (E : Env) (ev : Event) (st st' : Node) :
  GNSS_ENABLE E = true ->
  step E ev st = Ok st' ->
  filter is_aux_call (est_calls st')
  = filter is_aux_call (est_calls st) ++ aux_messages [ev].
Proof.
  intros HG H.
  destruct (aux_messages [ev]) as [|c l] eqn:Hev.
  - pose proof (step_calls E ev st st' H) as (new & Hn & Hf).
    rewrite Hn, filter_app, (aux_of_others ev new Hev Hf). reflexivity.
  - destruct ev as [m|f|e|e|ts data|t|tp|b|]; cbn in Hev; try discriminate;
      injection Hev as <- <-; cbn [step] in H; rewrite HG in H.
    + injection H as <-. cbn. now rewrite filter_app.
    + unfold gnss_iono_params_callback in H. bind_inv H as u Hu.
      injection H as <-. cbn. now rewrite filter_app.
Qed.

Lemma aux_messages_app (a b : list Event) :
  aux_messages (a ++ b) = aux_messages a ++ aux_messages b.
Proof.
  induction a as [|ev a IH]; cbn; [reflexivity|].
  destruct ev; cbn; rewrite ?IH; reflexivity.
Qed.

(** X16. With GNSS enabled every ephemeris and every set of ionosphere
    parameters is handed to the estimator at once, unchanged and in the order
    of arrival; no other event adds, drops or reorders such a call, a restart
    included. *)
Theorem X16_ephemeris_forwarded_in_order (E : Env) :
  GNSS_ENABLE E = true ->
  forall evs st st',
    run E evs st = Ok st' ->
    filter is_aux_call (est_calls st')
    = filter is_aux_call (est_calls st) ++ aux_messages evs.
Proof.
  intros HG. induction evs as [|ev evs IH]; cbn [run]; intros st st' H.
  - injection H as <-. cbn. now rewrite app_nil_r.
  - bind_inv H as st1 Hstep.
    rewrite (IH _ _ H), (step_aux E ev st st1 HG Hstep), <- app_assoc.
    change (ev :: evs) with ([ev] ++ evs). now rewrite aux_messages_app.
Qed.

Lemma X16_ephemeris_forwarded_in_order_witness :
  exists st',
    run (test_env true 0) mixed_run (main (test_env true 0)) = Ok st'
    /\ aux_messages mixed_run <> []
    /\ filter is_aux_call (est_calls st')
       = filter is_aux_call (est_calls (main (test_env true 0)))
         ++ aux_messages mixed_run.
Proof.
  eexists. split; [vm_compute; reflexivity|]. split; [discriminate|].
  apply (X16_ephemeris_forwarded_in_order (test_env true 0)); [reflexivity|].
  vm_compute. reflexivity.
Defined.

(** ** Further properties: the feature map *)

Lemma dbind_inr {A B : Type} (m : decoding A) (k : A -> decoding B) (b : B) :
  dbind m k = inr b -> exists a, m = inr a /\ k a = inr b.
Proof. destruct m as [e|a]; cbn; [discriminate | eauto]. Qed.

(** Rounding to the nearest integer by [+ 0.5] and truncation. *)
Lemma double_to_int_round (x : Q) (k : Z) :
  (0 <= k <= INT_MAX)%Z ->
  inject_Z k - (1 # 2) <= x -> x < inject_Z k + (1 # 2) ->
  double_to_int (x + 0.5) = inr k.
Proof.
  intros Hk Hlo Hhi. unfold double_to_int.
  set (y := x + 0.5).
  assert (Hy0 : inject_Z k <= y) by (unfold y; lra).
  assert (Hy1 : y < inject_Z (k + 1)).
  { unfold y. rewrite inject_Z_plus. change (inject_Z 1) with 1. lra. }
  clearbody y.
  assert (Hfl : Qfloor y = k).
  { apply Z.le_antisymm.
    - apply Z.lt_succ_r. rewrite <- Z.add_1_r. rewrite Zlt_Qlt.
      eapply Qle_lt_trans; [apply Qfloor_le | exact Hy1].
    - rewrite <- (Qfloor_Z k). now apply Qfloor_resp_le. }
  assert (Hq : Z.quot (Qnum y) (Zpos (Qden y)) = k).
  { rewrite Z.quot_div_nonneg;
      [destruct y as [n d]; exact Hfl | | lia].
    assert (H0 : 0 <= y).
    { eapply Qle_trans; [|exact Hy0]. change 0 with (inject_Z 0).
      rewrite <- Zle_Qle. lia. }
    destruct y as [n d]. unfold Qle in H0. cbn in H0 |- *. lia. }
  cbv zeta. rewrite Hq.
  replace ((INT_MIN <=? k) && (k <=? INT_MAX))%Z with true; [reflexivity|].
  symmetry. apply andb_true_iff. split; apply Z.leb_le; unfold INT_MIN in *; lia.
Qed.

(** X17. The feature id and the camera id written by the front end as
    [id * NUM_OF_CAM + camera] are recovered exactly, also when the channel
    value is off by less than one half. *)
Theorem X17_feature_id_round_trip
        (NUM_OF_CAM id camera : Z) (img_msg : PointCloud) (i : nat) (p : Vector3d)
        (x p_u p_v velocity_x velocity_y : Q) :
  (0 <= id)%Z -> (0 <= camera < NUM_OF_CAM)%Z ->
  (id * NUM_OF_CAM + camera <= INT_MAX)%Z ->
  inject_Z (id * NUM_OF_CAM + camera) - (1 # 2) <= x ->
  x < inject_Z (id * NUM_OF_CAM + camera) + (1 # 2) ->
  channel_value img_msg 0 i = inr x ->
  channel_value img_msg 1 i = inr p_u ->
  channel_value img_msg 2 i = inr p_v ->
  channel_value img_msg 3 i = inr velocity_x ->
  channel_value img_msg 4 i = inr velocity_y ->
  vz p == 1 ->
  decode_point NUM_OF_CAM img_msg i p
  = inr (id, (camera,
              mkV7 (vx p) (vy p) (vz p) p_u p_v velocity_x velocity_y)).
Proof.
  intros Hid Hcam Hmax Hlo Hhi H0 H1 H2 H3 H4 Hz.
  unfold decode_point. rewrite H0. cbn [dbind].
  rewrite (double_to_int_round x (id * NUM_OF_CAM + camera)); [|nia|assumption..].
  cbn [dbind].
  replace (NUM_OF_CAM =? 0)%Z with false by (symmetry; apply Z.eqb_neq; lia).
  replace (NUM_OF_CAM =? -1)%Z with false by (symmetry; apply Z.eqb_neq; lia).
  rewrite andb_false_r. cbn [orb].
  rewrite H1, H2, H3, H4. cbn [dbind].
  apply Qeq_bool_iff in Hz. rewrite Hz. cbv zeta.
  assert (Hv : (0 <= id * NUM_OF_CAM + camera)%Z) by nia.
  rewrite Z.quot_div_nonneg, Z.rem_mod_nonneg by lia.
  rewrite Z.div_add_l, Z.div_small, Z.add_0_r by lia.
  rewrite Z.add_comm, Z.mod_add, Z.mod_small by lia.
  reflexivity.
Qed.

Lemma X17_feature_id_round_trip_witness :
  decode_point 2 stereo_frame 0 (mkV 0.1 0.2 1)
  = inr (7%Z, (0%Z, mkV7 0.1 0.2 1 320 240 1 0)).
Proof.
  apply (X17_feature_id_round_trip 2 7 0 stereo_frame 0 (mkV 0.1 0.2 1) 14 320 240 1 0);
    try reflexivity; try lia; try (vm_compute; discriminate).
Defined.

(** *** The map built by [emplace] *)

Lemma emplace_keys_bound (k id : Z) (ob : Z * Vector7d) (image : FeatureMap) :
  (k < id)%Z -> Forall (Z.lt k) (map fst image) ->
  Forall (Z.lt k) (map fst (emplace id ob image)).
Proof.
  intros Hk H. induction image as [|[k' obs] rest IH]; cbn.
  - repeat constructor. assumption.
  - inversion H; subst.
    destruct (id <? k')%Z; [constructor; assumption|].
    destruct (id =? k')%Z; cbn; constructor; auto.
Qed.

Lemma emplace_sorted (id : Z) (ob : Z * Vector7d) (image : FeatureMap) :
  StronglySorted Z.lt (map fst image) ->
  StronglySorted Z.lt (map fst (emplace id ob image)).
Proof.
  induction image as [|[k obs] rest IH]; cbn; intro H.
  - repeat constructor.
  - inversion H as [|? ? Hs Hf]; subst.
    destruct (id <? k)%Z eqn:Hlt.
    + apply Z.ltb_lt in Hlt. constructor; [assumption|].
      constructor; [assumption|].
      eapply Forall_impl; [|exact Hf]. intros a Ha. cbn in *. lia.
    + destruct (id =? k)%Z eqn:Heq; cbn.
      * constructor; assumption.
      * apply Z.ltb_ge in Hlt. apply Z.eqb_neq in Heq.
        constructor; [auto|]. apply emplace_keys_bound; [lia | assumption].
Qed.

Lemma find_feature_above (id : Z) (image : FeatureMap) :
  Forall (Z.lt id) (map fst image) -> find_feature id image = None.
Proof.
  induction image as [|[k obs] rest IH]; cbn; intro H; [reflexivity|].
  inversion H; subst.
  replace (id =? k)%Z with false by (symmetry; apply Z.eqb_neq; lia). auto.
Qed.

Lemma find_emplace_same (id : Z) (ob : Z * Vector7d) (image : FeatureMap) :
  StronglySorted Z.lt (map fst image) ->
  find_feature id (emplace id ob image)
  = Some (match find_feature id image with
          | Some obs => obs ++ [ob]
          | None => [ob]
          end).
Proof.
  induction image as [|[k obs] rest IH]; cbn; intro H.
  - now rewrite Z.eqb_refl.
  - inversion H as [|? ? Hs Hf]; subst.
    destruct (id <? k)%Z eqn:Hlt.
    + apply Z.ltb_lt in Hlt. cbn. rewrite Z.eqb_refl.
      replace (id =? k)%Z with false by (symmetry; apply Z.eqb_neq; lia).
      rewrite find_feature_above; [reflexivity|].
      eapply Forall_impl; [|exact Hf]. intros a Ha. cbn in *. lia.
    + destruct (id =? k)%Z eqn:Heq; cbn; rewrite Heq; auto.
Qed.

Lemma find_emplace_other (id id' : Z) (ob : Z * Vector7d) (image : FeatureMap) :
  id' <> id ->
  find_feature id' (emplace id ob image) = find_feature id' image.
Proof.
  intro Hne. induction image as [|[k obs] rest IH]; cbn.
  - now replace (id' =? id)%Z with false by (symmetry; now apply Z.eqb_neq).
  - destruct (id <? k)%Z.
    + cbn. now replace (id' =? id)%Z with false by (symmetry; now apply Z.eqb_neq).
    + destruct (id =? k)%Z eqn:Heq; cbn.
      * apply Z.eqb_eq in Heq. subst k.
        now replace (id' =? id)%Z with false by (symmetry; now apply Z.eqb_neq).
      * rewrite IH. reflexivity.
Qed.

Lemma observation_count_cons (k : Z) (obs : list (Z * Vector7d)) (image : FeatureMap) :
  observation_count ((k, obs) :: image)
  = (List.length obs + observation_count image)%nat.
Proof. reflexivity. Qed.

Lemma emplace_count (id : Z) (ob : Z * Vector7d) (image : FeatureMap) :
  observation_count (emplace id ob image) = S (observation_count image).
Proof.
  induction image as [|[k obs] rest IH]; [reflexivity|].
  cbn [emplace].
  destruct (id <? k)%Z; [reflexivity|].
  destruct (id =? k)%Z; rewrite !observation_count_cons.
  - rewrite length_app. cbn. lia.
  - rewrite IH. lia.
Qed.

Lemma observations_of_snoc (id : Z) (es : list (Z * (Z * Vector7d)))
      (e : Z * (Z * Vector7d)) :
  observations_of id (es ++ [e])
  = observations_of id es ++ (if (id =? fst e)%Z then [snd e] else []).
Proof.
  unfold observations_of. rewrite filter_app, map_app. cbn.
  destruct (id =? fst e)%Z; reflexivity.
Qed.

Lemma holds_emplace (image : FeatureMap) (es : list (Z * (Z * Vector7d)))
      (e : Z * (Z * Vector7d)) :
  holds image es -> holds (emplace (fst e) (snd e) image) (es ++ [e]).
Proof.
  intros (Hs & Hf & Hc). split; [|split].
  - now apply emplace_sorted.
  - intro id. rewrite observations_of_snoc.
    destruct (id =? fst e)%Z eqn:Heq.
    + apply Z.eqb_eq in Heq. subst id.
      rewrite find_emplace_same by assumption. rewrite Hf.
      destruct (observations_of (fst e) es) as [|o os]; cbn; reflexivity.
    + apply Z.eqb_neq in Heq. rewrite find_emplace_other by assumption.
      rewrite app_nil_r. apply Hf.
  - rewrite emplace_count, Hc, length_app. cbn. lia.
Qed.

Lemma decode_points_holds (NUM_OF_CAM : Z) (img_msg : PointCloud) :
  forall pts i image es result,
    holds image es ->
    decode_points NUM_OF_CAM img_msg i pts image = inr result ->
    exists es',
      holds result (es ++ es')
      /\ Forall2 (fun jp e => decode_point NUM_OF_CAM img_msg (fst jp) (snd jp) = inr e)
                 (combine (seq i (List.length pts)) pts) es'.
Proof.
  induction pts as [|p pts IH]; cbn [decode_points]; intros i image es result Hh H.
  - injection H as <-. exists []. rewrite app_nil_r. split; [assumption | constructor].
  - apply dbind_inr in H as (e & He & H).
    apply (IH _ _ (es ++ [e])) in H as (es' & Hh' & Hall); [|now apply holds_emplace].
    exists (e :: es'). rewrite <- app_assoc in Hh'. split; [exact Hh'|].
    cbn. constructor; assumption.
Qed.

(** X18. The map handed to [processImage] has its keys in strictly
    increasing order and holds, for every feature id, exactly the
    observations of the points carrying that id, in the order of the points;
    a feature id carried by no point is absent. *)
Theorem X18_feature_map_groups_points (NUM_OF_CAM : Z) (img_msg : PointCloud)
        (image : FeatureMap) :
  decode NUM_OF_CAM img_msg = inr image ->
  exists entries,
    Forall2 (fun ip e => decode_point NUM_OF_CAM img_msg (fst ip) (snd ip) = inr e)
            (combine (seq 0 (List.length (points img_msg))) (points img_msg)) entries
    /\ StronglySorted Z.lt (map fst image)
    /\ (forall id, find_feature id image
                   = match observations_of id entries with
                     | [] => None
                     | obs => Some obs
                     end)
    /\ observation_count image = List.length (points img_msg).
Proof.
  intro H. unfold decode in H.
  apply (decode_points_holds _ _ _ _ _ []) in H as (es' & (Hs & Hf & Hc) & Hall).
  - exists es'. cbn in Hs, Hf, Hc. repeat split; try assumption.
    rewrite Hc. apply Forall2_length in Hall.
    rewrite length_combine, length_seq, Nat.min_id in Hall. now symmetry.
  - split; [constructor | split; [reflexivity | reflexivity]].
Qed.

Lemma X18_feature_map_groups_points_witness :
  exists image,
    decode 2 stereo_frame = inr image
    /\ find_feature 7 image
       = Some [(0%Z, mkV7 0.1 0.2 1 320 240 1 0); (1%Z, mkV7 0.15 0.2 1 330 240 1 0)]
    /\ exists entries,
      Forall2 (fun ip e => decode_point 2 stereo_frame (fst ip) (snd ip) = inr e)
              (combine (seq 0 (List.length (points stereo_frame)))
                       (points stereo_frame)) entries
      /\ StronglySorted Z.lt (map fst image)
      /\ (forall id, find_feature id image
                     = match observations_of id entries with
                       | [] => None
                       | obs => Some obs
                       end)
      /\ observation_count image = List.length (points stereo_frame).
Proof.
  eexists. split; [vm_compute; reflexivity|]. split; [reflexivity|].
  apply (X18_feature_map_groups_points 2 stereo_frame). vm_compute. reflexivity.
Defined.









(** ** Further properties: a frame corrected to before the first sample *)




(** ** Further properties: the order of the GNSS epochs *)

Lemma gnss_epochs_app (a b : list EstCall) :
  gnss_epochs (a ++ b) = gnss_epochs a ++ gnss_epochs b.
Proof.
  induction a as [|c a IH]; cbn; [reflexivity|].
  destruct c; cbn; rewrite ?IH; reflexivity.
Qed.

Lemma arrived_epochs_app (a b : list Event) :
  arrived_epochs (a ++ b) = arrived_epochs a ++ arrived_epochs b.
Proof.
  induction a as [|ev a IH]; cbn; [reflexivity|].
  destruct ev; cbn; rewrite ?IH; reflexivity.
Qed.

Lemma gnss_epochs_none (ev : Event) (new : list EstCall) :
  ev <> EvProcess -> Forall (may_call ev) new -> gnss_epochs new = [].
Proof.
  intros Hev H. induction H as [|c l Hc _ IH]; [reflexivity|].
  destruct c; cbn; try assumption.
  destruct ev as [m|f|e|e|ts data|t|tp|[|]|]; cbn in Hc; contradiction.
Qed.

Lemma getMeasurements_epochs (E : Env) (st st' : Node) (r : option Bundle) :
  getMeasurements E st = Ok (r, st') ->
  sublist (paired E r ++ gnss_meas_buf (bufs st')) (gnss_meas_buf (bufs st)).
Proof.
  intro H. destruct r as [B|]; cbn [paired].
  - apply getMeasurements_Some in H
      as (ts & fb' & w1 & gb' & w2 & moved & s & ib' & _ & Hal & _ & _ & w3 & ->).
    cbn [bufs emit set_bufs gnss_meas_buf].
    destruct (GNSS_ENABLE E); cbn [andb].
    + apply align_gnss_spec in Hal
        as (dropped & g0 & rest & t & Hgb & _ & Ht & _ & [(_ & Hgm & Hr)|(_ & Hgm & Hr)]);
        rewrite Hgb, Hgm, Hr.
      * destruct g0 as [|o g0]; [discriminate|]. cbn [empty negb].
        apply sublist_drop.
      * cbn [empty negb app]. apply sublist_drop.
    + injection Hal as Hgm Hr _. rewrite <- Hr. apply sublist_refl.
  - unfold getMeasurements in H.
    destruct (empty (imu_buf (bufs st)) || empty (feature_buf (bufs st))
              || (GNSS_ENABLE E && empty (gnss_meas_buf (bufs st)))).
    { injection H as <-. apply sublist_refl. }
    bind_inv H as f0 Hf0. bind_inv H as newest Hnewest.
    destruct (negb (Qltb (pc_t f0) (imu_t newest))).
    { injection H as <-. apply sublist_refl. }
    bind_inv H as oldest Holdest. bind_inv H as [[ts fb] w1] Himg.
    bind_inv H as [[[gm gb]|] w2] Hgnss.
    + bind_inv H as img Hfront. bind_inv H as fb' Hpop.
      bind_inv H as [moved ib] Hdrain. bind_inv H as s Hs. discriminate.
    + injection H as <-. cbn. apply sublist_nil_l.
Qed.

Lemma process_bundle_epochs (E : Env) (B : Bundle) (st st' : Node) :
  process_bundle E B st = Ok st' ->
  gnss_epochs (est_calls st') = gnss_epochs (est_calls st) ++ paired E (Some B).
Proof.
  unfold process_bundle. intro H. bind_inv H as st1 Himu.
  apply process_imu_calls in Himu as (new & Hn & Hf & _ & _).
  assert (Hnew : gnss_epochs new = []).
  { clear - Hf. induction Hf as [|c l Hc _ IH]; [reflexivity|].
    destruct c; cbn; try contradiction. assumption. }
  cbn [paired].
  destruct (GNSS_ENABLE E && negb (empty (gnss_msg B)));
    destruct (solver_flag _); injection H as <-;
    cbn [est_calls update set_mech call]; rewrite Hn, !gnss_epochs_app, Hnew;
    cbn; rewrite ?app_nil_r; reflexivity.
Qed.

Lemma step_epochs (E : Env) (ev : Event) (st st' : Node) (pre : list Epoch) :
  sublist (gnss_epochs (est_calls st) ++ gnss_meas_buf (bufs st)) pre ->
  step E ev st = Ok st' ->
  sublist (gnss_epochs (est_calls st') ++ gnss_meas_buf (bufs st'))
          (pre ++ arrived_epochs [ev]).
Proof.
  intros Hsub H.
  assert (Hdec : ev = EvProcess \/ ev <> EvProcess) by (destruct ev; (left; reflexivity) || (right; discriminate)).
  destruct Hdec as [->|Hev].
  - cbn [arrived_epochs]. rewrite app_nil_r. eapply sublist_trans; [|exact Hsub].
    cbn [step] in H. unfold process in H. bind_inv H as [r st1] Hget.
    pose proof (getMeasurements_epochs _ _ _ _ Hget) as Hg.
    pose proof (getMeasurements_rest _ _ _ _ Hget) as (_ & _ & _ & _ & _ & Hc & _).
    destruct r as [B|].
    + pose proof (process_bundle_epochs _ _ _ _ H) as He.
      apply process_bundle_rest in H as (Hb & _).
      rewrite He, Hb, Hc, <- app_assoc.
      apply sublist_app; [apply sublist_refl | exact Hg].
    + injection H as <-. rewrite Hc.
      apply sublist_app; [apply sublist_refl | exact Hg].
  - pose proof (step_calls E ev st st' H) as (new & Hn & Hf).
    apply (gnss_epochs_none ev) in Hf; [|assumption].
    rewrite Hn, gnss_epochs_app, Hf, app_nil_r.
    destruct ev as [m|f|e|e|ts data|t|tp|b|]; cbn [arrived_epochs]; cbn [step] in H;
      try congruence.
    + injection H as <-. rewrite app_nil_r.
      replace (gnss_meas_buf (bufs (imu_callback E m st)))
        with (gnss_meas_buf (bufs st)); [assumption|].
      unfold imu_callback. destruct (Qle_bool _ _); [reflexivity|]. cbv zeta.
      destruct (solver_flag _); reflexivity.
    + injection H as <-. rewrite app_nil_r.
      pose proof (feature_callback_bufs f st) as Hb. cbv zeta in Hb. rewrite Hb.
      destruct (_ && _); assumption.
    + destruct (GNSS_ENABLE E).
      * unfold gnss_meas_callback in H. bind_inv H as ts Hts. cbv zeta in H.
        destruct (negb _); injection H as <-; cbn.
        -- rewrite <- (app_nil_r (_ ++ gnss_meas_buf (bufs st))).
           apply sublist_app; [assumption | repeat constructor].
        -- rewrite app_assoc. apply sublist_app; [assumption | apply sublist_refl].
      * injection H as <-.
        rewrite <- (app_nil_r (_ ++ gnss_meas_buf (bufs st))).
        apply sublist_app; [assumption | repeat constructor].
    + rewrite app_nil_r. destruct (GNSS_ENABLE E); injection H as <-; assumption.
    + rewrite app_nil_r. destruct (GNSS_ENABLE E); [|injection H as <-; assumption].
      unfold gnss_iono_params_callback in H. bind_inv H as u Hu.
      injection H as <-. assumption.
    + rewrite app_nil_r.
      destruct (GNSS_ENABLE E && GNSS_LOCAL_ONLINE_SYNC E); injection H as <-;
        [|assumption].
      unfold local_trigger_info_callback.
      destruct (next_pulse_time_valid (clock st)); [|assumption].
      destruct (negb (time_diff_valid (clock st))); assumption.
    + rewrite app_nil_r.
      destruct (GNSS_ENABLE E && GNSS_LOCAL_ONLINE_SYNC E); injection H as <-;
        [|assumption].
      unfold gnss_tp_info_callback. cbv zeta.
      match goal with |- context [match ?c with Some _ => _ | None => _ end] =>
        destruct c end; assumption.
    + rewrite app_nil_r. injection H as <-. destruct b; assumption.
Qed.

Lemma run_epochs (E : Env) :
  forall evs st st' pre,
    sublist (gnss_epochs (est_calls st) ++ gnss_meas_buf (bufs st)) pre ->
    run E evs st = Ok st' ->
    sublist (gnss_epochs (est_calls st') ++ gnss_meas_buf (bufs st'))
            (pre ++ arrived_epochs evs).
Proof.
  induction evs as [|ev evs IH]; cbn [run]; intros st st' pre Hsub H.
  - injection H as <-. cbn. now rewrite app_nil_r.
  - bind_inv H as st1 Hstep.
    change (ev :: evs) with ([ev] ++ evs).
    rewrite arrived_epochs_app, app_assoc.
    eapply IH; [|exact H]. eapply step_epochs; eauto.
Qed.

(** X21. The epochs handed to [processGNSS], followed by the epochs still
    queued, are epochs that arrived, in the order of arrival: no epoch is
    processed twice and none overtakes another. *)
Theorem X21_epochs_in_arrival_order (E : Env) (evs : list Event) (st' : Node) :
  run E evs (main E) = Ok st' ->
  sublist (gnss_epochs (est_calls st') ++ gnss_meas_buf (bufs st')) (arrived_epochs evs).
Proof.
  intro H. apply (run_epochs E evs (main E) st' []) in H; [exact H|].
  unfold main. cbn. destruct (GNSS_ENABLE E && negb (GNSS_LOCAL_ONLINE_SYNC E));
    constructor.
Qed.

Lemma X21_epochs_in_arrival_order_witness :
  exists st',
    run (test_env true 0) mixed_run (main (test_env true 0)) = Ok st'
    /\ gnss_epochs (est_calls st') = [epoch_at 100 0.02]
    /\ sublist (gnss_epochs (est_calls st') ++ gnss_meas_buf (bufs st'))
               (arrived_epochs mixed_run).
Proof.
  eexists. split; [vm_compute; reflexivity|]. split; [reflexivity|].
  apply (X21_epochs_in_arrival_order (test_env true 0) mixed_run).
  vm_compute. reflexivity.
Defined.
